(** * GalaChain documentation index: parsers, store and query layer

    A shallow embedding of the TypeScript sources
    (indexer/parse-markdown.ts, indexer/parse-typedoc.ts,
    indexer/build-index.ts, db/wrapper.ts, db/queries.ts, tools/*.ts)
    together with the properties stated about them.

    Conventions of the embedding.
    - A JavaScript string is a [string]: a sequence of 8-bit characters,
      one for each UTF-16 code unit.  The development covers texts made of
      ASCII characters and of the two characters beyond ASCII that the
      regular expressions of the sources name: the bullet U+2022 and the
      en dash U+2013, which are held in the characters of code 149 and 150
      (their Windows-1252 codes).  On these texts case mapping, [\w],
      [\s] and [\b] are as defined below: the bullet and the en dash are
      neither letters nor white space.
    - JavaScript numbers that hold array lengths, row ids and scores are
      integers here ([nat] for lengths and ids, [Z] for scores and limits).
    - [null]/[undefined] are [None]; an optional argument of a tool is
      absent ([None]) or a value, as its TypeScript interface types it.
    - Mutable local variables become explicit state that is threaded
      through the loops. *)

From Stdlib Require Import Bool Arith ZArith Lia List Sorted Ascii String.
Import ListNotations.

Open Scope string_scope.
Open Scope list_scope.
Open Scope nat_scope.

Set Warnings "-register-all".

(** String concatenation, written [^^] to keep [++] for lists. *)
Notation "a ^^ b" := (String.append a b) (at level 60, right associativity).

(* ================================================================== *)
(** * JavaScript string primitives *)
(* ================================================================== *)

Module JS.

(** Truthiness of a string: only the empty string is falsy. *)
Definition truthy (s : string) : bool :=
  match s with EmptyString => false | String _ _ => true end.

(** [a || b] on strings. *)
Definition orElse (a b : string) : string := if truthy a then a else b.

(** [a || b] on a nullable string. *)
Definition orElseOpt (a : option string) (b : string) : string :=
  match a with Some s => orElse s b | None => b end.

(** [s.startsWith(p)] *)
Definition startsWith (s p : string) : bool := String.prefix p s.

(** [s.includes(sub)] *)
Fixpoint includes (s sub : string) : bool :=
  if String.prefix sub s then true
  else match s with
       | EmptyString => false
       | String _ rest => includes rest sub
       end.

(** [s.indexOf(sub)], [None] standing for -1. *)
Fixpoint indexOf (s sub : string) : option nat :=
  if String.prefix sub s then Some 0
  else match s with
       | EmptyString => None
       | String _ rest => option_map S (indexOf rest sub)
       end.

(** [s.endsWith(p)] *)
Definition endsWith (s p : string) : bool :=
  (String.length p <=? String.length s) &&
  String.eqb (String.substring (String.length s - String.length p) (String.length p) s) p.

(** [s.slice(a, b)] for [0 <= a], [0 <= b]. *)
Definition slice (s : string) (a b : nat) : string :=
  String.substring a (b - a) s.

(** [l.join(sep)] *)
Definition join (sep : string) (l : list string) : string := String.concat sep l.

Definition code (c : ascii) : nat := nat_of_ascii c.

(** The bullet U+2022 and the en dash U+2013. *)
Definition bullet : ascii := "149".
Definition enDash : ascii := "150".

(** The characters of the texts that the development covers. *)
Definition isCovered (c : ascii) : bool :=
  (code c <? 128) || Ascii.eqb c bullet || Ascii.eqb c enDash.

Definition covered (s : string) : bool :=
  forallb isCovered (list_ascii_of_string s).

Definition isUpper (c : ascii) : bool := (65 <=? code c) && (code c <=? 90).
Definition isLower (c : ascii) : bool := (97 <=? code c) && (code c <=? 122).
Definition isDigit (c : ascii) : bool := (48 <=? code c) && (code c <=? 57).

(** The class [\w]. *)
Definition isWord (c : ascii) : bool :=
  isUpper c || isLower c || isDigit c || (code c =? 95).

(** Line terminators: the characters that [.] does not match. *)
Definition isLineTerminator (c : ascii) : bool :=
  (code c =? 10) || (code c =? 13).

(** The class [\s], which is also what [trim] removes:
    TAB, LF, VT, FF, CR and SPACE. *)
Definition isSpace (c : ascii) : bool :=
  ((9 <=? code c) && (code c <=? 13)) || (code c =? 32).

Definition lowerChar (c : ascii) : ascii :=
  if isUpper c then ascii_of_nat (code c + 32) else c.

Definition upperChar (c : ascii) : ascii :=
  if isLower c then ascii_of_nat (code c - 32) else c.

(** [s.toLowerCase()] *)
Fixpoint toLowerCase (s : string) : string :=
  match s with
  | EmptyString => EmptyString
  | String c rest => String (lowerChar c) (toLowerCase rest)
  end.

(** [s.trimStart()] *)
Fixpoint trimStart (s : string) : string :=
  match s with
  | EmptyString => EmptyString
  | String c rest => if isSpace c then trimStart rest else s
  end.

(** [s.trimEnd()]: a character is dropped when it is white space and
    nothing but white space follows it. *)
Fixpoint trimEnd (s : string) : string :=
  match s with
  | EmptyString => EmptyString
  | String c rest =>
      match trimEnd rest with
      | EmptyString => if isSpace c then EmptyString else String c EmptyString
      | r => String c r
      end
  end.

(** [s.trim()] *)
Definition trim (s : string) : string := trimEnd (trimStart s).

(** [s.split(c)] for a one-character separator [c]: the pieces between
    the occurrences of [c]; always at least one piece. *)
Fixpoint splitChar (sep : ascii) (s : string) : list string :=
  match s with
  | EmptyString => [EmptyString]
  | String c rest =>
      if Ascii.eqb c sep then EmptyString :: splitChar sep rest
      else match splitChar sep rest with
           | [] => [String c EmptyString]
           | p :: ps => String c p :: ps
           end
  end.

(** [s.split(/\s+/)[0]]: the text before the first white-space character
    (the first piece of the split always exists). *)
Fixpoint firstField (s : string) : string :=
  match s with
  | EmptyString => EmptyString
  | String c rest => if isSpace c then EmptyString else String c (firstField rest)
  end.

(** [s.split(/\s+/).filter(t => t.length > 0)]: the maximal runs of
    characters that are not white space. *)
Fixpoint wordsAux (cur : string) (s : string) : list string :=
  match s with
  | EmptyString => if truthy cur then [cur] else []
  | String c rest =>
      if isSpace c
      then (if truthy cur then cur :: wordsAux EmptyString rest
            else wordsAux EmptyString rest)
      else wordsAux (cur ^^ String c EmptyString) rest
  end.

Definition words (s : string) : list string := wordsAux EmptyString s.

(** [Array.prototype.includes] on strings. *)
Definition arrayIncludes (l : list string) (x : string) : bool :=
  existsb (String.eqb x) l.

(** Decimal rendering of a natural number, as template literals do. *)
Fixpoint digitsFuel (fuel n : nat) (acc : string) : string :=
  match fuel with
  | O => acc
  | S fuel' =>
      let acc' := String (ascii_of_nat (48 + n mod 10)) acc in
      if n / 10 =? 0 then acc' else digitsFuel fuel' (n / 10) acc'
  end.

Definition natToString (n : nat) : string := digitsFuel (S n) n EmptyString.

End JS.

(* ================================================================== *)
(** * Guide parser (indexer/parse-markdown.ts) *)
(* ================================================================== *)

Module Guide.

(** A node of the markdown syntax tree (mdast) with the fields the parser
    and [toString] read: [type], [value] (text, code), [depth] (heading),
    [lang] (code), [children] and [alt] (image). *)
Inductive Node : Type :=
  mkNode (type : string) (value : option string) (depth : nat)
         (lang : option string) (children : list Node) (alt : option string).

Definition type (n : Node) : string := let (t, _, _, _, _, _) := n in t.
Definition value (n : Node) : option string := let (_, v, _, _, _, _) := n in v.
Definition depth (n : Node) : nat := let (_, _, d, _, _, _) := n in d.
Definition lang (n : Node) : option string := let (_, _, _, l, _, _) := n in l.
Definition children (n : Node) : list Node := let (_, _, _, _, c, _) := n in c.
Definition alt (n : Node) : option string := let (_, _, _, _, _, a) := n in a.

(** [mdast-util-to-string] with its default options: a node with a
    [value] yields it, an image yields its alternative text when it has
    one, a parent yields the concatenation of its children.  (The parser
    itself is stated over an arbitrary [toString].) *)
Fixpoint mdastToString (n : Node) : string :=
  match n with
  | mkNode _ (Some v) _ _ _ _ => v
  | mkNode _ None _ _ cs a =>
      if JS.truthy (JS.orElseOpt a "") then JS.orElseOpt a ""
      else String.concat "" (map mdastToString cs)
  end.

(** [unist-util-visit] with a visitor that returns nothing: the visitor is
    called on the node, then on each child's subtree from left to right.
    The visitor's side effects are explicit state [S]. *)
Fixpoint visit {S : Type} (visitor : Node -> S -> S) (n : Node) (s : S) : S :=
  match n with
  | mkNode _ _ _ _ cs _ =>
      fold_left (fun acc c => visit visitor c acc) cs (visitor n s)
  end.

(** Document order: the sequence of nodes in which [visit] calls its
    visitor. *)
Fixpoint preorder (n : Node) : list Node :=
  match n with
  | mkNode _ _ _ _ cs _ => n :: flat_map preorder cs
  end.

Record DocChunk : Type := mkDocChunk {
  title : string;
  content : string;
  headingLevel : nat;
  package : string;
  category : string;
  filePath : string;
  sourceUrl : string
}.

Definition detectPackage (filePath : string) : string :=
  if JS.includes filePath "chain-api-docs" then "chain-api"
  else if JS.includes filePath "chain-client-docs" then "chain-client"
  else if JS.includes filePath "chain-test-docs" then "chain-test"
  else if JS.includes filePath "chaincode-docs" then "chaincode"
  else if JS.includes filePath "chain-cli" then "chain-cli"
  else "guides".

Definition detectCategory (filePath : string) : string :=
  if JS.includes filePath "-docs/" then "api"
  else if JS.includes filePath "getting-started" then "tutorial"
  else if JS.includes filePath "from-zero" then "tutorial"
  else if JS.includes filePath "README" then "reference"
  else if JS.includes filePath "CLAUDE" then "reference"
  else if JS.includes filePath "BREAKING" then "reference"
  else "guide".

Definition noLineTerminator (s : string) : bool :=
  forallb (fun c => negb (JS.isLineTerminator c)) (list_ascii_of_string s).

Definition isSlash (c : ascii) : bool :=
  Ascii.eqb c "/"%char || Ascii.eqb c "\"%char.

(** [filePath.match(/galachain-sdk[\/\\](.+)$/)]: the capture of the
    leftmost occurrence of [galachain-sdk] that is followed by a slash or
    a backslash and then by one or more characters, none a line
    terminator, up to the end of the string. *)
Fixpoint sdkRelative (s : string) : option string :=
  let here :=
    if String.prefix "galachain-sdk" s then
      match String.substring 13 (String.length s - 13) s with
      | String c rest =>
          if isSlash c && JS.truthy rest && noLineTerminator rest
          then Some rest else None
      | EmptyString => None
      end
    else None in
  match here with
  | Some r => Some r
  | None => match s with
            | EmptyString => None
            | String _ rest => sdkRelative rest
            end
  end.

(** [s.replace(/\\/g, '/')] *)
Fixpoint backslashToSlash (s : string) : string :=
  match s with
  | EmptyString => EmptyString
  | String c rest =>
      String (if Ascii.eqb c "\"%char then "/"%char else c) (backslashToSlash rest)
  end.

Definition filePathToUrl (filePath pkg : string) : string :=
  match sdkRelative filePath with
  | Some rel => "https://github.com/GalaChain/sdk/blob/main/" ^^ backslashToSlash rel
  | None => "https://docs.galachain.com/"
  end.

Section Parser.

(** The two library calls of the parser: [unified().use(remarkParse).parse]
    and [toString] of mdast-util-to-string. *)
Variable remarkParse : string -> Node.
Variable toString : Node -> string.

(** [listToString] *)
Definition listToString (list : Node) : string :=
  JS.join (String "010" "") (map (fun item => "- " ^^ toString item) (children list)).

(** The local variables of [parseMarkdown] that the visitor updates. *)
Record PState : Type := mkPState {
  currentHeading : string;
  currentLevel : nat;
  currentContent : list string;
  chunks : list DocChunk
}.

Definition nl2 : string := String "010" (String "010" "").

(** [saveChunk]: pushes a chunk when there is a heading and content. *)
Definition saveChunk (filePath : string) (st : PState) : PState :=
  if JS.truthy (currentHeading st) && (0 <? List.length (currentContent st))
  then mkPState (currentHeading st) (currentLevel st) (currentContent st)
         (chunks st ++
          [mkDocChunk (currentHeading st)
                      (JS.join nl2 (currentContent st))
                      (currentLevel st)
                      (detectPackage filePath)
                      (detectCategory filePath)
                      filePath
                      (filePathToUrl filePath (detectPackage filePath))])
  else st.

(** The state with its content replaced. *)
Definition withContent (st : PState) (c : list string) : PState :=
  mkPState (currentHeading st) (currentLevel st) c (chunks st).

Definition pushContent (text : string) (st : PState) : PState :=
  mkPState (currentHeading st) (currentLevel st)
           (currentContent st ++ [text]) (chunks st).

Definition fence : string := "```".

(** The text pushed for a code node. *)
Definition renderCode (n : Node) : string :=
  fence ^^ JS.orElseOpt (lang n) "" ^^ String "010" "" ^^
  match value n with Some v => v | None => "" end ^^ String "010" "" ^^ fence.

(** The visitor passed to [visit]. *)
Definition visitor (filePath : string) (node : Node) (st : PState) : PState :=
  if String.eqb (type node) "heading" then
    let st' := saveChunk filePath st in
    mkPState (toString node) (depth node) [] (chunks st')
  else if String.eqb (type node) "paragraph" then
    pushContent (toString node) st
  else if String.eqb (type node) "code" then
    pushContent (renderCode node) st
  else if String.eqb (type node) "list" then
    pushContent (listToString node) st
  else if String.eqb (type node) "blockquote" then
    pushContent ("> " ^^ toString node) st
  else st.

Definition parseTree (tree : Node) (filePath : string) : list DocChunk :=
  let init := mkPState "" 1 [] [] in
  chunks (saveChunk filePath (visit (visitor filePath) tree init)).

Definition parseMarkdown (content filePath : string) : list DocChunk :=
  parseTree (remarkParse content) filePath.

(** ** The heading sections of a document, as the specification words them *)

Definition isHeading (n : Node) : bool := String.eqb (type n) "heading".

(** A content block: paragraph, code block, list or blockquote. *)
Definition isContentBlock (n : Node) : bool :=
  String.eqb (type n) "paragraph" || String.eqb (type n) "code" ||
  String.eqb (type n) "list" || String.eqb (type n) "blockquote".

(** The nodes that follow, up to the next heading. *)
Fixpoint untilHeading (ns : list Node) : list Node :=
  match ns with
  | [] => []
  | n :: rest => if isHeading n then [] else n :: untilHeading rest
  end.

(** The heading sections of a node sequence: each heading with the nodes
    between it and the next heading.  Nodes before the first heading
    belong to no section. *)
Fixpoint sections (ns : list Node) : list (Node * list Node) :=
  match ns with
  | [] => []
  | n :: rest =>
      if isHeading n then (n, untilHeading rest) :: sections rest
      else sections rest
  end.

Definition contentBlocks (body : list Node) : list Node :=
  filter isContentBlock body.

(** A section yields a chunk when its heading text is not empty and it
    has at least one content block. *)
Definition yieldsChunk (sec : Node * list Node) : bool :=
  JS.truthy (toString (fst sec)) &&
  (1 <=? List.length (contentBlocks (snd sec))).

(** The rendered text of a content block. *)
Definition renderBlock (n : Node) : string :=
  if String.eqb (type n) "paragraph" then toString n
  else if String.eqb (type n) "code" then renderCode n
  else if String.eqb (type n) "list" then listToString n
  else "> " ^^ toString n.

Definition chunkOfSection (filePath : string) (sec : Node * list Node) : DocChunk :=
  mkDocChunk (toString (fst sec))
             (JS.join nl2 (map renderBlock (contentBlocks (snd sec))))
             (depth (fst sec))
             (detectPackage filePath)
             (detectCategory filePath)
             filePath
             (filePathToUrl filePath (detectPackage filePath)).

Definition sectionChunks (filePath : string) (ns : list Node) : list DocChunk :=
  map (chunkOfSection filePath) (filter yieldsChunk (sections ns)).

End Parser.

End Guide.

(* ================================================================== *)
(** * Regular-expression matching *)
(* ================================================================== *)

(** Every regular expression of the sources is embedded as a function
    that decides whether a match starts at the current position: it
    receives the character before the position ([None] at the start of
    the text) and the text from the position on, and returns the captures
    together with the length of the match.  The drivers below do what
    [match], [search], [exec] with the [g] flag and [matchAll] do: they
    try the positions from left to right. *)

Module Rx.

(** The longest prefix of characters satisfying [p], and the rest. *)
Fixpoint span (p : ascii -> bool) (s : string) : string * string :=
  match s with
  | EmptyString => (EmptyString, EmptyString)
  | String c rest =>
      if p c then let (a, b) := span p rest in (String c a, b)
      else (EmptyString, s)
  end.

Definition drop (n : nat) (s : string) : string :=
  String.substring n (String.length s - n) s.

Definition take (n : nat) (s : string) : string := String.substring 0 n s.

(** Case-insensitive literal prefix (flag [i]); [lit] is in lower case. *)
Definition iprefix (lit s : string) : bool :=
  String.prefix lit (JS.toLowerCase (take (String.length lit) s)).

(** [^] with the [m] flag: at the start or after a line terminator. *)
Definition atLineStart (prev : option ascii) : bool :=
  match prev with None => true | Some c => JS.isLineTerminator c end.

(** Leftmost match: [re.exec(s)] without the [g] flag, [s.match(re)].
    The result also carries the index of the match. *)
Fixpoint firstFrom {A : Type} (m : option ascii -> string -> option A)
         (idx : nat) (prev : option ascii) (s : string) : option (A * nat) :=
  match m prev s with
  | Some a => Some (a, idx)
  | None => match s with
            | EmptyString => None
            | String c rest => firstFrom m (S idx) (Some c) rest
            end
  end.

Definition first {A : Type} (m : option ascii -> string -> option A)
           (s : string) : option A :=
  option_map fst (firstFrom m 0 None s).

(** All matches from left to right, each search resuming where the
    previous match ended ([exec] in a loop with the [g] flag, [matchAll],
    [replace] with the [g] flag).  [m] returns the length of its match,
    which is never 0 for the expressions of the sources. *)
Fixpoint allFrom {A : Type} (m : option ascii -> string -> option (A * nat))
         (skip : nat) (prev : option ascii) (s : string) {struct s} : list A :=
  match skip with
  | S k => match s with
           | EmptyString => []
           | String c rest => allFrom m k (Some c) rest
           end
  | O => match m prev s with
         | Some (a, len) =>
             a :: match s with
                  | EmptyString => []
                  | String c rest => allFrom m (len - 1) (Some c) rest
                  end
         | None => match s with
                   | EmptyString => []
                   | String c rest => allFrom m 0 (Some c) rest
                   end
         end
  end.

Definition all {A : Type} (m : option ascii -> string -> option (A * nat))
           (s : string) : list A :=
  allFrom m 0 None s.

(** [s.replace(re, f)] with the [g] flag: every match is replaced by the
    text computed from it. *)
Fixpoint replaceFrom (m : option ascii -> string -> option (string * nat))
         (skip : nat) (prev : option ascii) (s : string) {struct s} : string :=
  match skip with
  | S k => match s with
           | EmptyString => EmptyString
           | String c rest => replaceFrom m k (Some c) rest
           end
  | O => match m prev s with
         | Some (r, len) =>
             r ^^ match s with
                  | EmptyString => EmptyString
                  | String c rest => replaceFrom m (len - 1) (Some c) rest
                  end
         | None => match s with
                   | EmptyString => EmptyString
                   | String c rest => String c (replaceFrom m 0 (Some c) rest)
                   end
         end
  end.

Definition replaceAll (m : option ascii -> string -> option (string * nat))
           (s : string) : string :=
  replaceFrom m 0 None s.

(** [s.split(re)] for an expression [re] that matches at least one
    character and has no capture: [m] returns the length of the separator
    found at a position. *)
Fixpoint splitFrom (m : option ascii -> string -> option nat)
         (skip : nat) (prev : option ascii) (s : string) {struct s} : list string :=
  match skip with
  | S k => match s with
           | EmptyString => [EmptyString]
           | String c rest => splitFrom m k (Some c) rest
           end
  | O => match m prev s, s with
         | Some len, String c rest =>
             EmptyString :: splitFrom m (len - 1) (Some c) rest
         | _, EmptyString => [EmptyString]
         | None, String c rest =>
             match splitFrom m 0 (Some c) rest with
             | [] => [String c EmptyString]
             | p :: ps => String c p :: ps
             end
         end
  end.

Definition split (m : option ascii -> string -> option nat) (s : string) : list string :=
  splitFrom m 0 None s.

(** The tail [R+(.+)] or [R*(.+)] of an expression, for a class [R] of
    characters that contains the line terminators: a run of [R], then the
    rest of the line, which must hold at least one character.  The run is
    as long as possible; when the text ends with it, the expression gives
    characters of the run back until the capture can start on one that is
    not a line terminator, keeping at least [minRun] of them.  Returns the
    capture and the length matched. *)
Fixpoint lastNonTerminator (minRun : nat) (w : string) : option nat :=
  match w with
  | EmptyString => None
  | String c rest =>
      match lastNonTerminator (minRun - 1) rest with
      | Some i => Some (S i)
      | None =>
          if negb (JS.isLineTerminator c) && (minRun =? 0) then Some 0 else None
      end
  end.

Definition notTerminator (c : ascii) : bool := negb (JS.isLineTerminator c).

Definition runThenLine (inRun : ascii -> bool) (minRun : nat) (s : string)
  : option (string * nat) :=
  let (w, rest) := span inRun s in
  match rest with
  | String _ _ =>
      if minRun <=? String.length w then
        let (line, _) := span notTerminator rest in
        Some (line, String.length w + String.length line)
      else None
  | EmptyString =>
      match lastNonTerminator minRun w with
      | Some i =>
          let (line, _) := span notTerminator (drop i w) in
          Some (line, i + String.length line)
      | None => None
      end
  end.

(** [\s*(.+)] *)
Definition spacesThenLine (s : string) : option (string * nat) :=
  runThenLine JS.isSpace 0 s.

Definition isColonSpace (c : ascii) : bool := Ascii.eqb c ":" || JS.isSpace c.

Definition startsWithChar (c : ascii) (s : string) : bool :=
  match s with String d _ => Ascii.eqb c d | EmptyString => false end.

(** An optional character of the class [p] ([[...]?]): taken when it is
    there.  Returns 1 or 0 and the rest. *)
Definition optChar (p : ascii -> bool) (s : string) : nat * string :=
  match s with
  | String c r => if p c then (1, r) else (0, s)
  | EmptyString => (0, s)
  end.

(** An optional language tag after a code fence, [(?:a|b|...)?]: the
    first alternative that is a prefix of the text is taken (no other
    choice can let the rest of the expression match, since white space
    must follow).  Returns the text after the tag. *)
Fixpoint afterLang (langs : list string) (s : string) : string :=
  match langs with
  | [] => s
  | l :: ls => if String.prefix l s then drop (String.length l) s else afterLang ls s
  end.

Definition notBacktick (c : ascii) : bool := negb (Ascii.eqb c "`").
Definition isNewline (c : ascii) : bool := Ascii.eqb c "010".

(** The largest index [j] of a newline of [w] with [j + 3 <= bound],
    indices counted from [idx]. *)
Fixpoint lastNewline (bound idx : nat) (w : string) : option nat :=
  match w with
  | EmptyString => None
  | String c rest =>
      match lastNewline bound (S idx) rest with
      | Some j => Some j
      | None => if isNewline c && (idx + 3 <=? bound) then Some idx else None
      end
  end.

(** The tail of a fenced block: white space ending in a newline, a
    captured body of one or more characters other than the backquote, a
    newline and the closing fence.  The white space is as long as the
    body allows.  Returns the body and the length matched. *)
Definition codeBody (t : string) : option (string * nat) :=
  let (w, _) := span JS.isSpace t in
  let (z, after) := span notBacktick t in
  if String.prefix "```" after && JS.endsWith z (String "010" "") then
    match lastNewline (String.length z) 0 w with
    | Some j =>
        Some (String.substring (S j) (String.length z - 1 - S j) z,
              String.length z + 3)
    | None => None
    end
  else None.

End Rx.

(* ================================================================== *)
(** * Reference parser (indexer/parse-typedoc.ts) *)
(* ================================================================== *)

Module ParamInfo.
Record t : Type := mk {
  name : string;
  type : string;
  description : string;
  optional : bool
}.
End ParamInfo.

Module Returns.
Record t : Type := mk { type : string; description : string }.
End Returns.

Module MemberInfo.
Record t : Type := mk {
  name : string;
  type : string;
  signature : string;
  visibility : string;
  isStatic : bool;
  isAsync : bool;
  description : string;
  params : list ParamInfo.t;
  returns : option Returns.t;
  decorators : list string;
  exampleCode : option string
}.
End MemberInfo.

Module ClassInfo.
Record t : Type := mk {
  name : string;
  package : string;
  type : string;
  description : string;
  extendsClause : option string;
  implementsClause : list string;
  decorators : list string;
  members : list MemberInfo.t;
  filePath : string;
  sourceUrl : string
}.
End ClassInfo.

Module Typedoc.

Definition isOpener (c : ascii) : bool :=
  Ascii.eqb c "<" || Ascii.eqb c "(" || Ascii.eqb c "{" || Ascii.eqb c "[".

Definition isCloser (c : ascii) : bool :=
  Ascii.eqb c ">" || Ascii.eqb c ")" || Ascii.eqb c "}" || Ascii.eqb c "]".

(** The local variables of [splitParams]. *)
Record SplitState : Type := mkSplit {
  parts : list string;
  current : string;
  depth : Z
}.

(** One iteration of the loop over the characters. *)
Definition splitStep (st : SplitState) (char : ascii) : SplitState :=
  if isOpener char then
    mkSplit (parts st) (current st ^^ String char "") (depth st + 1)
  else if isCloser char then
    mkSplit (parts st) (current st ^^ String char "") (depth st - 1)
  else if Ascii.eqb char "," && (depth st =? 0)%Z then
    mkSplit (parts st ++ [JS.trim (current st)]) "" (depth st)
  else
    mkSplit (parts st) (current st ^^ String char "") (depth st).

Definition splitParams (paramStr : string) : list string :=
  let st := fold_left splitStep (list_ascii_of_string paramStr) (mkSplit [] "" 0%Z) in
  if JS.truthy (JS.trim (current st))
  then parts st ++ [JS.trim (current st)]
  else parts st.

(** [signature.match(...)] with the expression "(", captured run of
    characters other than ")", ")": the text between the first opening
    parenthesis and the first closing parenthesis after it. *)
Definition sigParamsMatch (signature : string) : option string :=
  Rx.first
    (fun _ s =>
       match s with
       | String "(" rest =>
           let (inner, after) := Rx.span (fun c => negb (Ascii.eqb c ")")) rest in
           match after with
           | String ")" _ => Some inner
           | _ => None
           end
       | _ => None
       end)
    signature.

(** [part.match(/(\w+)(\?)?:\s*(.+)/)]: a word, an optional question
    mark, a colon, then the rest of the line. *)
Definition paramMatchAt (prev : option ascii) (s : string)
  : option (string * bool * string) :=
  let (name, r1) := Rx.span JS.isWord s in
  if JS.truthy name then
    let (opt, r2) := match r1 with
                     | String "?" r => (true, r)
                     | _ => (false, r1)
                     end in
    match r2 with
    | String ":" r3 =>
        match Rx.spacesThenLine r3 with
        | Some (ty, _) => Some (name, opt, ty)
        | None => None
        end
    | _ => None
    end
  else None.

Definition paramMatch (part : string) : option (string * bool * string) :=
  Rx.first paramMatchAt part.

(** Body of the loop over the parts: a part of the shape [name?: Type]
    pushes one parameter, any other part pushes nothing. *)
Definition paramOfPart (part : string) : list ParamInfo.t :=
  match paramMatch part with
  | Some (n, opt, ty) => [ParamInfo.mk n (JS.trim ty) "" opt]
  | None => []
  end.

(** The parameters read from the signature (first half of [parseParams]). *)
Definition signatureParams (signature : string) : list ParamInfo.t :=
  match sigParamsMatch signature with
  | Some paramStr =>
      if JS.truthy (JS.trim paramStr)
      then flat_map paramOfPart (splitParams paramStr)
      else []
  | None => []
  end.

(** A match of [paramDescPattern]. *)
Record BulletMatch : Type := mkBullet {
  whole : string;            (* match[0] *)
  paramName : string;        (* match[1] *)
  paramType : option string; (* match[2] *)
  paramDesc : option string  (* match[3] *)
}.

(** The class of the bullet, hyphen and asterisk. *)
Definition isBullet (c : ascii) : bool :=
  Ascii.eqb c JS.bullet || Ascii.eqb c "-" || Ascii.eqb c "*".
Definition isQuote (c : ascii) : bool := Ascii.eqb c "`" || Ascii.eqb c "'".
(** The class of the hyphen, en dash and colon. *)
Definition isDashColon (c : ascii) : bool :=
  Ascii.eqb c "-" || Ascii.eqb c JS.enDash || Ascii.eqb c ":".

(** The optional group [(?:\s*\(([^)]+)\))?] at [s]: capture and length. *)
Definition parenGroup (s : string) : option (string * nat) :=
  let (w, r) := Rx.span JS.isSpace s in
  match r with
  | String "(" r1 =>
      let (inner, after) := Rx.span (fun c => negb (Ascii.eqb c ")")) r1 in
      match after with
      | String ")" _ =>
          if JS.truthy inner
          then Some (inner, String.length w + 1 + String.length inner + 1)
          else None
      | _ => None
      end
  | _ => None
  end.

(** The optional group of the description at [s]: white space, a
    hyphen, an en dash or a colon, white space, and the rest of the line.
    Returns the capture and the length. *)
Definition dashGroup (s : string) : option (string * nat) :=
  let (w, r) := Rx.span JS.isSpace s in
  match r with
  | String c r1 =>
      if isDashColon c then
        match Rx.spacesThenLine r1 with
        | Some (d, len) => Some (d, String.length w + 1 + len)
        | None => None
        end
      else None
  | EmptyString => None
  end.

(** [paramDescPattern] at a position: a bullet, a hyphen or an
    asterisk, white space, an optional quote, the captured name, an
    optional quote, an optional parenthesized type and an optional
    description after a hyphen, an en dash or a colon. *)
Definition paramDescAt (prev : option ascii) (s : string)
  : option (BulletMatch * nat) :=
  match s with
  | String b r0 =>
      if isBullet b then
        let (w, r1) := Rx.span JS.isSpace r0 in
        let (q1, r2) := match r1 with
                        | String q r => if isQuote q then (1, r) else (0, r1)
                        | EmptyString => (0, r1)
                        end in
        let (name, r3) := Rx.span JS.isWord r2 in
        if JS.truthy name then
          let (q2, r4) := match r3 with
                          | String q r => if isQuote q then (1, r) else (0, r3)
                          | EmptyString => (0, r3)
                          end in
          let len0 := 1 + String.length w + q1 + String.length name + q2 in
          let '(ty, lenA, r5) :=
            match parenGroup r4 with
            | Some (t, l) => (Some t, l, Rx.drop l r4)
            | None => (None, 0, r4)
            end in
          let '(desc, lenB) :=
            match dashGroup r5 with
            | Some (d, l) => (Some d, l)
            | None => (None, 0)
            end in
          let len := len0 + lenA + lenB in
          Some (mkBullet (Rx.take len s) name ty desc, len)
        else None
      else None
  | EmptyString => None
  end.

Definition paramDescMatches (section : string) : list BulletMatch :=
  Rx.all paramDescAt section.

(** [params.find(p => p.name === paramName)] followed by the assignments
    to the object found: the first parameter of that name is updated in
    place. *)
Fixpoint updateFirst (paramName : string) (f : ParamInfo.t -> ParamInfo.t)
         (params : list ParamInfo.t) : option (list ParamInfo.t) :=
  match params with
  | [] => None
  | p :: rest =>
      if String.eqb (ParamInfo.name p) paramName then Some (f p :: rest)
      else option_map (cons p) (updateFirst paramName f rest)
  end.

(** The assignments made to an existing parameter. *)
Definition enrichExisting (m : BulletMatch) (existing : ParamInfo.t) : ParamInfo.t :=
  let ty := match paramType m with
            | Some t => t
            | None => ParamInfo.type existing
            end in
  let desc := match paramDesc m with
              | Some d => JS.trim d
              | None => ParamInfo.description existing
              end in
  ParamInfo.mk (ParamInfo.name existing) ty desc (ParamInfo.optional existing).

(** One iteration of the loop over the bullet-list matches. *)
Definition enrichStep (params : list ParamInfo.t) (m : BulletMatch) : list ParamInfo.t :=
  match updateFirst (paramName m) (enrichExisting m) params with
  | Some params' => params'
  | None =>
      match paramType m, paramDesc m with
      | None, None => params
      | _, _ =>
          params ++
          [ParamInfo.mk (paramName m)
             (match paramType m with Some t => t | None => "unknown" end)
             (match paramDesc m with Some d => JS.trim d | None => "" end)
             (JS.includes (whole m) "optional" || JS.includes (whole m) "?")]
      end
  end.

Definition parseParams (section signature : string) : list ParamInfo.t :=
  fold_left enrichStep (paramDescMatches section) (signatureParams signature).

(** ** Members *)

(** [section.matchAll(/@(\w+)/g)] collected without repetition, in the
    order of first appearance. *)
Definition decoratorAt (prev : option ascii) (s : string) : option (string * nat) :=
  match s with
  | String "@" r =>
      let (w, _) := Rx.span JS.isWord r in
      if JS.truthy w then Some (w, 1 + String.length w) else None
  | _ => None
  end.

Definition extractDecorators (section : string) : list string :=
  fold_left (fun decorators d =>
               if JS.arrayIncludes decorators d then decorators
               else decorators ++ [d])
            (Rx.all decoratorAt section) [].

(** The expression of [extractCodeExample] at a position: [Example] or
    [example], an optional [s], colons and white space ending in a
    newline, a fence with an optional language tag, and the body. *)
Definition exampleAt (prev : option ascii) (s : string) : option string :=
  match s with
  | String e r0 =>
      if (Ascii.eqb e "E" || Ascii.eqb e "e") && String.prefix "xample" r0 then
        let r1 := Rx.drop 6 r0 in
        let (_, r2) := Rx.optChar (Ascii.eqb "s") r1 in
        let (run, r3) := Rx.span Rx.isColonSpace r2 in
        if JS.endsWith run (String "010" "") && String.prefix "```" r3 then
          option_map fst
            (Rx.codeBody
               (Rx.afterLang ["typescript"; "ts"; "javascript"; "js"] (Rx.drop 3 r3)))
        else None
      else None
  | EmptyString => None
  end.

Definition extractCodeExample (section : string) : option string :=
  option_map JS.trim (Rx.first exampleAt section).

(** The four replacements of [cleanDescription]. *)
Definition linkAt (prev : option ascii) (s : string) : option (string * nat) :=
  match s with
  | String "[" r =>
      let (txt, a) := Rx.span (fun c => negb (Ascii.eqb c "]")) r in
      if JS.truthy txt && String.prefix "](" a then
        let (url, b) := Rx.span (fun c => negb (Ascii.eqb c ")")) (Rx.drop 2 a) in
        if JS.truthy url && Rx.startsWithChar ")" b
        then Some (txt, 1 + String.length txt + 2 + String.length url + 1)
        else None
      else None
  | _ => None
  end.

Definition delimitedAt (delim : string) (stop : ascii)
           (prev : option ascii) (s : string) : option (string * nat) :=
  if String.prefix delim s then
    let (x, a) := Rx.span (fun c => negb (Ascii.eqb c stop))
                          (Rx.drop (String.length delim) s) in
    if JS.truthy x && String.prefix delim a
    then Some (x, String.length x + 2 * String.length delim)
    else None
  else None.

Definition cleanDescription (text : string) : string :=
  JS.trim
    (Rx.replaceAll (delimitedAt "*" "*")
       (Rx.replaceAll (delimitedAt "**" "*")
          (Rx.replaceAll (delimitedAt "`" "`")
             (Rx.replaceAll linkAt text)))).

(** [/(\w+)\s*\(/]: a word followed by an opening parenthesis, white
    space allowed between them. *)
Definition nameBeforeParenAt (prev : option ascii) (s : string) : option string :=
  let (w, r) := Rx.span JS.isWord s in
  if JS.truthy w then
    let (_, r2) := Rx.span JS.isSpace r in
    if Rx.startsWithChar "(" r2 then Some w else None
  else None.

Definition nameBeforeParen (signature : string) : option string :=
  Rx.first nameBeforeParenAt signature.

(** The return type of a signature: the text after the closing
    parenthesis and a colon (white space skipped), as short as possible
    (lazy [.+?]), up to an opening brace or the end of the signature. *)
Definition endOfType (r : string) : bool :=
  match r with
  | EmptyString => true
  | _ => Rx.startsWithChar "{" (snd (Rx.span JS.isSpace r))
  end.

Fixpoint lazyType (t : string) : option string :=
  match t with
  | EmptyString => None
  | String c r =>
      if JS.isLineTerminator c then None
      else if endOfType r then Some (String c "")
      else option_map (String c) (lazyType r)
  end.

Fixpoint typeAfterSpaces (t : string) : option string :=
  match t with
  | EmptyString => None
  | String c r =>
      if JS.isSpace c then
        match typeAfterSpaces r with
        | Some x => Some x
        | None => lazyType t
        end
      else lazyType t
  end.

Definition returnTypeAt (prev : option ascii) (s : string) : option string :=
  if String.prefix "):" s then typeAfterSpaces (Rx.drop 2 s) else None.

Definition parseMemberFromSignature (signature context : string)
  : option MemberInfo.t :=
  match nameBeforeParen signature with
  | None => None
  | Some name =>
      let params := parseParams context signature in
      let returns :=
        option_map (fun ty => Returns.mk (JS.trim ty) "")
                   (Rx.first returnTypeAt signature) in
      Some (MemberInfo.mk
              name
              (if String.eqb name "constructor" then "constructor" else "method")
              signature
              "public"
              (JS.includes signature "static ")
              (JS.includes signature "async " || JS.includes signature "Promise<")
              ""
              params
              returns
              (extractDecorators context)
              None)
  end.

(** The signature block of a member section: a fence with an optional
    language tag and a body. *)
Definition sigBlockAt (prev : option ascii) (s : string) : option string :=
  if String.prefix "```" s then
    option_map fst (Rx.codeBody (Rx.afterLang ["typescript"; "ts"] (Rx.drop 3 s)))
  else None.

(** The description of a member section: 4 or 5 [#], white space, a
    word, white space holding a newline, then a line of two or more
    characters that starts neither with [#] nor with a backquote.  Of the
    lines that qualify inside the white space after the word, the last
    one is taken (the white space is matched greedily). *)
Definition descStartOk (c : ascii) : bool :=
  negb (Ascii.eqb c "#") && negb (Ascii.eqb c "`") && negb (Rx.isNewline c).

Definition notNewline (c : ascii) : bool := negb (Rx.isNewline c).

Fixpoint descCapture (limit : nat) (afterNewline : bool) (t : string) : option string :=
  let here :=
    if afterNewline then
      match t with
      | String c1 (String c2 _) =>
          if descStartOk c1 && notNewline c2
          then Some (fst (Rx.span notNewline t))
          else None
      | _ => None
      end
    else None in
  match limit, t with
  | S l, String c r =>
      match descCapture l (Rx.isNewline c) r with
      | Some x => Some x
      | None => here
      end
  | _, _ => here
  end.

Definition memberDescAt (prev : option ascii) (s : string) : option string :=
  let (hashes, r) := Rx.span (Ascii.eqb "#") s in
  if (String.length hashes =? 4) || (String.length hashes =? 5) then
    let (w, r2) := Rx.span JS.isSpace r in
    let (name, t) := Rx.span JS.isWord r2 in
    if JS.truthy w && JS.truthy name then
      descCapture (String.length (fst (Rx.span JS.isSpace t))) false t
    else None
  else None.

(** The expression of the return description at a position:
    [return] or [returns] in any case, colons and white space, an
    optional backquote or bracket, the type (characters other than
    backquote, closing bracket and newline), an optional closing
    backquote or bracket, and optionally a hyphen or an en dash and a
    description.
    (The alternative [return type] of the source can never be reached:
    wherever it would match, the alternative [Returns?] matches first.) *)
Definition isTypeChar (c : ascii) : bool :=
  negb (Ascii.eqb c "`") && negb (Ascii.eqb c "]") && negb (Rx.isNewline c).

(** The largest [m] with [minRun <= m < length w] such that the type can
    start on the character [m] of the run [w]. *)
Fixpoint lastTypeStart (minRun : nat) (w : string) : option nat :=
  match w with
  | EmptyString => None
  | String c rest =>
      match lastTypeStart (minRun - 1) rest with
      | Some i => Some (S i)
      | None => if isTypeChar c && (minRun =? 0) then Some 0 else None
      end
  end.

Definition returnsDash (s : string) : option string :=
  let (_, r) := Rx.span JS.isSpace s in
  match r with
  | String c r1 =>
      if Ascii.eqb c "-" || Ascii.eqb c JS.enDash
      then option_map fst (Rx.spacesThenLine r1) else None
  | EmptyString => None
  end.

Definition returnsTail (t : string) : Returns.t :=
  let (ty, r) := Rx.span isTypeChar t in
  let (_, r2) := Rx.optChar (fun c => Ascii.eqb c "`" || Ascii.eqb c "]") r in
  Returns.mk (JS.trim ty)
             (match returnsDash r2 with Some d => d | None => "" end).

Definition returnsAt (prev : option ascii) (s : string) : option Returns.t :=
  if Rx.iprefix "return" s then
    let (_, r1) := Rx.optChar (fun c => Ascii.eqb (JS.lowerChar c) "s") (Rx.drop 6 s) in
    let (run, r2) := Rx.span Rx.isColonSpace r1 in
    if JS.truthy run then
      let (q, r3) := Rx.optChar (fun c => Ascii.eqb c "`" || Ascii.eqb c "[") r2 in
      if JS.truthy (fst (Rx.span isTypeChar r3)) then Some (returnsTail r3)
      else if JS.truthy (fst (Rx.span isTypeChar r2)) then Some (returnsTail r2)
      else
        match lastTypeStart 1 run with
        | Some m => Some (returnsTail (Rx.drop m r1))
        | None => None
        end
    else None
  else None.

Definition parseMemberSection (name section : string) : option MemberInfo.t :=
  let signature :=
    match Rx.first sigBlockAt section with
    | Some body => hd "" (JS.splitChar "010" (JS.trim body))
    | None => ""
    end in
  let type :=
    if String.eqb name "constructor" || String.eqb name "new" then "constructor"
    else if negb (JS.includes signature "(") &&
            negb (JS.includes (JS.toLowerCase section) "method") then "property"
    else if JS.includes section "get " || JS.includes section "set " then "accessor"
    else "method" in
  let description :=
    match Rx.first memberDescAt section with
    | Some d => cleanDescription d
    | None => ""
    end in
  let visibility :=
    if JS.includes signature "protected " || JS.includes section "protected"
    then "protected"
    else if JS.includes signature "private " || JS.includes section "private"
    then "private"
    else "public" in
  Some (MemberInfo.mk
          name
          type
          signature
          visibility
          (JS.includes signature "static " || JS.includes section "static")
          (JS.includes signature "async " || JS.includes signature "Promise<")
          description
          (parseParams section signature)
          (Rx.first returnsAt section)
          (extractDecorators section)
          (extractCodeExample section)).

(** A match of [memberPattern], "^#{4,5}\s+(\w+)" with flags [gm]: the
    name, the length of the match and the section from the match on. *)
Definition memberHeadingAt (prev : option ascii) (s : string)
  : option ((string * nat * string) * nat) :=
  if Rx.atLineStart prev then
    let (hashes, r) := Rx.span (Ascii.eqb "#") s in
    if (String.length hashes =? 4) || (String.length hashes =? 5) then
      let (w, r2) := Rx.span JS.isSpace r in
      let (name, _) := Rx.span JS.isWord r2 in
      if JS.truthy w && JS.truthy name then
        let len := String.length hashes + String.length w + String.length name in
        Some ((name, len, s), len)
      else None
    else None
  else None.

(** ["^#{1,5}\s"] with flag [m]: the next heading of depth 5 or less. *)
Definition nextHeadingAt (prev : option ascii) (s : string) : option unit :=
  if Rx.atLineStart prev then
    let (hashes, r) := Rx.span (Ascii.eqb "#") s in
    if (1 <=? String.length hashes) && (String.length hashes <=? 5) then
      match r with
      | String c _ => if JS.isSpace c then Some tt else None
      | EmptyString => None
      end
    else None
  else None.

Definition structuralLabels : list string :=
  ["Constructor"; "Methods"; "Properties"; "Accessors"; "Parameters"; "Returns"].

Definition memberSectionOf (len : nat) (afterMatch : string) : string :=
  match Rx.firstFrom nextHeadingAt 0 None (Rx.drop len afterMatch) with
  | Some (_, S k) => Rx.take (len + S k) afterMatch
  | _ => afterMatch
  end.

(** First loop of [parseMembers]: the member headings. *)
Definition headingMembers (section : string) : list MemberInfo.t :=
  fold_left
    (fun members '(memberName, len, afterMatch) =>
       if JS.arrayIncludes structuralLabels memberName then members
       else match parseMemberSection memberName (memberSectionOf len afterMatch) with
            | Some member => members ++ [member]
            | None => members
            end)
    (Rx.all memberHeadingAt section) [].

Definition modifiers : list string :=
  ["public"; "private"; "protected"; "static"; "async"].

(** The start of a signature: modifier words, each followed by white
    space, then a word, optional white space and an opening parenthesis.
    Returns the text after the parenthesis.  [fuel] bounds the number of
    words. *)
Fixpoint signatureHead (fuel : nat) (g : string) : option string :=
  match fuel with
  | O => None
  | S fuel' =>
      let (w, r) := Rx.span JS.isWord g in
      if JS.truthy w then
        let (ws, r2) := Rx.span JS.isSpace r in
        match r2 with
        | String "(" r3 => Some r3
        | _ => if JS.arrayIncludes modifiers w && JS.truthy ws
               then signatureHead fuel' r2 else None
        end
      else None
  end.

(** [sigPattern] at a position: a fence with an optional language tag,
    white space ending in a newline, a signature (its head, the
    arguments up to the first closing parenthesis, then anything but a
    backquote), a newline and the closing fence.  Returns [match[1]] and
    the section from the match on, with the length of the match. *)
Definition sigPatternAt (prev : option ascii) (s : string)
  : option ((string * string) * nat) :=
  if String.prefix "```" s then
    let t := Rx.afterLang ["typescript"; "ts"] (Rx.drop 3 s) in
    let (w, g) := Rx.span JS.isSpace t in
    if JS.endsWith w (String "010" "") then
      match signatureHead (S (String.length g)) g with
      | Some afterParen =>
          let (_, a) := Rx.span (fun c => negb (Ascii.eqb c ")")) afterParen in
          match a with
          | String ")" a' =>
              let (y, tail) := Rx.span Rx.notBacktick a' in
              if JS.endsWith y (String "010" "") && String.prefix "```" tail then
                let lenG := String.length g - String.length tail - 1 in
                Some ((Rx.take lenG g, s),
                      String.length s - String.length tail + 3)
              else None
          | _ => None
          end
      | None => None
      end
    else None
  else None.

(** Body of the second loop of [parseMembers], for one match of
    [sigPattern] ([match[1]] and the section from the match on). *)
Definition signatureStep (members : list MemberInfo.t) (found : string * string)
  : list MemberInfo.t :=
  let signature := JS.trim (fst found) in
  match nameBeforeParen signature with
  | Some n =>
      if existsb (fun m => String.eqb (MemberInfo.name m) n) members
      then members
      else match parseMemberFromSignature signature (snd found) with
           | Some member => members ++ [member]
           | None => members
           end
  | None => members
  end.

(** Second loop of [parseMembers]: the signatures in code blocks. *)
Definition signatureMembers (section : string) (members : list MemberInfo.t)
  : list MemberInfo.t :=
  fold_left signatureStep (Rx.all sigPatternAt section) members.

Definition parseMembers (section : string) : list MemberInfo.t :=
  signatureMembers section (headingMembers section).

(** ** Declarations *)

(** The loop that collects the description lines: the lines after the
    first, up to the first one that starts a heading or a code fence. *)
Fixpoint descLinesOf (lines : list string) : list string :=
  match lines with
  | [] => []
  | l :: rest =>
      if JS.startsWith l "#" || JS.startsWith l "```" then []
      else
        let line := JS.trim l in
        if JS.truthy line && negb (JS.startsWith line "|") && negb (JS.startsWith line "-")
        then line :: descLinesOf rest
        else descLinesOf rest
  end.

(** The expression of the extends clause at a position: [extends] in any
    case, colons and white space, an optional backquote or bracket, and
    the captured word. *)
Definition extendsAt (prev : option ascii) (s : string) : option string :=
  if Rx.iprefix "extends" s then
    let (run, r2) := Rx.span Rx.isColonSpace (Rx.drop 7 s) in
    if JS.truthy run then
      let (_, r3) := Rx.optChar (fun c => Ascii.eqb c "`" || Ascii.eqb c "[") r2 in
      let (w, _) := Rx.span JS.isWord r3 in
      if JS.truthy w then Some w else None
    else None
  else None.

(** The expression of the implements clause at a position: [implements]
    in any case, colons and white space, and the rest of the line. *)
Definition implementsAt (prev : option ascii) (s : string) : option string :=
  if Rx.iprefix "implements" s then
    option_map fst (Rx.runThenLine Rx.isColonSpace 1 (Rx.drop 10 s))
  else None.

(** [s.replace(/[`\[\]]/g, '')] *)
Fixpoint stripMarkup (s : string) : string :=
  match s with
  | EmptyString => EmptyString
  | String c rest =>
      if Ascii.eqb c "`" || Ascii.eqb c "[" || Ascii.eqb c "]"
      then stripMarkup rest else String c (stripMarkup rest)
  end.

Definition skipNames : list string :=
  ["Classes"; "Interfaces"; "Type"; "Enumerations"; "Functions";
   "Variables"; "References"; "Exports"].

Definition parseClassSection (name section pkg filePath sourceUrl : string)
  : option ClassInfo.t :=
  if JS.arrayIncludes skipNames name then None
  else
    let lines := JS.splitChar "010" section in
    let descLines := descLinesOf (tl lines) in
    let lower := JS.toLowerCase section in
    let type :=
      if JS.includes lower "interface" || JS.startsWith name "I" then "interface"
      else if JS.includes lower "type alias" then "type"
      else if JS.includes lower "enumeration" || JS.endsWith name "Enum" then "enum"
      else if JS.includes lower "function" then "function"
      else "class" in
    let extendsClause := Rx.first extendsAt section in
    let implementsClause :=
      match Rx.first implementsAt section with
      | Some list =>
          filter (fun x => 0 <? String.length x)
                 (map (fun x => stripMarkup (JS.trim x)) (JS.splitChar "," list))
      | None => []
      end in
    Some (ClassInfo.mk
            name
            pkg
            type
            (cleanDescription (JS.join " " descLines))
            extendsClause
            implementsClause
            (extractDecorators section)
            (parseMembers section)
            filePath
            sourceUrl).

Definition detectPackageFromPath (filePath : string) : string :=
  if JS.includes filePath "chain-api-docs" then "chain-api"
  else if JS.includes filePath "chain-client-docs" then "chain-client"
  else if JS.includes filePath "chain-test-docs" then "chain-test"
  else if JS.includes filePath "chaincode-docs" then "chaincode"
  else "unknown".

Definition getSourceUrl (filePath pkg : string) : string :=
  match Guide.sdkRelative filePath with
  | Some rel => "https://github.com/GalaChain/sdk/blob/main/" ^^ Guide.backslashToSlash rel
  | None => "https://docs.galachain.com/latest/" ^^ pkg ^^ "-docs/"
  end.

Definition structuralHeaders : list string :=
  ["Classes"; "Interfaces"; "Type Aliases"; "Enumerations"; "Functions"].

(** The separator of the top-level pass: [## ] at the start of a line,
    not followed by one of the structural headers. *)
Definition topLevelMarkerAt (prev : option ascii) (s : string) : option nat :=
  if Rx.atLineStart prev && String.prefix "## " s &&
     negb (existsb (fun h => String.prefix h (Rx.drop 3 s)) structuralHeaders)
  then Some 3 else None.

(** The separator of the nested pass: [### ] at the start of a line, not
    followed by white space. *)
Definition nestedMarkerAt (prev : option ascii) (s : string) : option nat :=
  if Rx.atLineStart prev && String.prefix "### " s &&
     negb (match Rx.drop 4 s with
           | String c _ => JS.isSpace c
           | EmptyString => false
           end)
  then Some 4 else None.

(** The name on the first line of a section: an optional opening
    bracket, then the captured word. *)
Definition classNameOf (firstLine : string) : option string :=
  let (_, r) := Rx.optChar (Ascii.eqb "[") firstLine in
  let (w, _) := Rx.span JS.isWord r in
  if JS.truthy w then Some w else None.

Definition firstLineOf (section : string) : string :=
  JS.trim (hd "" (JS.splitChar "010" section)).

(** Body of the first loop (sections of the top-level pass). *)
Definition topLevelStep (pkg filePath sourceUrl : string)
           (classes : list ClassInfo.t) (section : string) : list ClassInfo.t :=
  let firstLine := firstLineOf section in
  if negb (JS.truthy firstLine) || JS.startsWith firstLine "#" then classes
  else
    match classNameOf firstLine with
    | None => classes
    | Some className =>
        match parseClassSection className section pkg filePath sourceUrl with
        | Some classInfo => classes ++ [classInfo]
        | None => classes
        end
    end.

(** Body of the second loop (sections of the nested pass). *)
Definition nestedStep (pkg filePath sourceUrl : string)
           (classes : list ClassInfo.t) (section : string) : list ClassInfo.t :=
  let firstLine := firstLineOf section in
  if negb (JS.truthy firstLine) then classes
  else
    match classNameOf firstLine with
    | None => classes
    | Some className =>
        if existsb (fun c => String.eqb (ClassInfo.name c) className) classes
        then classes
        else
          match parseClassSection className section pkg filePath sourceUrl with
          | Some classInfo => classes ++ [classInfo]
          | None => classes
          end
    end.

(** The declarations collected by the first loop. *)
Definition topLevelPass (content filePath : string) : list ClassInfo.t :=
  let pkg := detectPackageFromPath filePath in
  let sourceUrl := getSourceUrl filePath pkg in
  let classSections := Rx.split topLevelMarkerAt content in
  fold_left (topLevelStep pkg filePath sourceUrl) (tl classSections) [].

Definition parseTypedocMarkdown (content filePath : string) : list ClassInfo.t :=
  let pkg := detectPackageFromPath filePath in
  let sourceUrl := getSourceUrl filePath pkg in
  let classes := topLevelPass content filePath in
  let nestedSections := Rx.split nestedMarkerAt content in
  fold_left (nestedStep pkg filePath sourceUrl) (tl nestedSections) classes.

(** ** The groups that the loop of [splitParams] cuts *)

(** The pieces of [s] between the commas at which the counter of the
    loop is 0; the counter starts from [d], goes up at an opening bracket
    and down at a closing bracket (below 0 when nothing is open). *)
Fixpoint groupsFrom (d : Z) (s : string) : list string :=
  match s with
  | EmptyString => [EmptyString]
  | String c rest =>
      if isOpener c then
        match groupsFrom (d + 1) rest with
        | [] => [String c ""]
        | g :: gs => String c g :: gs
        end
      else if isCloser c then
        match groupsFrom (d - 1) rest with
        | [] => [String c ""]
        | g :: gs => String c g :: gs
        end
      else if Ascii.eqb c "," && (d =? 0)%Z then
        EmptyString :: groupsFrom d rest
      else
        match groupsFrom d rest with
        | [] => [String c ""]
        | g :: gs => String c g :: gs
        end
  end.

Definition loopGroups (args : string) : list string := groupsFrom 0%Z args.

(** ** Top-level argument groups, as the specification words them *)

(** The groups of [s] separated by the commas that are not nested inside
    brackets; [open] is the number of brackets that are open at the
    start.  A closing bracket closes a bracket when one is open. *)
Fixpoint nestedGroups (open : nat) (s : string) : list string :=
  match s with
  | EmptyString => [EmptyString]
  | String c rest =>
      if Ascii.eqb c "," && (open =? 0) then EmptyString :: nestedGroups open rest
      else
        let open' :=
          if isOpener c then S open
          else if isCloser c then Nat.pred open
          else open in
        match nestedGroups open' rest with
        | [] => [String c ""]
        | g :: gs => String c g :: gs
        end
  end.

Definition topLevelGroups (args : string) : list string := nestedGroups 0 args.

(** Every closing bracket of [s] closes a bracket that is open. *)
Fixpoint closersMatched (open : nat) (s : string) : bool :=
  match s with
  | EmptyString => true
  | String c rest =>
      if isOpener c then closersMatched (S open) rest
      else if isCloser c then
        match open with
        | O => false
        | S k => closersMatched k rest
        end
      else closersMatched open rest
  end.

(** A group of the form [name?: Type], white space around the group and
    before the type aside: a name, an optional question mark, a colon and
    a type on one line.  Gives the parameter that the group declares. *)
Definition typedGroup (group : string) : option ParamInfo.t :=
  let (name, r1) := Rx.span JS.isWord (JS.trim group) in
  let (optional, r2) := match r1 with
                        | String "?" r => (true, r)
                        | _ => (false, r1)
                        end in
  match r2 with
  | String ":" type =>
      if JS.truthy name && JS.truthy (JS.trim type) && Guide.noLineTerminator type
      then Some (ParamInfo.mk name (JS.trim type) "" optional)
      else None
  | _ => None
  end.

Definition isTyped (group : string) : bool :=
  match typedGroup group with Some _ => true | None => false end.

(** A group without colon, such as a bare name. *)
Definition noColon (group : string) : bool :=
  forallb (fun c => negb (Ascii.eqb c ":")) (list_ascii_of_string group).

(** The parameters that an argument text declares: one for each
    top-level group of the form [name?: Type], in order. *)
Definition declaredParams (args : string) : list ParamInfo.t :=
  flat_map (fun g => match typedGroup g with Some p => [p] | None => [] end)
           (topLevelGroups args).

(** ** Sections with a signature block, for the statement on the
    parameters *)

Definition newline : string := String "010" "".

(** A member heading on a line of its own, followed by an empty line. *)
Definition memberHeading (hashes name : string) : string :=
  newline ^^ hashes ^^ " " ^^ name ^^ newline ^^ newline.

(** A signature line: a name, the arguments between parentheses, and
    what follows them on the line. *)
Definition signatureLine (name args post : string) : string :=
  name ^^ "(" ^^ args ^^ ")" ^^ post.

(** A fenced code block that holds one line. *)
Definition signatureBlock (lang line : string) : string :=
  "```" ^^ lang ^^ newline ^^ line ^^ newline ^^ "```".

Definition notHash (c : ascii) : bool := negb (Ascii.eqb c "#").

(** A text without [#] and without backquote: it starts no heading and
    no fence. *)
Definition isMark (c : ascii) : bool := Ascii.eqb c "#" || Ascii.eqb c "`".

Definition unmarked (s : string) : bool :=
  forallb (fun c => negb (isMark c)) (list_ascii_of_string s).

(** A text that, moreover, starts no bullet-list line: without bullet,
    hyphen and asterisk. *)
Definition quiet (s : string) : bool :=
  forallb (fun c => negb (isMark c) && negb (isBullet c)) (list_ascii_of_string s).

(** A string made of word characters only. *)
Definition isWordString (s : string) : bool :=
  forallb JS.isWord (list_ascii_of_string s).

(** A string without closing parenthesis. *)
Definition noClosingParen (s : string) : bool :=
  forallb (fun c => negb (Ascii.eqb c ")")) (list_ascii_of_string s).

(** The property of member extraction as the specification states it,
    for a section holding the signature [name(args)]: a member of that
    name with one parameter for each top-level group of [args]. *)
Definition paramsAsSpecified (section name args : string) : Prop :=
  exists m, In m (parseMembers section) /\
            MemberInfo.name m = name /\
            List.length (MemberInfo.params m) = List.length (topLevelGroups args).

(** The property of the bullet-list pass as the specification states it:
    a type or a description that the signature gave is still there
    afterwards. *)
Definition neverOverwritten (section signature : string) : Prop :=
  forall i p q,
    nth_error (signatureParams signature) i = Some p ->
    nth_error (parseParams section signature) i = Some q ->
    (JS.truthy (ParamInfo.type p) = true -> ParamInfo.type q = ParamInfo.type p) /\
    (JS.truthy (ParamInfo.description p) = true ->
     ParamInfo.description q = ParamInfo.description p).

(** The type of a parameter named [n] after the bullet-list matches
    [ms], starting from the type [t]: each match of that name that
    carries a parenthesized type replaces it. *)
Definition typeAfter (n : string) (ms : list BulletMatch) (t : string) : string :=
  fold_left (fun t m =>
               if String.eqb (paramName m) n
               then match paramType m with Some t' => t' | None => t end
               else t)
            ms t.

(** Likewise for the description. *)
Definition descriptionAfter (n : string) (ms : list BulletMatch) (d : string) : string :=
  fold_left (fun d m =>
               if String.eqb (paramName m) n
               then match paramDesc m with Some d' => JS.trim d' | None => d end
               else d)
            ms d.

(** No parameter before position [i] has the name [n]. *)
Definition firstOfName (n : string) (i : nat) (params : list ParamInfo.t) : Prop :=
  forall j p, j < i -> nth_error params j = Some p -> ParamInfo.name p <> n.

(** The groups with their first one prefixed by the text already read. *)
Definition prependTo (cur : string) (groups : list string) : list string :=
  match groups with
  | [] => [cur]
  | g :: gs => (cur ^^ g) :: gs
  end.

(** ** Predicates of the statements about the reference parser *)

(** The characters that start one of the four patterns of
    [cleanDescription]. *)
Definition isMarkup (c : ascii) : bool :=
  Ascii.eqb c "[" || Ascii.eqb c "`" || Ascii.eqb c "*".

(** A text without markdown markup. *)
Definition plainText (s : string) : bool :=
  forallb (fun c => negb (isMarkup c)) (list_ascii_of_string s).

(** The number of commas of a string. *)
Definition commas (s : string) : nat :=
  List.length (filter (Ascii.eqb ",") (list_ascii_of_string s)).

Definition isBracket (c : ascii) : bool := isOpener c || isCloser c.

Definition noBracket (s : string) : bool :=
  forallb (fun c => negb (isBracket c)) (list_ascii_of_string s).

(** A string without bracket and without comma. *)
Definition noSeparator (s : string) : bool :=
  forallb (fun c => negb (isBracket c || Ascii.eqb c ",")) (list_ascii_of_string s).

(** A text without a character that starts a bullet-list line: no
    bullet, no hyphen and no asterisk. *)
Definition noBullet (s : string) : bool :=
  forallb (fun c => negb (isBullet c)) (list_ascii_of_string s).

(** The values of the union types of types.ts. *)
Definition declarationKinds : list string :=
  ["class"; "interface"; "type"; "enum"; "function"].

Definition memberKinds : list string :=
  ["method"; "property"; "constructor"; "accessor"].

Definition visibilities : list string := ["public"; "protected"; "private"].

(** A non-empty run of word characters. *)
Definition isIdentifier (s : string) : Prop :=
  JS.truthy s = true /\ isWordString s = true.

(** What holds of every declaration that the parser returns for a file. *)
Definition wellFormedDeclaration (filePath : string) (c : ClassInfo.t) : Prop :=
  isIdentifier (ClassInfo.name c) /\
  ~ In (ClassInfo.name c) skipNames /\
  In (ClassInfo.type c) declarationKinds /\
  ClassInfo.package c = detectPackageFromPath filePath /\
  ClassInfo.filePath c = filePath /\
  ClassInfo.sourceUrl c = getSourceUrl filePath (detectPackageFromPath filePath).

(** What holds of every member that the parser returns. *)
Definition wellFormedMember (m : MemberInfo.t) : Prop :=
  isIdentifier (MemberInfo.name m) /\
  In (MemberInfo.type m) memberKinds /\
  In (MemberInfo.visibility m) visibilities.

(** A text without backquote and without square bracket: what
    [replace(/[`\[\]]/g, '')] leaves. *)
Definition noQuoteMarkup (s : string) : bool :=
  forallb (fun c => negb (Ascii.eqb c "`" || Ascii.eqb c "[" || Ascii.eqb c "]"))
          (list_ascii_of_string s).

(** What holds of the texts of every declaration that the parser
    returns. *)
Definition cleanDeclaration (c : ClassInfo.t) : Prop :=
  JS.trim (ClassInfo.description c) = ClassInfo.description c /\
  (forall parent, ClassInfo.extendsClause c = Some parent -> isIdentifier parent) /\
  Forall (fun i => JS.truthy i = true /\ noQuoteMarkup i = true)
         (ClassInfo.implementsClause c).

Definition githubBlob : string := "https://github.com/GalaChain/sdk/blob/main/".

End Typedoc.

(* ================================================================== *)
(** * JSON text ([JSON.stringify], [JSON.parse]) *)
(* ================================================================== *)

(** The values stored as JSON text are arrays of strings, arrays of
    parameter objects and return objects: strings, booleans, [null],
    arrays and objects.  Number literals are not represented: [parse]
    rejects a text that holds one, and none of the conversions below
    could convert it. *)

Module JSON.

Inductive value : Type :=
| Null
| Bool (b : bool)
| Str (s : string)
| Arr (items : list value)
| Obj (fields : list (string * value)).

Definition dquote : ascii := "034"%char.
Definition backslash : ascii := "\"%char.

Definition hexDigit (n : nat) : ascii :=
  nth n (list_ascii_of_string "0123456789abcdef") "0"%char.

(** The text written for one character of a string. *)
Definition quoteChar (c : ascii) : string :=
  let n := JS.code c in
  if n =? 34 then String backslash (String dquote "")
  else if n =? 92 then String backslash (String backslash "")
  else if n =? 8 then String backslash "b"
  else if n =? 12 then String backslash "f"
  else if n =? 10 then String backslash "n"
  else if n =? 13 then String backslash "r"
  else if n =? 9 then String backslash "t"
  else if n <? 32 then
    String backslash
      (String "u" (String "0" (String "0"
         (String (hexDigit (n / 16)) (String (hexDigit (n mod 16)) "")))))
  else String c "".

Fixpoint quoteBody (s : string) : string :=
  match s with
  | EmptyString => EmptyString
  | String c rest => quoteChar c ^^ quoteBody rest
  end.

Definition quote (s : string) : string :=
  String dquote (quoteBody s ^^ String dquote "").

(** [JSON.stringify] *)
Fixpoint stringify (v : value) : string :=
  match v with
  | Null => "null"
  | Bool true => "true"
  | Bool false => "false"
  | Str s => quote s
  | Arr items => "[" ^^ JS.join "," (map stringify items) ^^ "]"
  | Obj fields =>
      "{" ^^ JS.join "," (map (fun kv => quote (fst kv) ^^ ":" ^^ stringify (snd kv)) fields)
          ^^ "}"
  end.

(** The parser reads the text character by character.  The stack holds
    the arrays and objects that are open. *)
Inductive frame : Type :=
| InArr (done : list value)
| InObj (done : list (string * value)) (key : option string).

Inductive mode : Type :=
| ExpectValue (allowClose : bool)
| ExpectKey (allowClose : bool)
| ExpectColon
| InStr (isKey : bool) (acc : string)
| InEsc (isKey : bool) (acc : string)
| InHex (isKey : bool) (acc : string) (digits : list nat)
| InLit (rest : string) (v : value)
| AfterValue
| Finished (v : value).

Definition state : Type := mode * list frame.

(** A value is complete: it goes into the container on top of the stack. *)
Definition complete (v : value) (stack : list frame) : option state :=
  match stack with
  | [] => Some (Finished v, [])
  | InArr done :: st => Some (AfterValue, InArr (done ++ [v]) :: st)
  | InObj done (Some k) :: st => Some (AfterValue, InObj (done ++ [(k, v)]) None :: st)
  | InObj _ None :: _ => None
  end.

Definition closeArray (stack : list frame) : option state :=
  match stack with
  | InArr done :: st => complete (Arr done) st
  | _ => None
  end.

Definition closeObject (stack : list frame) : option state :=
  match stack with
  | InObj done None :: st => complete (Obj done) st
  | _ => None
  end.

Definition isJsonSpace (c : ascii) : bool :=
  let n := JS.code c in (n =? 32) || (n =? 9) || (n =? 10) || (n =? 13).

Definition hexValue (c : ascii) : option nat :=
  let n := JS.code c in
  if (48 <=? n) && (n <=? 57) then Some (n - 48)
  else if (97 <=? n) && (n <=? 102) then Some (n - 87)
  else if (65 <=? n) && (n <=? 70) then Some (n - 55)
  else None.

Definition endString (isKey : bool) (acc : string) (stack : list frame) : option state :=
  if isKey then
    match stack with
    | InObj done None :: st => Some (ExpectColon, InObj done (Some acc) :: st)
    | _ => None
    end
  else complete (Str acc) stack.

Definition unescape (c : ascii) : option ascii :=
  let n := JS.code c in
  if n =? 34 then Some dquote
  else if n =? 92 then Some backslash
  else if n =? 47 then Some "/"%char
  else if n =? 98 then Some "008"%char
  else if n =? 102 then Some "012"%char
  else if n =? 110 then Some "010"%char
  else if n =? 114 then Some "013"%char
  else if n =? 116 then Some "009"%char
  else None.

Definition step (st : state) (c : ascii) : option state :=
  let (m, stack) := st in
  match m with
  | ExpectValue allowClose =>
      if isJsonSpace c then Some st
      else if Ascii.eqb c dquote then Some (InStr false "", stack)
      else if Ascii.eqb c "[" then Some (ExpectValue true, InArr [] :: stack)
      else if Ascii.eqb c "{" then Some (ExpectKey true, InObj [] None :: stack)
      else if Ascii.eqb c "]" && allowClose then closeArray stack
      else if Ascii.eqb c "t" then Some (InLit "rue" (Bool true), stack)
      else if Ascii.eqb c "f" then Some (InLit "alse" (Bool false), stack)
      else if Ascii.eqb c "n" then Some (InLit "ull" Null, stack)
      else None
  | ExpectKey allowClose =>
      if isJsonSpace c then Some st
      else if Ascii.eqb c dquote then Some (InStr true "", stack)
      else if Ascii.eqb c "}" && allowClose then closeObject stack
      else None
  | ExpectColon =>
      if isJsonSpace c then Some st
      else if Ascii.eqb c ":" then Some (ExpectValue false, stack)
      else None
  | InStr isKey acc =>
      if Ascii.eqb c dquote then endString isKey acc stack
      else if Ascii.eqb c backslash then Some (InEsc isKey acc, stack)
      else if JS.code c <? 32 then None
      else Some (InStr isKey (acc ^^ String c ""), stack)
  | InEsc isKey acc =>
      if Ascii.eqb c "u" then Some (InHex isKey acc [], stack)
      else match unescape c with
           | Some d => Some (InStr isKey (acc ^^ String d ""), stack)
           | None => None
           end
  | InHex isKey acc digits =>
      match hexValue c with
      | None => None
      | Some d =>
          match digits with
          | [d1; d2; d3] =>
              let n := ((d1 * 16 + d2) * 16 + d3) * 16 + d in
              if n <? 256
              then Some (InStr isKey (acc ^^ String (ascii_of_nat n) ""), stack)
              else None
          | _ => Some (InHex isKey acc (digits ++ [d]), stack)
          end
      end
  | InLit rest v =>
      match rest with
      | String r rest' =>
          if Ascii.eqb c r then
            match rest' with
            | EmptyString => complete v stack
            | _ => Some (InLit rest' v, stack)
            end
          else None
      | EmptyString => None
      end
  | AfterValue =>
      if isJsonSpace c then Some st
      else if Ascii.eqb c "," then
        match stack with
        | InArr _ :: _ => Some (ExpectValue false, stack)
        | InObj _ None :: _ => Some (ExpectKey false, stack)
        | _ => None
        end
      else if Ascii.eqb c "]" then closeArray stack
      else if Ascii.eqb c "}" then closeObject stack
      else None
  | Finished _ => if isJsonSpace c then Some st else None
  end.

Fixpoint run (st : state) (s : string) : option state :=
  match s with
  | EmptyString => Some st
  | String c rest =>
      match step st c with
      | Some st' => run st' rest
      | None => None
      end
  end.

(** [JSON.parse]; [None] stands for the exception. *)
Definition parse (s : string) : option value :=
  match run (ExpectValue false, []) s with
  | Some (Finished v, _) => Some v
  | _ => None
  end.

(** ** The typed values kept in the store *)

Definition ofStrings (l : list string) : value := Arr (map Str l).

Fixpoint allStrings (items : list value) : option (list string) :=
  match items with
  | [] => Some []
  | Str s :: rest => option_map (cons s) (allStrings rest)
  | _ :: _ => None
  end.

Definition toStrings (v : value) : option (list string) :=
  match v with
  | Arr items => allStrings items
  | _ => None
  end.

(** Property lookup: with duplicate keys the last one counts. *)
Fixpoint field (k : string) (fields : list (string * value)) : option value :=
  match fields with
  | [] => None
  | (k', v) :: rest =>
      match field k rest with
      | Some v' => Some v'
      | None => if String.eqb k k' then Some v else None
      end
  end.

Definition ofParam (p : ParamInfo.t) : value :=
  Obj [("name", Str (ParamInfo.name p));
       ("type", Str (ParamInfo.type p));
       ("description", Str (ParamInfo.description p));
       ("optional", Bool (ParamInfo.optional p))].

Definition toParam (v : value) : option ParamInfo.t :=
  match v with
  | Obj fields =>
      match field "name" fields, field "type" fields,
            field "description" fields, field "optional" fields with
      | Some (Str n), Some (Str t), Some (Str d), Some (Bool o) =>
          Some (ParamInfo.mk n t d o)
      | _, _, _, _ => None
      end
  | _ => None
  end.

Fixpoint allParams (items : list value) : option (list ParamInfo.t) :=
  match items with
  | [] => Some []
  | v :: rest =>
      match toParam v, allParams rest with
      | Some p, Some ps => Some (p :: ps)
      | _, _ => None
      end
  end.

Definition toParams (v : value) : option (list ParamInfo.t) :=
  match v with
  | Arr items => allParams items
  | _ => None
  end.

Definition ofReturns (r : Returns.t) : value :=
  Obj [("type", Str (Returns.type r)); ("description", Str (Returns.description r))].

Definition toReturns (v : value) : option Returns.t :=
  match v with
  | Obj fields =>
      match field "type" fields, field "description" fields with
      | Some (Str t), Some (Str d) => Some (Returns.mk t d)
      | _, _ => None
      end
  | _ => None
  end.

(** ** Reading back what was written *)

(** Reading the text written for [v], wherever a value is expected,
    completes the value [v]. *)
Definition readsBack (v : value) : Prop :=
  forall allowClose stack t,
    run (ExpectValue allowClose, stack) (stringify v ^^ t) =
    match complete v stack with
    | Some st => run st t
    | None => None
    end.

(** The text written for one property of an object. *)
Definition fieldText (kv : string * value) : string :=
  quote (fst kv) ^^ ":" ^^ stringify (snd kv).

End JSON.

(* ================================================================== *)
(** * The store (db/schema.ts, db/wrapper.ts, indexer/build-index.ts) *)
(* ================================================================== *)

(** A table is the list of its rows in the order of their row ids, which
    is the order of insertion.  Columns that the schema allows to be NULL
    are options.  A query without ORDER BY returns the rows that satisfy
    its WHERE clause in table order, a join returns them in the order of
    the table named first; [all] is this list and [get] its head. *)

Module DocRow.
Record t : Type := mk {
  id : nat;
  package : string;
  category : string;
  title : string;
  content : string;
  heading_level : option nat;
  source_url : option string;
  file_path : option string;
  search_text : option string
}.
End DocRow.

Module ClassRow.
Record t : Type := mk {
  id : nat;
  package : string;
  name : string;
  type : string;
  description : option string;
  extends_clause : option string;
  implements_clause : option string;
  decorators : option string;
  source_url : option string;
  file_path : option string;
  search_text : option string
}.
End ClassRow.

Module MemberRow.
Record t : Type := mk {
  id : nat;
  class_id : option nat;
  name : string;
  type : string;
  signature : option string;
  visibility : option string;
  is_static : option nat;
  is_async : option nat;
  description : option string;
  params : option string;
  returns : option string;
  decorators : option string;
  example_code : option string;
  search_text : option string
}.
End MemberRow.

Module Store.

Record t : Type := mk {
  docs : list DocRow.t;
  classes : list ClassRow.t;
  members : list MemberRow.t
}.

(** The store after [reset] and the schema statements. *)
Definition empty : t := mk [] [] [].

(** The row id given to an inserted row: one more than the largest id of
    the table (no row is ever deleted from a store). *)
Definition nextId (ids : list nat) : nat := S (list_max ids).

(** [insertDoc] *)
Definition insertDoc (db : t) (chunk : Guide.DocChunk) : t :=
  let searchText :=
    JS.toLowerCase (Guide.title chunk ^^ " " ^^ Guide.content chunk) in
  mk (docs db ++
      [DocRow.mk (nextId (map DocRow.id (docs db)))
                 (Guide.package chunk)
                 (Guide.category chunk)
                 (Guide.title chunk)
                 (Guide.content chunk)
                 (Some (Guide.headingLevel chunk))
                 (Some (Guide.sourceUrl chunk))
                 (Some (Guide.filePath chunk))
                 (Some searchText)])
     (classes db) (members db).

(** The row written for one member of a class. *)
Definition memberRow (id classId : nat) (member : MemberInfo.t) : MemberRow.t :=
  let memberSearchText :=
    JS.toLowerCase
      (MemberInfo.name member ^^ " " ^^ JS.orElse (MemberInfo.signature member) "" ^^ " " ^^
       JS.orElse (MemberInfo.description member) "" ^^ " " ^^
       JS.join " " (MemberInfo.decorators member)) in
  MemberRow.mk id
    (Some classId)
    (MemberInfo.name member)
    (MemberInfo.type member)
    (Some (MemberInfo.signature member))
    (Some (MemberInfo.visibility member))
    (Some (if MemberInfo.isStatic member then 1 else 0))
    (Some (if MemberInfo.isAsync member then 1 else 0))
    (Some (MemberInfo.description member))
    (Some (JSON.stringify (JSON.Arr (map JSON.ofParam (MemberInfo.params member)))))
    (option_map (fun r => JSON.stringify (JSON.ofReturns r)) (MemberInfo.returns member))
    (Some (JSON.stringify (JSON.ofStrings (MemberInfo.decorators member))))
    (MemberInfo.exampleCode member)
    (Some memberSearchText).

(** The loop of [insertClass] over the members. *)
Definition insertMember (classId : nat) (rows : list MemberRow.t) (member : MemberInfo.t)
  : list MemberRow.t :=
  rows ++ [memberRow (nextId (map MemberRow.id rows)) classId member].

(** [insertClass] *)
Definition insertClass (db : t) (cls : ClassInfo.t) : t :=
  let searchText :=
    JS.toLowerCase
      (ClassInfo.name cls ^^ " " ^^ JS.orElse (ClassInfo.description cls) "" ^^ " " ^^
       JS.join " " (ClassInfo.decorators cls)) in
  let classId := nextId (map ClassRow.id (classes db)) in
  mk (docs db)
     (classes db ++
      [ClassRow.mk classId
                   (ClassInfo.package cls)
                   (ClassInfo.name cls)
                   (ClassInfo.type cls)
                   (Some (ClassInfo.description cls))
                   (ClassInfo.extendsClause cls)
                   (Some (JSON.stringify (JSON.ofStrings (ClassInfo.implementsClause cls))))
                   (Some (JSON.stringify (JSON.ofStrings (ClassInfo.decorators cls))))
                   (Some (ClassInfo.sourceUrl cls))
                   (Some (ClassInfo.filePath cls))
                   (Some searchText)])
     (fold_left (insertMember classId) (ClassInfo.members cls) (members db)).

(** Row ids grow along a table. *)
Definition increasing (ids : list nat) : Prop := StronglySorted lt ids.

(** The stores that an index build produces: rows inserted one after the
    other into the empty store. *)
Inductive built : t -> Prop :=
| built_empty : built empty
| built_doc (db : t) (chunk : Guide.DocChunk) : built db -> built (insertDoc db chunk)
| built_class (db : t) (cls : ClassInfo.t) : built db -> built (insertClass db cls).

End Store.

(* ================================================================== *)
(** * Index builder (indexer/build-index.ts) *)
(* ================================================================== *)

Module Indexer.

Section Build.

Variable remarkParse : string -> Guide.Node.
Variable toString : Guide.Node -> string.

(** Body of the loop of [buildIndex] over the files, for a file that was
    read: a reference file is parsed for declarations, and every file is
    parsed as a guide. *)
Definition indexFile (db : Store.t) (file : string * string) : Store.t :=
  let (path, content) := file in
  let db :=
    if JS.includes path "-docs/"
    then fold_left Store.insertClass (Typedoc.parseTypedocMarkdown content path) db
    else db in
  fold_left Store.insertDoc (Guide.parseMarkdown remarkParse toString content path) db.

(** The store that [buildIndex] saves, from the files (path and content)
    that [getDocsFiles] lists. *)
Definition buildIndex (files : list (string * string)) : Store.t :=
  fold_left indexFile files Store.empty.

End Build.

End Indexer.

(* ================================================================== *)
(** * Query layer (db/queries.ts) *)
(* ================================================================== *)

Module SearchResult.
Record t : Type := mk {
  id : nat;
  title : string;
  snippet : string;
  package : string;
  category : string;
  type : string;
  sourceUrl : option string;
  rank : Z
}.
End SearchResult.

Module MemberWithDetails.
Record t : Type := mk {
  id : nat;
  name : string;
  type : string;
  signature : string;
  visibility : string;
  isStatic : bool;
  isAsync : bool;
  description : string;
  params : list ParamInfo.t;
  returns : option Returns.t;
  decorators : list string;
  exampleCode : option string;
  className : option string;
  package : option string;
  sourceUrl : option string
}.
End MemberWithDetails.

Module ClassWithMembers.
Record t : Type := mk {
  id : nat;
  name : string;
  package : string;
  type : string;
  description : string;
  extendsClause : option string;
  implementsClause : list string;
  decorators : list string;
  sourceUrl : option string;
  members : list MemberWithDetails.t
}.
End ClassWithMembers.

Module ModuleRow.
Record t : Type := mk {
  name : string;
  package : string;
  type : string;
  description : option string
}.
End ModuleRow.

Module Queries.

(** [safeJsonParse(value, defaultValue)] at the three types of the
    store: the default is returned for NULL, for the empty string, for a
    text that [JSON.parse] rejects, and (a limit of the typed model) for
    a value of another shape. *)
Definition safeJsonParse {T : Type} (convert : JSON.value -> option T)
           (value : option string) (defaultValue : T) : T :=
  match value with
  | None => defaultValue
  | Some text =>
      if JS.truthy text then
        match JSON.parse text with
        | Some v => match convert v with Some x => x | None => defaultValue end
        | None => defaultValue
        end
      else defaultValue
  end.

(** [pkg || null] *)
Definition orNull (pkg : option string) : option string :=
  match pkg with
  | Some p => if JS.truthy p then Some p else None
  | None => None
  end.

(** [? IS NULL OR column = ?] *)
Definition nullOrEq (param : option string) (column : string) : bool :=
  match param with
  | None => true
  | Some x => String.eqb column x
  end.

(** [? = 'all' OR column = ?] *)
Definition allOrEq (param column : string) : bool :=
  String.eqb param "all" || String.eqb column param.

(** [!!n] on a number that may be NULL. *)
Definition toBool (n : option nat) : bool :=
  match n with
  | Some (S _) => true
  | _ => false
  end.

(** [x || ''] on a column that may be NULL. *)
Definition orEmpty (x : option string) : string := JS.orElseOpt x "".

(** The result object built from a member row, with the three columns of
    the joined class when there is one. *)
Definition memberDetails (m : MemberRow.t) (c : option ClassRow.t) : MemberWithDetails.t :=
  MemberWithDetails.mk
    (MemberRow.id m)
    (MemberRow.name m)
    (MemberRow.type m)
    (orEmpty (MemberRow.signature m))
    (JS.orElseOpt (MemberRow.visibility m) "public")
    (toBool (MemberRow.is_static m))
    (toBool (MemberRow.is_async m))
    (orEmpty (MemberRow.description m))
    (safeJsonParse JSON.toParams (MemberRow.params m) [])
    (if JS.truthy (orEmpty (MemberRow.returns m))
     then safeJsonParse (fun v => option_map Some (JSON.toReturns v)) (MemberRow.returns m) None
     else None)
    (safeJsonParse JSON.toStrings (MemberRow.decorators m) [])
    (MemberRow.example_code m)
    (option_map ClassRow.name c)
    (option_map ClassRow.package c)
    (match c with Some r => ClassRow.source_url r | None => None end).

(** The WHERE clause of [getClass]. *)
Definition classMatches (name : string) (pkg : option string) (c : ClassRow.t) : bool :=
  String.eqb (ClassRow.name c) name && nullOrEq (orNull pkg) (ClassRow.package c).

Definition membersOf (db : Store.t) (classId : nat) : list MemberRow.t :=
  filter (fun m => match MemberRow.class_id m with
                   | Some i => i =? classId
                   | None => false
                   end)
         (Store.members db).

(** [getClass] *)
Definition getClass (db : Store.t) (name : string) (pkg : option string)
  : option ClassWithMembers.t :=
  match hd_error (filter (classMatches name pkg) (Store.classes db)) with
  | None => None
  | Some cls =>
      let members := membersOf db (ClassRow.id cls) in
      Some (ClassWithMembers.mk
              (ClassRow.id cls)
              (ClassRow.name cls)
              (ClassRow.package cls)
              (ClassRow.type cls)
              (orEmpty (ClassRow.description cls))
              (ClassRow.extends_clause cls)
              (safeJsonParse JSON.toStrings (ClassRow.implements_clause cls) [])
              (safeJsonParse JSON.toStrings (ClassRow.decorators cls) [])
              (ClassRow.source_url cls)
              (map (fun m => memberDetails m None) members))
  end.

(** The rows of [members m JOIN classes c ON m.class_id = c.id]. *)
Definition joinMembers (db : Store.t) : list (MemberRow.t * ClassRow.t) :=
  flat_map (fun m =>
              map (fun c => (m, c))
                  (filter (fun c => match MemberRow.class_id m with
                                    | Some i => i =? ClassRow.id c
                                    | None => false
                                    end)
                          (Store.classes db)))
           (Store.members db).

(** [methodName.split('.', 2)] when the name holds a dot. *)
Definition splitQualified (methodName : string) : option string * string :=
  if JS.includes methodName "." then
    match JS.splitChar "." methodName with
    | className :: mName :: _ => (Some className, mName)
    | _ => (None, methodName)
    end
  else (None, methodName).

(** The WHERE clause of [getMethod]. *)
Definition methodMatches (mName : string) (className pkg : option string)
           (row : MemberRow.t * ClassRow.t) : bool :=
  String.eqb (MemberRow.name (fst row)) mName &&
  nullOrEq className (ClassRow.name (snd row)) &&
  nullOrEq (orNull pkg) (ClassRow.package (snd row)).

(** [getMethod] *)
Definition getMethod (db : Store.t) (methodName : string) (pkg : option string)
  : list MemberWithDetails.t :=
  let (className, mName) := splitQualified methodName in
  map (fun row => memberDetails (fst row) (Some (snd row)))
      (filter (methodMatches mName className pkg) (joinMembers db)).

(** Insertion of a row into a list sorted by [package, type, name];
    rows with equal keys stay in table order. *)
Definition moduleKeyLe (a b : ClassRow.t) : bool :=
  match String.compare (ClassRow.package a) (ClassRow.package b) with
  | Lt => true
  | Gt => false
  | Eq =>
      match String.compare (ClassRow.type a) (ClassRow.type b) with
      | Lt => true
      | Gt => false
      | Eq =>
          match String.compare (ClassRow.name a) (ClassRow.name b) with
          | Gt => false
          | _ => true
          end
      end
  end.

Fixpoint insertSorted {A : Type} (le : A -> A -> bool) (x : A) (l : list A) : list A :=
  match l with
  | [] => [x]
  | y :: rest => if le x y then x :: l else y :: insertSorted le x rest
  end.

(** A stable sort: [Array.prototype.sort], ORDER BY. *)
Definition sortBy {A : Type} (le : A -> A -> bool) (l : list A) : list A :=
  fold_right (insertSorted le) [] l.

(** [listModules] *)
Definition listModules (db : Store.t) (pkg type : string) : list ModuleRow.t :=
  map (fun c => ModuleRow.mk (ClassRow.name c) (ClassRow.package c)
                             (ClassRow.type c) (ClassRow.description c))
      (sortBy moduleKeyLe
         (filter (fun c => allOrEq pkg (ClassRow.package c) && allOrEq type (ClassRow.type c))
                 (Store.classes db))).

(** ** Search *)

(** Two characters are equal when case is ignored. *)
Definition sameLetter (a b : ascii) : bool :=
  Ascii.eqb (JS.upperChar a) (JS.upperChar b).

(** The comparison of a text with a pattern of LIKE: [%] stands for any
    text, [_] for any character, and letters match whatever their
    case. *)
Fixpoint patternCompare (pattern : string) : string -> bool :=
  match pattern with
  | EmptyString => fun text => negb (JS.truthy text)
  | String p pattern' =>
      if Ascii.eqb p "%" then
        fix anywhere (text : string) : bool :=
          patternCompare pattern' text ||
          match text with
          | EmptyString => false
          | String _ text' => anywhere text'
          end
      else if Ascii.eqb p "_" then
        fun text => match text with
                    | EmptyString => false
                    | String _ text' => patternCompare pattern' text'
                    end
      else
        fun text => match text with
                    | EmptyString => false
                    | String c text' => sameLetter p c && patternCompare pattern' text'
                    end
  end.

(** The part of a text that LIKE reads: the engine takes the pattern and
    the text as strings that end at their first NUL character. *)
Fixpoint untilNul (s : string) : string :=
  match s with
  | EmptyString => EmptyString
  | String c rest => if Ascii.eqb c "000" then EmptyString else String c (untilNul rest)
  end.

(** The operator LIKE. *)
Definition like (pattern text : string) : bool :=
  patternCompare (untilNul pattern) (untilNul text).

(** The conjunction of [search_text LIKE ?] over the terms. *)
Definition likeAll (terms : list string) (searchText : option string) : bool :=
  match searchText with
  | None => false
  | Some text => forallb (fun t => like ("%" ^^ t ^^ "%") text) terms
  end.

(** [LIMIT ?]: a negative limit does not limit. *)
Definition sqlLimit {A : Type} (limit : Z) (rows : list A) : list A :=
  if (limit <? 0)%Z then rows else firstn (Z.to_nat limit) rows.

(** [rows.slice(0, limit)] *)
Definition sliceTo {A : Type} (limit : Z) (rows : list A) : list A :=
  if (limit <? 0)%Z
  then firstn (List.length rows - Z.to_nat (- limit)) rows
  else firstn (Z.to_nat limit) rows.

(** [createSnippet] with its default [maxLen] of 150. *)
Definition firstMatchIndex (lowerContent : string) (terms : list string) : option nat :=
  fold_left (fun matchIndex term =>
               match JS.indexOf lowerContent term, matchIndex with
               | Some idx, None => Some idx
               | Some idx, Some best => if idx <? best then Some idx else Some best
               | None, _ => matchIndex
               end)
            terms None.

Definition createSnippet (content : string) (terms : list string) : string :=
  let maxLen := 150 in
  let lowerContent := JS.toLowerCase content in
  match firstMatchIndex lowerContent terms with
  | None =>
      JS.slice content 0 maxLen ^^
      (if maxLen <? String.length content then "..." else "")
  | Some matchIndex =>
      let start := matchIndex - 40 in
      let stop := Nat.min (String.length content) (matchIndex + maxLen - 40) in
      let snippet := JS.slice content start stop in
      let snippet := if 0 <? start then "..." ^^ snippet else snippet in
      if stop <? String.length content then snippet ^^ "..." else snippet
  end.

(** The expression [\bterm\b] with flag [i] at a position, the term
    being matched literally ([escapeRegex]). *)
Definition isWordOpt (c : option ascii) : bool :=
  match c with Some x => JS.isWord x | None => false end.

Definition headOpt (s : string) : option ascii :=
  match s with String c _ => Some c | EmptyString => None end.

(** [term] matched at the start of [s]: the last character matched (or
    [prev] for an empty term) and the text after the match. *)
Fixpoint literalAt (term : string) (prev : option ascii) (s : string)
  : option (option ascii * string) :=
  match term with
  | EmptyString => Some (prev, s)
  | String t term' =>
      match s with
      | String c rest => if sameLetter t c then literalAt term' (Some c) rest else None
      | EmptyString => None
      end
  end.

Definition wordAt (term : string) (prev : option ascii) (s : string) : option unit :=
  if xorb (isWordOpt prev) (isWordOpt (headOpt s)) then
    match literalAt term prev s with
    | Some (lastChar, rest) =>
        if xorb (isWordOpt lastChar) (isWordOpt (headOpt rest)) then Some tt else None
    | None => None
    end
  else None.

(** [wordRegex.test(text)] *)
Definition hasWord (text term : string) : bool :=
  match Rx.first (wordAt term) text with Some _ => true | None => false end.

(** Body of the loop of [calculateRelevance] over the terms. *)
Definition relevanceStep (text : string) (score : Z) (term : string) : Z :=
  let lowerText := JS.toLowerCase text in
  let score :=
    if hasWord text term then (score - 20)%Z
    else if JS.includes lowerText term then (score - 10)%Z
    else score in
  let firstWord := JS.toLowerCase (JS.firstField text) in
  if String.eqb firstWord term || JS.includes firstWord term
  then (score - 30)%Z else score.

(** [calculateRelevance] *)
Definition calculateRelevance (text : string) (terms : list string) : Z :=
  let score := fold_left (relevanceStep text) terms 100%Z in
  let score := if String.length text <? 100 then (score - 5)%Z else score in
  let score := if String.length text <? 50 then (score - 5)%Z else score in
  Z.max 0 score.

(** ** The score as the specification words it *)

(** 20 for a term that occurs as a whole word, else 10 for a term that
    occurs as a substring. *)
Definition occurrencePoints (text term : string) : Z :=
  if hasWord text term then 20%Z
  else if JS.includes (JS.toLowerCase text) term then 10%Z
  else 0%Z.

(** 30 for a term that the first word of the text equals or contains. *)
Definition firstWordPoints (text term : string) : Z :=
  let firstWord := JS.toLowerCase (JS.firstField text) in
  if String.eqb firstWord term || JS.includes firstWord term then 30%Z else 0%Z.

(** 5 for a text under 100 characters and 5 more under 50. *)
Definition shortTextPoints (text : string) : Z :=
  Z.add (if String.length text <? 100 then 5%Z else 0%Z)
        (if String.length text <? 50 then 5%Z else 0%Z).

Definition sumZ (l : list Z) : Z := fold_right Z.add 0%Z l.

Definition specifiedScore (text : string) (terms : list string) : Z :=
  (100 - sumZ (map (occurrencePoints text) terms)
       - sumZ (map (firstWordPoints text) terms)
       - shortTextPoints text)%Z.

Definition docResult (terms : list string) (row : DocRow.t) : SearchResult.t :=
  SearchResult.mk
    (DocRow.id row)
    (DocRow.title row)
    (createSnippet (DocRow.content row) terms)
    (DocRow.package row)
    (DocRow.category row)
    "doc"
    (DocRow.source_url row)
    (calculateRelevance (DocRow.title row ^^ " " ^^ DocRow.content row) terms).

Definition classResult (terms : list string) (row : ClassRow.t) : SearchResult.t :=
  SearchResult.mk
    (ClassRow.id row)
    (ClassRow.name row)
    (if JS.truthy (orEmpty (ClassRow.description row))
     then createSnippet (orEmpty (ClassRow.description row)) terms
     else ClassRow.type row ^^ " in " ^^ ClassRow.package row)
    (ClassRow.package row)
    (ClassRow.type row)
    "class"
    (ClassRow.source_url row)
    (calculateRelevance (ClassRow.name row ^^ " " ^^ orEmpty (ClassRow.description row)) terms).

Definition memberResult (terms : list string) (row : MemberRow.t * ClassRow.t)
  : SearchResult.t :=
  let (m, c) := row in
  SearchResult.mk
    (MemberRow.id m)
    (ClassRow.name c ^^ "." ^^ MemberRow.name m)
    (if JS.truthy (orEmpty (MemberRow.description m))
     then createSnippet (orEmpty (MemberRow.description m)) terms
     else JS.orElse (orEmpty (MemberRow.signature m))
                    (MemberRow.type m ^^ " in " ^^ ClassRow.name c))
    (JS.orElse (ClassRow.package c) "")
    (MemberRow.type m)
    "method"
    (Some (orEmpty (ClassRow.source_url c)))
    (calculateRelevance
       (MemberRow.name m ^^ " " ^^ orEmpty (MemberRow.description m) ^^ " " ^^
        orEmpty (MemberRow.signature m))
       terms).

Definition rankLe (a b : SearchResult.t) : bool :=
  (SearchResult.rank a <=? SearchResult.rank b)%Z.

(** The three SELECT statements of [searchDocs]. *)
Definition searchDocRows (db : Store.t) (terms : list string) (pkg : string) (limit : Z)
  : list DocRow.t :=
  sqlLimit limit
    (filter (fun r => likeAll terms (DocRow.search_text r) && allOrEq pkg (DocRow.package r))
            (Store.docs db)).

Definition searchClassRows (db : Store.t) (terms : list string) (pkg type : string)
           (limit : Z) : list ClassRow.t :=
  sqlLimit limit
    (filter (fun r => likeAll terms (ClassRow.search_text r) &&
                      allOrEq pkg (ClassRow.package r) &&
                      (String.eqb type "all" || String.eqb type "class" ||
                       String.eqb (ClassRow.type r) type))
            (Store.classes db)).

Definition searchMemberRows (db : Store.t) (terms : list string) (pkg : string)
           (limit : Z) : list (MemberRow.t * ClassRow.t) :=
  sqlLimit limit
    (filter (fun row => likeAll terms (MemberRow.search_text (fst row)) &&
                        allOrEq pkg (ClassRow.package (snd row)))
            (joinMembers db)).

(** [searchDocs] *)
Definition searchDocs (db : Store.t) (query pkg type : string) (limit : Z)
  : list SearchResult.t :=
  let terms := JS.words (JS.toLowerCase query) in
  match terms with
  | [] => []
  | _ :: _ =>
      let results := [] in
      let results :=
        if String.eqb type "all" || String.eqb type "guide"
        then results ++ map (docResult terms) (searchDocRows db terms pkg limit)
        else results in
      let results :=
        if String.eqb type "all" || String.eqb type "class" || String.eqb type "interface"
        then results ++ map (classResult terms) (searchClassRows db terms pkg type limit)
        else results in
      let results :=
        if String.eqb type "all" || String.eqb type "method"
        then results ++ map (memberResult terms) (searchMemberRows db terms pkg limit)
        else results in
      sliceTo limit (sortBy rankLe results)
  end.

(** ** Notions of the statements about the query layer *)

(** A class row answers a request for a name and an optional package:
    it has that name and, when a package is given that is not the empty
    string, that package. *)
Definition requested (name : string) (pkg : option string) (c : ClassRow.t) : Prop :=
  ClassRow.name c = name /\
  match pkg with
  | Some p => p = "" \/ ClassRow.package c = p
  | None => True
  end.

(** The class row [c] owns the member row [m]. *)
Definition ownedBy (m : MemberRow.t) (c : ClassRow.t) : bool :=
  match MemberRow.class_id m with
  | Some i => i =? ClassRow.id c
  | None => false
  end.

(** The member rows named [member], each with the class row that owns
    it, in the order of the tables; with an owner, only those whose class
    row has that name. *)
Definition namedMembers (db : Store.t) (member : string) (owner : option string)
  : list (MemberRow.t * ClassRow.t) :=
  filter (fun mc =>
            ownedBy (fst mc) (snd mc) &&
            String.eqb (MemberRow.name (fst mc)) member &&
            match owner with
            | Some o => String.eqb (ClassRow.name (snd mc)) o
            | None => true
            end)
         (list_prod (Store.members db) (Store.classes db)).

(** A retrieved member is that of a member row and its class row. *)
Definition describes (r : MemberWithDetails.t) (mc : MemberRow.t * ClassRow.t) : Prop :=
  MemberWithDetails.id r = MemberRow.id (fst mc) /\
  MemberWithDetails.name r = MemberRow.name (fst mc) /\
  MemberWithDetails.type r = MemberRow.type (fst mc) /\
  MemberWithDetails.className r = Some (ClassRow.name (snd mc)) /\
  MemberWithDetails.package r = Some (ClassRow.package (snd mc)) /\
  MemberWithDetails.sourceUrl r = ClassRow.source_url (snd mc).

(** A member returned with a declaration is that of a member row. *)
Definition describesMember (r : MemberWithDetails.t) (m : MemberRow.t) : Prop :=
  MemberWithDetails.id r = MemberRow.id m /\
  MemberWithDetails.name r = MemberRow.name m /\
  MemberWithDetails.type r = MemberRow.type m.

(** A retrieved member without the columns that the store adds. *)
Definition memberOf (d : MemberWithDetails.t) : MemberInfo.t :=
  MemberInfo.mk (MemberWithDetails.name d) (MemberWithDetails.type d)
                (MemberWithDetails.signature d) (MemberWithDetails.visibility d)
                (MemberWithDetails.isStatic d) (MemberWithDetails.isAsync d)
                (MemberWithDetails.description d) (MemberWithDetails.params d)
                (MemberWithDetails.returns d) (MemberWithDetails.decorators d)
                (MemberWithDetails.exampleCode d).

(** The row that [listModules] returns for a class row. *)
Definition moduleOf (c : ClassRow.t) : ModuleRow.t :=
  ModuleRow.mk (ClassRow.name c) (ClassRow.package c) (ClassRow.type c)
               (ClassRow.description c).

(** The order of ORDER BY package, type, name on the rows returned. *)
Definition moduleRowLe (a b : ModuleRow.t) : bool :=
  match String.compare (ModuleRow.package a) (ModuleRow.package b) with
  | Lt => true
  | Gt => false
  | Eq =>
      match String.compare (ModuleRow.type a) (ModuleRow.type b) with
      | Lt => true
      | Gt => false
      | Eq =>
          match String.compare (ModuleRow.name a) (ModuleRow.name b) with
          | Gt => false
          | _ => true
          end
      end
  end.

(** Every character, for decisions by enumeration. *)
Definition allAscii : list ascii := map ascii_of_nat (seq 0 256).

(** The two wildcards of LIKE. *)
Definition isWildcard (c : ascii) : bool := Ascii.eqb c "%" || Ascii.eqb c "_".

Definition noWildcard (s : string) : bool :=
  forallb (fun c => negb (isWildcard c)) (list_ascii_of_string s).

(** A term as [searchDocs] passes it to LIKE when the query holds no
    wildcard: in lower case, without [%] and [_]. *)
Definition plainTerm (t : string) : bool :=
  forallb (fun c => negb (isWildcard c) && Ascii.eqb (JS.lowerChar c) c)
          (list_ascii_of_string t).

(** A text without NUL character. *)
Definition noNul (s : string) : bool :=
  forallb (fun c => negb (Ascii.eqb c "000")) (list_ascii_of_string s).

(** The values of the [type] argument that select a table. *)
Definition searchTypes : list string := ["all"; "guide"; "class"; "interface"; "method"].

End Queries.

(* ================================================================== *)
(** * Tools (index.ts, tools/*.ts) *)
(* ================================================================== *)

(** Every tool returns an object [{content: [{type: 'text', text}]}];
    a response is represented by its text.  The module-level variables
    [indexStatus] and [indexError] are an explicit [IndexStatus.t], and
    the open database is an explicit store. *)

Module Status.
Inductive t : Type := ready | building | error.
End Status.

Module IndexStatus.
Record t : Type := mk { status : Status.t; error : option string }.
End IndexStatus.

Module Tools.

Definition nl : string := String "010" "".
Definition dq : string := String "034" "".
Definition bq : string := "`".

(** A nullable string inside a template literal. *)
Definition show (x : option string) : string :=
  match x with Some s => s | None => "null" end.

(** Truthiness of a nullable string. *)
Definition given (x : option string) : bool :=
  match x with Some s => JS.truthy s | None => false end.

Definition buildingMessage : string :=
  "Index is building (~60s on first run). Please wait and try again.".

Definition errorMessage (st : IndexStatus.t) : string :=
  "Index build failed: " ^^ show (IndexStatus.error st) ^^
  ". Try running with --rebuild flag.".

(** [!s || s.trim().length === 0] *)
Definition blank (s : string) : bool :=
  negb (JS.truthy s) || (String.length (JS.trim s) =? 0).

(** [Math.min(Math.max(limit, 1), 20)] *)
Definition clampLimit (limit : Z) : Z := Z.min (Z.max limit 1) 20.

Definition inPackage (pkg : string) : string :=
  if negb (String.eqb pkg "all") then " in package " ^^ pkg else "".

Definition ofType (type : string) : string :=
  if negb (String.eqb type "all") then " of type " ^^ type else "".

Module SearchArgs.
Record t : Type := mk {
  query : string;
  package : option string;
  type : option string;
  limit : option Z
}.
End SearchArgs.

Definition withDefault {A : Type} (x : option A) (d : A) : A :=
  match x with Some v => v | None => d end.

Definition formatResult (i : nat) (r : SearchResult.t) : string :=
  JS.join nl
    ["**" ^^ JS.natToString (i + 1) ^^ ". " ^^ SearchResult.title r ^^ "**";
     "   Package: " ^^ SearchResult.package r ^^ " | Type: " ^^ SearchResult.type r;
     "   " ^^ SearchResult.snippet r;
     "   Source: " ^^ show (SearchResult.sourceUrl r)].

(** [results.map((r, i) => ...)] *)
Fixpoint mapIndexed {A B : Type} (f : nat -> A -> B) (i : nat) (l : list A) : list B :=
  match l with
  | [] => []
  | x :: rest => f i x :: mapIndexed f (S i) rest
  end.

(** [searchGalachainDocs] *)
Definition searchGalachainDocs (st : IndexStatus.t) (db : Store.t) (args : SearchArgs.t)
  : string :=
  match IndexStatus.status st with
  | Status.building => buildingMessage
  | Status.error => errorMessage st
  | Status.ready =>
      let query := SearchArgs.query args in
      let pkg := withDefault (SearchArgs.package args) "all" in
      let type := withDefault (SearchArgs.type args) "all" in
      let limit := withDefault (SearchArgs.limit args) 5%Z in
      if blank query then "Please provide a search query."
      else
        let results := Queries.searchDocs db query pkg type (clampLimit limit) in
        match results with
        | [] =>
            "No results found for " ^^ dq ^^ query ^^ dq ^^ inPackage pkg ^^ ofType type ^^ "."
        | _ :: _ =>
            "Found " ^^ JS.natToString (List.length results) ^^ " result(s) for " ^^
            dq ^^ query ^^ dq ^^ ":" ^^ nl ^^ nl ^^
            JS.join (nl ^^ nl) (mapIndexed formatResult 0 results)
        end
  end.

Definition modifiersOf (m : MemberWithDetails.t) : list string :=
  (if MemberWithDetails.isStatic m then ["static"] else []) ++
  (if MemberWithDetails.isAsync m then ["async"] else []) ++
  (if negb (String.eqb (MemberWithDetails.visibility m) "public")
   then [MemberWithDetails.visibility m] else []).

Definition paramLine (p : ParamInfo.t) : string :=
  "- " ^^ bq ^^ ParamInfo.name p ^^ (if ParamInfo.optional p then "?" else "") ^^ bq ^^
  " (" ^^ ParamInfo.type p ^^ ")" ^^
  (if JS.truthy (ParamInfo.description p) then ": " ^^ ParamInfo.description p else "").

Definition returnsText (r : Returns.t) : string :=
  bq ^^ Returns.type r ^^ bq ^^
  (if JS.truthy (Returns.description r) then " - " ^^ Returns.description r else "").

Definition nonEmpty {A : Type} (l : list A) : bool :=
  match l with [] => false | _ :: _ => true end.

(** [formatMember] of tools/get-class.ts *)
Definition formatMember (m : MemberWithDetails.t) : string :=
  let modifiers := modifiersOf m in
  let decoratorStr :=
    if nonEmpty (MemberWithDetails.decorators m)
    then JS.join " " (map (fun d => "@" ^^ d) (MemberWithDetails.decorators m)) ^^ " "
    else "" in
  let modifierStr :=
    if nonEmpty modifiers then JS.join " " modifiers ^^ " " else "" in
  JS.join nl
    (["### " ^^ decoratorStr ^^ modifierStr ^^ MemberWithDetails.name m] ++
     (if JS.truthy (MemberWithDetails.signature m)
      then ["```typescript"; MemberWithDetails.signature m; "```"] else []) ++
     (if JS.truthy (MemberWithDetails.description m)
      then [""; MemberWithDetails.description m] else []) ++
     (if nonEmpty (MemberWithDetails.params m)
      then [""; "**Parameters:**"] ++ map paramLine (MemberWithDetails.params m) else []) ++
     (match MemberWithDetails.returns m with
      | Some r => [""; "**Returns:** " ^^ returnsText r]
      | None => []
      end) ++
     (if given (MemberWithDetails.exampleCode m)
      then [""; "**Example:**"; "```typescript";
            show (MemberWithDetails.exampleCode m); "```"]
      else [])).

Definition memberGroup (title kind : string) (members : list MemberWithDetails.t)
  : list string :=
  let group := filter (fun m => String.eqb (MemberWithDetails.type m) kind) members in
  if nonEmpty group
  then [""; title] ++ flat_map (fun m => [""; formatMember m]) group
  else [].

Module GetClassArgs.
Record t : Type := mk { name : string; package : option string }.
End GetClassArgs.

(** [getGalachainClass] *)
Definition getGalachainClass (st : IndexStatus.t) (db : Store.t) (args : GetClassArgs.t)
  : string :=
  match IndexStatus.status st with
  | Status.building => buildingMessage
  | Status.error => errorMessage st
  | Status.ready =>
      let name := GetClassArgs.name args in
      let pkg := GetClassArgs.package args in
      if blank name then "Please provide a class/interface name."
      else
        match Queries.getClass db name pkg with
        | None =>
            "Class/interface " ^^ dq ^^ name ^^ dq ^^ " not found" ^^
            (if given pkg then " in package " ^^ show pkg else "") ^^ "."
        | Some cls =>
            let members := ClassWithMembers.members cls in
            JS.join nl
              (["# " ^^ ClassWithMembers.name cls;
                "";
                "**Package:** " ^^ ClassWithMembers.package cls;
                "**Type:** " ^^ ClassWithMembers.type cls] ++
               (if given (ClassWithMembers.extendsClause cls)
                then ["**Extends:** " ^^ show (ClassWithMembers.extendsClause cls)] else []) ++
               (if nonEmpty (ClassWithMembers.implementsClause cls)
                then ["**Implements:** " ^^
                      JS.join ", " (ClassWithMembers.implementsClause cls)] else []) ++
               (if nonEmpty (ClassWithMembers.decorators cls)
                then ["**Decorators:** " ^^
                      JS.join ", " (map (fun d => "@" ^^ d) (ClassWithMembers.decorators cls))]
                else []) ++
               (if JS.truthy (ClassWithMembers.description cls)
                then [""; "## Description"; ""; ClassWithMembers.description cls] else []) ++
               (if nonEmpty members
                then memberGroup "## Constructor" "constructor" members ++
                     memberGroup "## Properties" "property" members ++
                     memberGroup "## Accessors" "accessor" members ++
                     memberGroup "## Methods" "method" members
                else []) ++
               [""; "**Source:** " ^^ show (ClassWithMembers.sourceUrl cls)])
        end
  end.

Module GetMethodArgs.
Record t : Type := mk { method_name : string; package : option string }.
End GetMethodArgs.

(** The text written for one method by [getGalachainMethod]. *)
Definition formatMethod (m : MemberWithDetails.t) : string :=
  let modifiers := modifiersOf m in
  JS.join nl
    (["# " ^^ show (MemberWithDetails.className m) ^^ "." ^^ MemberWithDetails.name m;
      "";
      "**Package:** " ^^ show (MemberWithDetails.package m);
      "**Class:** " ^^ show (MemberWithDetails.className m)] ++
     (if nonEmpty modifiers then ["**Modifiers:** " ^^ JS.join ", " modifiers] else []) ++
     (if nonEmpty (MemberWithDetails.decorators m)
      then ["**Decorators:** " ^^
            JS.join ", " (map (fun d => "@" ^^ d) (MemberWithDetails.decorators m))]
      else []) ++
     (if JS.truthy (MemberWithDetails.signature m)
      then [""; "## Signature"; "```typescript"; MemberWithDetails.signature m; "```"]
      else []) ++
     (if JS.truthy (MemberWithDetails.description m)
      then [""; "## Description"; ""; MemberWithDetails.description m] else []) ++
     (if nonEmpty (MemberWithDetails.params m)
      then [""; "## Parameters"] ++ map paramLine (MemberWithDetails.params m) else []) ++
     (match MemberWithDetails.returns m with
      | Some r => [""; "## Returns"; returnsText r]
      | None => []
      end) ++
     (if given (MemberWithDetails.exampleCode m)
      then [""; "## Example"; "```typescript";
            show (MemberWithDetails.exampleCode m); "```"]
      else []) ++
     [""; "**Source:** " ^^ show (MemberWithDetails.sourceUrl m)]).

Definition separator : string := nl ^^ nl ^^ "---" ^^ nl ^^ nl.

(** [getGalachainMethod] *)
Definition getGalachainMethod (st : IndexStatus.t) (db : Store.t) (args : GetMethodArgs.t)
  : string :=
  match IndexStatus.status st with
  | Status.building => buildingMessage
  | Status.error => errorMessage st
  | Status.ready =>
      let methodName := GetMethodArgs.method_name args in
      let pkg := GetMethodArgs.package args in
      if blank methodName
      then "Please provide a method name (e.g., " ^^ dq ^^ "submit" ^^ dq ^^ " or " ^^
           dq ^^ "GalaContract.submit" ^^ dq ^^ ")."
      else
        match Queries.getMethod db methodName pkg with
        | [] =>
            "Method " ^^ dq ^^ methodName ^^ dq ^^ " not found" ^^
            (if given pkg then " in package " ^^ show pkg else "") ^^ "."
        | results =>
            let header :=
              if 1 <? List.length results
              then "Found " ^^ JS.natToString (List.length results) ^^
                   " methods matching " ^^ dq ^^ methodName ^^ dq ^^ ":" ^^ separator
              else "" in
            header ^^ JS.join separator (map formatMethod results)
        end
  end.

(** Grouping with a [Map]: the groups in the order in which their keys
    first appear, each with its items in order. *)
Fixpoint addToGroup {A : Type} (key : string) (x : A) (groups : list (string * list A))
  : list (string * list A) :=
  match groups with
  | [] => [(key, [x])]
  | (k, items) :: rest =>
      if String.eqb k key then (k, items ++ [x]) :: rest
      else (k, items) :: addToGroup key x rest
  end.

Definition groupBy {A : Type} (keyOf : A -> string) (l : list A) : list (string * list A) :=
  fold_left (fun groups x => addToGroup (keyOf x) x groups) l [].

(** [s.charAt(0).toUpperCase() + s.slice(1)] *)
Definition capitalize (s : string) : string :=
  match s with
  | EmptyString => EmptyString
  | String c rest => String (JS.upperChar c) rest
  end.

(** [truncate]; the end [maxLen - 3] of the slice counts from the end of
    the text when it is negative. *)
Definition truncate (s : string) (maxLen : nat) : string :=
  if String.length s <=? maxLen then s
  else (if 3 <=? maxLen then JS.slice s 0 (maxLen - 3)
        else JS.slice s 0 (String.length s - (3 - maxLen))) ^^ "...".

Definition moduleLine (item : ModuleRow.t) : string :=
  "- **" ^^ ModuleRow.name item ^^ "**" ^^
  (if given (ModuleRow.description item)
   then " - " ^^ truncate (show (ModuleRow.description item)) 80 else "").

Module ListModulesArgs.
Record t : Type := mk { package : option string; type : option string }.
End ListModulesArgs.

(** [listGalachainModules] *)
Definition listGalachainModules (st : IndexStatus.t) (db : Store.t)
           (args : ListModulesArgs.t) : string :=
  match IndexStatus.status st with
  | Status.building => buildingMessage
  | Status.error => errorMessage st
  | Status.ready =>
      let pkg := withDefault (ListModulesArgs.package args) "all" in
      let type := withDefault (ListModulesArgs.type args) "all" in
      match Queries.listModules db pkg type with
      | [] => "No modules found" ^^ inPackage pkg ^^ ofType type ^^ "."
      | results =>
          JS.join nl
            (["# GalaChain SDK Modules";
              "";
              "Found " ^^ JS.natToString (List.length results) ^^ " module(s)" ^^
              inPackage pkg ^^ ofType type ^^ ".";
              ""] ++
             flat_map
               (fun byPackage =>
                  ["## @gala-chain/" ^^ fst byPackage; ""] ++
                  flat_map
                    (fun byType =>
                       ["### " ^^ capitalize (fst byType) ^^ "s"; ""] ++
                       map moduleLine (snd byType) ++ [""])
                    (groupBy ModuleRow.type (snd byPackage)))
               (groupBy ModuleRow.package results))
      end
  end.

(** ** Notions of the statements about grouping *)

Definition hasKey {A : Type} (keyOf : A -> string) (k : string) (x : A) : bool :=
  String.eqb (keyOf x) k.

(** The state of the grouping loop after the items [done]: one group
    for each key that occurs, holding the items of that key in order. *)
Definition grouped {A : Type} (keyOf : A -> string)
           (groups : list (string * list A)) (done : list A) : Prop :=
  NoDup (map fst groups) /\
  (forall k items, In (k, items) groups <->
                   items <> [] /\ items = filter (hasKey keyOf k) done).

End Tools.

(* ================================================================== *)
(** * Sample inputs *)
(* ================================================================== *)

Module Samples.

Definition nl : string := String "010" "".

Definition fenced (lines : list string) : string :=
  JS.join nl (["```"] ++ lines ++ ["```"]).

(** A reference section that is one code block with a typed signature. *)
Definition createTokenSignature : string :=
  "createToken(name: string, amount?: number): Promise<Token>".

Definition createTokenSection : string := fenced [createTokenSignature].

(** A reference section whose signature has untyped arguments. *)
Definition untypedSection : string := fenced ["foo(a, b)"].

(** A file with two top-level sections of the same name. *)
Definition twoFoo : string := JS.join nl ["## Foo"; ""; "## Foo"; ""].

Definition apiPath : string := "docs/chain-api-docs/exports.md".

(** A declaration that implements [A] and [B]. *)
Definition fooAB : ClassInfo.t :=
  ClassInfo.mk "Foo" "chain-api" "class" "A sample." None ["A"; "B"] [] []
               apiPath "https://docs.galachain.com/latest/chain-api-docs/".

(** Two declarations named [Foo] from two packages, each with a member
    [bar], and a declaration [Baz] with a member [bar]. *)
Definition barOf (owner : string) : MemberInfo.t :=
  MemberInfo.mk "bar" "method" ("bar(): " ^^ owner) "public" false false
                ("The bar of " ^^ owner ^^ ".") [] None [] None.

Definition declaration (name pkg : string) : ClassInfo.t :=
  ClassInfo.mk name pkg "class" ("Token helper " ^^ name ^^ ".") None [] []
               [barOf name] apiPath "https://docs.galachain.com/".

Definition sampleStore : Store.t :=
  Store.insertClass
    (Store.insertClass
       (Store.insertClass Store.empty (declaration "Foo" "chain-api"))
       (declaration "Foo" "chaincode"))
    (declaration "Baz" "chain-api").

(** The member [bar] of the first declaration [Foo], as [getMethod]
    returns it. *)
Definition fooBar : MemberWithDetails.t :=
  Queries.memberDetails (Store.memberRow 1 1 (barOf "Foo"))
                        (hd_error (Store.classes sampleStore)).

(** A guide document as [remark-parse] reads it: two headings, each
    followed by a paragraph. *)
Definition text (value : string) : Guide.Node :=
  Guide.mkNode "text" (Some value) 0 None [] None.

Definition heading (depth : nat) (value : string) : Guide.Node :=
  Guide.mkNode "heading" None depth None [text value] None.

Definition paragraph (value : string) : Guide.Node :=
  Guide.mkNode "paragraph" None 0 None [text value] None.

Definition introDetails : Guide.Node :=
  Guide.mkNode "root" None 0 None
    [heading 1 "Intro"; paragraph "Hello world.";
     heading 2 "Details"; paragraph "More info."] None.

(** A document without heading. *)
Definition noHeading : Guide.Node :=
  Guide.mkNode "root" None 0 None [paragraph "Hello world."] None.

(** A reference file with one declaration, and that declaration. *)
Definition fooFile : string := JS.join nl ["## Foo"; ""; "A sample."; ""].

Definition fooPlain : ClassInfo.t :=
  ClassInfo.mk "Foo" "chain-api" "class" "A sample." None [] [] []
               apiPath "https://docs.galachain.com/latest/chain-api-docs/".

(** The row of the member [bar] of the first declaration of the sample
    store. *)
Definition fooBarRow : MemberRow.t := Store.memberRow 1 1 (barOf "Foo").

(** A chunk of a guide. *)
Definition introChunk : Guide.DocChunk :=
  Guide.mkDocChunk "Intro" "Hello world." 1 "guides" "guide" "docs/intro.md"
                   "https://docs.galachain.com/".

(** A path below a Windows checkout of the repository. *)
Definition windowsPath : string := "C:\data\repos\galachain-sdk\docs\intro.md".

End Samples.

(* ================================================================== *)
(** * Properties of the guide parser *)
(* ================================================================== *)

Section GuideFacts.

Import Guide.

Variable remarkParse : string -> Node.
Variable toString : Node -> string.

(** Induction on syntax trees, with the hypothesis available for every
    child. *)
Lemma Node_forall_ind (P : Node -> Prop) :
  (forall t v d l cs a, Forall P cs -> P (mkNode t v d l cs a)) ->
  forall n, P n.
Proof.
  intros step. fix IH 1. intros [t v d l cs a]. apply step.
  induction cs as [|c cs IHcs]; constructor; [apply IH | exact IHcs].
Qed.

(** [visit] calls the visitor along [preorder]. *)
Lemma visit_preorder {S : Type} (f : Node -> S -> S) (n : Node) :
  forall s, visit f n s = fold_left (fun acc m => f m acc) (preorder n) s.
Proof.
  induction n as [t v d l cs a IH] using Node_forall_ind; intros s.
  cbn [visit preorder fold_left].
  generalize (f (mkNode t v d l cs a) s). clear s.
  induction IH as [|c cs Hc _ IHcs]; intros s; cbn [flat_map fold_left].
  - reflexivity.
  - rewrite fold_left_app, <- Hc. apply IHcs.
Qed.

(** The visitor, by kind of node. *)
Lemma visitor_cases (fp : string) (n : Node) (st : PState) :
  visitor toString fp n st =
  if isHeading n then
    mkPState (toString n) (depth n) [] (chunks (saveChunk fp st))
  else if isContentBlock n then pushContent (renderBlock toString n) st
  else st.
Proof.
  unfold visitor, isHeading, isContentBlock, renderBlock.
  destruct (String.eqb (type n) "heading"); [reflexivity|].
  destruct (String.eqb (type n) "paragraph"); [reflexivity|].
  destruct (String.eqb (type n) "code"); [reflexivity|].
  destruct (String.eqb (type n) "list"); [reflexivity|].
  destruct (String.eqb (type n) "blockquote"); reflexivity.
Qed.

Lemma withContent_same (st : PState) : withContent st (currentContent st) = st.
Proof. destruct st; reflexivity. Qed.

Lemma sectionChunks_cons (fp : string) (n : Node) (rest : list Node) :
  sectionChunks toString fp (n :: rest) =
  (if isHeading n
   then (if yieldsChunk toString (n, untilHeading rest)
         then [chunkOfSection toString fp (n, untilHeading rest)] else [])
   else []) ++ sectionChunks toString fp rest.
Proof.
  unfold sectionChunks. cbn [sections].
  destruct (isHeading n); [|reflexivity].
  cbn [filter]. destruct (yieldsChunk toString (n, untilHeading rest)); reflexivity.
Qed.

(** Loop invariant of the traversal: after the nodes [ns], a final
    [saveChunk] has produced the chunks already there, the chunk of the
    section that was open (its content completed by the blocks of [ns]
    before the next heading), and the chunks of the sections of [ns]. *)
Lemma run_sections (fp : string) (ns : list Node) :
  forall st,
    chunks (saveChunk fp (fold_left (fun acc m => visitor toString fp m acc) ns st)) =
    chunks (saveChunk fp
              (withContent st
                 (currentContent st ++
                  map (renderBlock toString) (contentBlocks (untilHeading ns)))))
    ++ sectionChunks toString fp ns.
Proof.
  induction ns as [|n rest IH]; intros st.
  - cbn. rewrite !app_nil_r, withContent_same. reflexivity.
  - cbn [fold_left]. rewrite IH, sectionChunks_cons, visitor_cases.
    cbn [untilHeading]. destruct (isHeading n) eqn:Hh.
    + cbn [currentContent app contentBlocks filter map].
      rewrite app_nil_r, withContent_same, app_assoc. f_equal.
      unfold saveChunk at 1, withContent, yieldsChunk, chunkOfSection.
      cbn [currentHeading currentLevel currentContent chunks fst snd].
      rewrite length_map.
      replace (1 <=? List.length (contentBlocks (untilHeading rest)))
        with (0 <? List.length (contentBlocks (untilHeading rest)))
        by (unfold Nat.ltb; reflexivity).
      destruct (JS.truthy (toString n) &&
                (0 <? List.length (contentBlocks (untilHeading rest))));
        cbn [chunks]; [reflexivity | now rewrite app_nil_r].
    + cbn [app]. f_equal. f_equal. unfold contentBlocks. cbn [filter].
      destruct (isContentBlock n).
      * unfold pushContent, withContent.
        cbn [currentHeading currentLevel currentContent chunks map].
        now rewrite <- app_assoc.
      * reflexivity.
Qed.

Lemma sections_no_heading (ns : list Node) :
  forallb (fun n => negb (isHeading n)) ns = true -> sections ns = [].
Proof.
  induction ns as [|n rest IH]; cbn; [reflexivity|].
  destruct (isHeading n); cbn; [discriminate | exact IH].
Qed.

(** C1. [parseMarkdown] emits exactly one chunk for each heading section
    of the document (the nodes in document order, cut at every heading)
    whose heading text is not empty and which holds at least one
    paragraph, code block, list or blockquote, in document order; the
    other sections yield nothing, and without any heading the result is
    empty. *)
Theorem parseMarkdown_one_chunk_per_section (content filePath : string) :
  parseMarkdown remarkParse toString content filePath =
    map (chunkOfSection toString filePath)
        (filter (yieldsChunk toString)
                (sections (preorder (remarkParse content))))
  /\ (forallb (fun n => negb (isHeading n)) (preorder (remarkParse content)) = true ->
      parseMarkdown remarkParse toString content filePath = []).
Proof.
  assert (E : parseMarkdown remarkParse toString content filePath =
              sectionChunks toString filePath (preorder (remarkParse content))).
  { unfold parseMarkdown, parseTree. rewrite visit_preorder, run_sections.
    unfold saveChunk, withContent. cbn. reflexivity. }
  split; [exact E|].
  intros Hno. rewrite E. unfold sectionChunks.
  now rewrite (sections_no_heading _ Hno).
Qed.

End GuideFacts.

(** C1 at a document without heading: no chunk. *)
Lemma parseMarkdown_no_heading_no_chunk :
  Guide.parseMarkdown (fun _ => Samples.noHeading) Guide.mdastToString
                      "Hello world." "docs/intro.md" = [].
Proof.
  apply (proj2 (parseMarkdown_one_chunk_per_section
                  (fun _ => Samples.noHeading) Guide.mdastToString
                  "Hello world." "docs/intro.md")).
  reflexivity.
Defined.

(** The scenario of the specification: two headings, each followed by a
    paragraph, give two chunks. *)
Example parseMarkdown_intro_details :
  map (fun c => (Guide.title c, Guide.headingLevel c, Guide.content c))
      (Guide.parseMarkdown (fun _ => Samples.introDetails) Guide.mdastToString
                           "" "docs/intro.md")
  = [("Intro", 1, "Hello world."); ("Details", 2, "More info.")].
Proof. reflexivity. Qed.

(** The text of a heading that holds an image is read with the
    alternative text of the image. *)
Example mdastToString_image :
  Guide.mdastToString
    (Guide.mkNode "heading" None 1 None
       [Samples.text "Logo "; Guide.mkNode "image" None 0 None [] (Some "GalaChain")]
       None)
  = "Logo GalaChain".
Proof. reflexivity. Qed.

(* ================================================================== *)
(** * Properties of the reference parser *)
(* ================================================================== *)

Section StringFacts.

Lemma append_empty_r (s : string) : s ^^ "" = s.
Proof. induction s as [|c s IH]; cbn; [reflexivity | now rewrite IH]. Qed.

Lemma append_assoc (a b c : string) : (a ^^ b) ^^ c = a ^^ (b ^^ c).
Proof. induction a as [|x a IH]; cbn; [reflexivity | now rewrite IH]. Qed.

Lemma append_char_l (a : string) (c : ascii) (b : string) :
  (a ^^ String c "") ^^ b = a ^^ String c b.
Proof. now rewrite append_assoc. Qed.

(** [span] splits a run of characters followed by a character outside
    the class. *)
Lemma span_run (p : ascii -> bool) (w : string) (c : ascii) (rest : string) :
  forallb p (list_ascii_of_string w) = true -> p c = false ->
  Rx.span p (w ^^ String c rest) = (w, String c rest).
Proof.
  intros Hw Hc. induction w as [|x w IH]; cbn in *.
  - now rewrite Hc.
  - apply andb_prop in Hw as [Hx Hw]. now rewrite Hx, (IH Hw).
Qed.

End StringFacts.

Section SplitParamsFacts.

Import Typedoc.

Lemma groupsFrom_nonempty (s : string) : forall d, groupsFrom d s <> [].
Proof.
  induction s as [|c s IH]; intros d; cbn; [discriminate|].
  destruct (isOpener c); [destruct (groupsFrom (d + 1) s); discriminate|].
  destruct (isCloser c); [destruct (groupsFrom (d - 1) s); discriminate|].
  destruct (Ascii.eqb c "," && (d =? 0)%Z); [discriminate|].
  destruct (groupsFrom d s); discriminate.
Qed.

Lemma prependTo_char (cur : string) (c : ascii) (gs : list string) :
  prependTo cur (match gs with [] => [String c ""] | g :: gs' => String c g :: gs' end) =
  prependTo (cur ^^ String c "") gs.
Proof.
  destruct gs as [|g gs']; cbn.
  - reflexivity.
  - now rewrite append_char_l.
Qed.

(** The loop of [splitParams] computes the top-level groups: refinement
    of the recursive definition by the loop with its accumulators. *)
Lemma splitParams_loop (s : string) :
  forall ps cur d,
    let st := fold_left splitStep (list_ascii_of_string s) (mkSplit ps cur d) in
    parts st = ps ++ map JS.trim (removelast (prependTo cur (groupsFrom d s))) /\
    current st = last (prependTo cur (groupsFrom d s)) "".
Proof.
  induction s as [|c s IH]; intros ps cur d.
  - cbn. now rewrite app_nil_r, append_empty_r.
  - cbn [list_ascii_of_string fold_left groupsFrom]. cbv zeta.
    unfold splitStep at 2 4. cbn [parts current depth].
    destruct (isOpener c).
    { rewrite prependTo_char. apply IH. }
    destruct (isCloser c).
    { rewrite prependTo_char. apply IH. }
    destruct (Ascii.eqb c "," && (d =? 0)%Z).
    + specialize (IH (ps ++ [JS.trim cur]) "" d). cbv zeta in IH.
      destruct IH as [IHp IHc]. rewrite IHp, IHc.
      pose proof (groupsFrom_nonempty s d) as Hne.
      destruct (groupsFrom d s) as [|g gs]; [now elim Hne|].
      cbn [prependTo append]. rewrite append_empty_r.
      split.
      * rewrite <- app_assoc. reflexivity.
      * reflexivity.
    + rewrite prependTo_char. apply IH.
Qed.

Lemma prependTo_empty (gs : list string) : gs <> [] -> prependTo "" gs = gs.
Proof. destruct gs; [now intros H; elim H | reflexivity]. Qed.

(** [splitParams] returns the trimmed top-level groups, without the last
    one when it is blank. *)
Lemma splitParams_groups (s : string) :
  splitParams s =
  if JS.truthy (JS.trim (last (loopGroups s) ""))
  then map JS.trim (loopGroups s)
  else map JS.trim (removelast (loopGroups s)).
Proof.
  unfold splitParams, loopGroups.
  destruct (splitParams_loop s [] "" 0%Z) as [Hp Hc]. cbv zeta in Hp, Hc.
  rewrite Hp, Hc, prependTo_empty by apply groupsFrom_nonempty.
  cbn [app].
  destruct (JS.truthy (JS.trim (last (groupsFrom 0 s) ""))); [|reflexivity].
  rewrite <- map_last.
  now rewrite <- app_removelast_last by apply groupsFrom_nonempty.
Qed.

Lemma truthy_false (s : string) : JS.truthy s = false -> s = "".
Proof. destruct s; [reflexivity | discriminate]. Qed.

Lemma paramOfPart_empty : paramOfPart "" = [].
Proof. reflexivity. Qed.

(** The parameters pushed for the parts are those of the trimmed
    top-level groups: the group dropped by [splitParams] is blank and
    would push nothing. *)
Lemma params_of_splitParams (s : string) :
  flat_map paramOfPart (splitParams s) =
  flat_map paramOfPart (map JS.trim (loopGroups s)).
Proof.
  rewrite splitParams_groups.
  destruct (JS.truthy (JS.trim (last (loopGroups s) ""))) eqn:E; [reflexivity|].
  apply truthy_false in E.
  rewrite (app_removelast_last (l := loopGroups s) "") at 2
    by apply groupsFrom_nonempty.
  rewrite map_app, flat_map_app. cbn [map flat_map].
  now rewrite E, paramOfPart_empty, !app_nil_r.
Qed.

End SplitParamsFacts.

Section ParseParamsFacts.

Import Typedoc.

(** A matcher that fails on word characters is tried after the word. *)
Lemma firstFrom_skip_word {A : Type} (m : option ascii -> string -> option A)
      (w rest : string) (a : A) :
  isWordString w = true ->
  (forall prev c r, JS.isWord c = true -> m prev (String c r) = None) ->
  (forall prev, m prev rest = Some a) ->
  forall idx prev, exists j, Rx.firstFrom m idx prev (w ^^ rest) = Some (a, j).
Proof.
  intros Hw Hfail Hok. unfold isWordString in Hw.
  induction w as [|c w IH]; intros idx prev; cbn in *.
  - exists idx. destruct rest; cbn; now rewrite Hok.
  - apply andb_prop in Hw as [Hc Hw]. rewrite (Hfail _ _ _ Hc).
    apply (IH Hw).
Qed.

Lemma first_skip_word {A : Type} (m : option ascii -> string -> option A)
      (w rest : string) (a : A) :
  isWordString w = true ->
  (forall prev c r, JS.isWord c = true -> m prev (String c r) = None) ->
  (forall prev, m prev rest = Some a) ->
  Rx.first m (w ^^ rest) = Some a.
Proof.
  intros Hw Hfail Hok. unfold Rx.first.
  destruct (firstFrom_skip_word m w rest a Hw Hfail Hok 0 None) as [j ->].
  reflexivity.
Qed.

Lemma first_here {A : Type} (m : option ascii -> string -> option A)
      (s : string) (a : A) :
  m None s = Some a -> Rx.first m s = Some a.
Proof. intros H. unfold Rx.first. destruct s; cbn; now rewrite H. Qed.

Lemma word_not_paren (c : ascii) : JS.isWord c = true -> Ascii.eqb c "(" = false.
Proof.
  destruct c as [[] [] [] [] [] [] [] []]; vm_compute; congruence.
Qed.

(** The argument text of [name(args)...] is [args]. *)
Lemma sigParamsMatch_shape (ident args post : string) :
  isWordString ident = true -> noClosingParen args = true ->
  sigParamsMatch (ident ^^ "(" ^^ args ^^ ")" ^^ post) = Some args.
Proof.
  intros Hi Ha. unfold sigParamsMatch.
  apply first_skip_word; [exact Hi | |].
  - intros _ c r Hc. pose proof (word_not_paren c Hc) as Hp.
    destruct c as [[] [] [] [] [] [] [] []]; try reflexivity; discriminate.
  - intros _. cbn [append].
    rewrite (span_run (fun c => negb (Ascii.eqb c ")")) args ")" post Ha eq_refl).
    reflexivity.
Qed.

(** The name of [name(args)...] is [name]. *)
Lemma nameBeforeParen_shape (ident rest : string) :
  JS.truthy ident = true -> isWordString ident = true ->
  nameBeforeParen (ident ^^ "(" ^^ rest) = Some ident.
Proof.
  intros Hne Hi. apply first_here. unfold nameBeforeParenAt. cbn [append].
  rewrite (span_run JS.isWord ident "(" rest Hi eq_refl), Hne.
  reflexivity.
Qed.

Lemma space_not_separator (c : ascii) :
  JS.isSpace c = true ->
  isOpener c = false /\ isCloser c = false /\ Ascii.eqb c "," = false.
Proof.
  destruct c as [[] [] [] [] [] [] [] []]; vm_compute; intuition congruence.
Qed.

Lemma trimStart_blank (s : string) :
  JS.trimStart s = "" -> forallb JS.isSpace (list_ascii_of_string s) = true.
Proof.
  induction s as [|c s IH]; cbn; [reflexivity|].
  destruct (JS.isSpace c); [exact IH | discriminate].
Qed.

Lemma trimEnd_nonblank (c : ascii) (s : string) :
  JS.isSpace c = false -> JS.trimEnd (String c s) <> "".
Proof.
  intros Hc. cbn. destruct (JS.trimEnd s); [now rewrite Hc | discriminate].
Qed.

Lemma trim_blank (s : string) :
  JS.trim s = "" -> forallb JS.isSpace (list_ascii_of_string s) = true.
Proof.
  unfold JS.trim. intros H. apply trimStart_blank.
  destruct (JS.trimStart s) as [|c t] eqn:E; [reflexivity|].
  exfalso. revert H. apply trimEnd_nonblank.
  clear -E. induction s as [|x s IH]; cbn in E; [discriminate|].
  destruct (JS.isSpace x) eqn:Hx; [now apply IH | now injection E as -> _].
Qed.

Lemma groups_of_blank (s : string) (d : Z) :
  forallb JS.isSpace (list_ascii_of_string s) = true -> groupsFrom d s = [s].
Proof.
  induction s as [|c s IH]; cbn; [reflexivity|]. intros H.
  apply andb_prop in H as [Hc Hs].
  destruct (space_not_separator c Hc) as (-> & -> & ->). cbn.
  now rewrite (IH Hs).
Qed.

(** The parameters read from [name(args)...]: one for each top-level
    group of [args] that has the shape [name?: Type], in order. *)
Lemma signatureParams_shape (ident args post : string) :
  isWordString ident = true -> noClosingParen args = true ->
  signatureParams (ident ^^ "(" ^^ args ^^ ")" ^^ post) =
  flat_map paramOfPart (map JS.trim (loopGroups args)).
Proof.
  intros Hi Ha. unfold signatureParams.
  rewrite (sigParamsMatch_shape ident args post Hi Ha).
  destruct (JS.truthy (JS.trim args)) eqn:E.
  - apply params_of_splitParams.
  - apply truthy_false in E. unfold loopGroups.
    rewrite (groups_of_blank args 0%Z (trim_blank args E)).
    cbn. now rewrite E.
Qed.

(** ** The bullet-list pass *)

Lemma updateFirst_nth (n : string) (f : ParamInfo.t -> ParamInfo.t)
      (params params' : list ParamInfo.t) :
  updateFirst n f params = Some params' ->
  forall i p, nth_error params i = Some p ->
    exists q, nth_error params' i = Some q /\
              (q = p \/ (ParamInfo.name p = n /\ q = f p)).
Proof.
  revert params'. induction params as [|x params IH]; intros params' H i p Hi.
  - discriminate.
  - cbn in H. destruct (String.eqb (ParamInfo.name x) n) eqn:E.
    + injection H as <-. destruct i as [|i]; cbn in *.
      * injection Hi as <-. exists (f x). split; [reflexivity|].
        right. split; [now apply String.eqb_eq | reflexivity].
      * exists p. split; [exact Hi | now left].
    + destruct (updateFirst n f params) as [ps|]; [|discriminate].
      injection H as <-. destruct i as [|i]; cbn in *.
      * injection Hi as <-. exists x. split; [reflexivity | now left].
      * apply (IH ps eq_refl i p Hi).
Qed.

(** What one bullet-list match does to a parameter that is already
    there. *)
Lemma enrichStep_nth (params : list ParamInfo.t) (m : BulletMatch) (i : nat)
      (p : ParamInfo.t) :
  nth_error params i = Some p ->
  exists q, nth_error (enrichStep params m) i = Some q /\
    ParamInfo.name q = ParamInfo.name p /\
    ParamInfo.optional q = ParamInfo.optional p /\
    ((paramName m = ParamInfo.name p -> paramType m = None) ->
     ParamInfo.type q = ParamInfo.type p) /\
    ((paramName m = ParamInfo.name p -> paramDesc m = None) ->
     ParamInfo.description q = ParamInfo.description p).
Proof.
  intros Hi. unfold enrichStep.
  destruct (updateFirst (paramName m) (enrichExisting m) params) as [params'|] eqn:E.
  - destruct (updateFirst_nth _ _ _ _ E i p Hi) as (q & Hq & [-> | [Hn ->]]).
    + exists p. repeat split; trivial.
    + exists (enrichExisting m p). split; [exact Hq|]. unfold enrichExisting. cbn.
      repeat split; trivial.
      * intros H. now rewrite (H (eq_sym Hn)).
      * intros H. now rewrite (H (eq_sym Hn)).
  - exists p. split; [|repeat split; trivial].
    destruct (paramType m), (paramDesc m); trivial;
      rewrite nth_error_app1; trivial; apply nth_error_Some; congruence.
Qed.

Lemma enrich_nth (ms : list BulletMatch) :
  forall params i p,
    nth_error params i = Some p ->
    exists q, nth_error (fold_left enrichStep ms params) i = Some q /\
      ParamInfo.name q = ParamInfo.name p /\
      ParamInfo.optional q = ParamInfo.optional p /\
      ((forall m, In m ms -> paramName m = ParamInfo.name p -> paramType m = None) ->
       ParamInfo.type q = ParamInfo.type p) /\
      ((forall m, In m ms -> paramName m = ParamInfo.name p -> paramDesc m = None) ->
       ParamInfo.description q = ParamInfo.description p).
Proof.
  induction ms as [|m ms IH]; intros params i p Hi.
  - exists p. cbn. repeat split; trivial.
  - cbn [fold_left].
    destruct (enrichStep_nth params m i p Hi) as (q1 & Hq1 & Hn1 & Ho1 & Ht1 & Hd1).
    destruct (IH _ i q1 Hq1) as (q & Hq & Hn & Ho & Ht & Hd).
    exists q. split; [exact Hq|].
    split; [congruence|]. split; [congruence|]. split.
    + intros H. rewrite Ht, Ht1; trivial.
      * intros E. apply H; [now left | exact E].
      * intros m' Hm' E. apply H; [now right | congruence].
    + intros H. rewrite Hd, Hd1; trivial.
      * intros E. apply H; [now left | exact E].
      * intros m' Hm' E. apply H; [now right | congruence].
Qed.

Lemma updateFirst_first (n : string) (f : ParamInfo.t -> ParamInfo.t)
      (params : list ParamInfo.t) :
  forall i p,
    nth_error params i = Some p -> ParamInfo.name p = n -> firstOfName n i params ->
    exists params', updateFirst n f params = Some params' /\
                    nth_error params' i = Some (f p).
Proof.
  induction params as [|x params IH]; intros i p Hi Hn Hfirst.
  - destruct i; discriminate.
  - cbn. destruct i as [|i]; cbn in Hi.
    + injection Hi as ->. rewrite (proj2 (String.eqb_eq _ _) Hn).
      eexists. split; reflexivity.
    + assert (Hx : String.eqb (ParamInfo.name x) n = false).
      { apply String.eqb_neq. apply (Hfirst 0 x); [lia | reflexivity]. }
      rewrite Hx.
      destruct (IH i p Hi Hn) as (params' & -> & Hp).
      { intros j q Hj Hq. apply (Hfirst (S j) q); [lia | exact Hq]. }
      eexists. split; [reflexivity | exact Hp].
Qed.

(** One bullet-list match, at a parameter that is the first of its
    name: the match updates it when it has that name and leaves it alone
    otherwise. *)
Lemma enrichStep_first (params : list ParamInfo.t) (m : BulletMatch) (i : nat)
      (p : ParamInfo.t) :
  nth_error params i = Some p ->
  firstOfName (ParamInfo.name p) i params ->
  nth_error (enrichStep params m) i =
    Some (if String.eqb (paramName m) (ParamInfo.name p) then enrichExisting m p else p) /\
  firstOfName (ParamInfo.name p) i (enrichStep params m).
Proof.
  intros Hi Hfirst. split.
  - destruct (String.eqb_spec (paramName m) (ParamInfo.name p)) as [E|N].
    + unfold enrichStep.
      destruct (updateFirst_first (paramName m) (enrichExisting m) params i p Hi
                  (eq_sym E)) as (params' & -> & Hp); [now rewrite E | exact Hp].
    + destruct (enrichStep_nth params m i p Hi) as (q & Hq & _).
      rewrite Hq. f_equal. revert Hq. unfold enrichStep.
      destruct (updateFirst (paramName m) (enrichExisting m) params) as [params'|] eqn:Eu.
      * intros Hq. destruct (updateFirst_nth _ _ _ _ Eu i p Hi) as (q' & Hq' & [-> | [Hn _]]);
          [congruence | now elim N].
      * intros Hq.
        assert (Hlt : i < List.length params) by (apply nth_error_Some; congruence).
        destruct (paramType m), (paramDesc m);
          try rewrite nth_error_app1 in Hq by exact Hlt; congruence.
  - intros j q Hj Hq.
    assert (Hlt : j < List.length params).
    { assert (i < List.length params) by (apply nth_error_Some; congruence). lia. }
    destruct (nth_error params j) as [pj|] eqn:Ej;
      [|apply nth_error_None in Ej; lia].
    destruct (enrichStep_nth params m j pj Ej) as (q' & Hq' & Hname & _).
    assert (q = q') by congruence. subst q'. rewrite Hname.
    now apply (Hfirst j pj).
Qed.

(** All bullet-list matches, at a parameter that is the first of its
    name. *)
Lemma enrich_first (ms : list BulletMatch) :
  forall params i p,
    nth_error params i = Some p ->
    firstOfName (ParamInfo.name p) i params ->
    exists q,
      nth_error (fold_left enrichStep ms params) i = Some q /\
      ParamInfo.name q = ParamInfo.name p /\
      ParamInfo.type q = typeAfter (ParamInfo.name p) ms (ParamInfo.type p) /\
      ParamInfo.description q =
        descriptionAfter (ParamInfo.name p) ms (ParamInfo.description p).
Proof.
  induction ms as [|m ms IH]; intros params i p Hi Hfirst.
  - exists p. cbn. repeat split; trivial.
  - cbn [fold_left]. destruct (enrichStep_first params m i p Hi Hfirst) as [Hstep Hf].
    unfold typeAfter, descriptionAfter. cbn [fold_left].
    destruct (String.eqb (paramName m) (ParamInfo.name p)).
    + destruct (IH _ i (enrichExisting m p) Hstep Hf) as (q & Hq & Hn & Ht & Hd).
      exists q. split; [exact Hq|]. split; [exact Hn|]. split; [exact Ht | exact Hd].
    + destruct (IH _ i p Hstep Hf) as (q & Hq & Hn & Ht & Hd).
      exists q. split; [exact Hq|]. split; [exact Hn|]. split; [exact Ht | exact Hd].
Qed.

End ParseParamsFacts.

Section MemberFacts.

Import Typedoc.

Lemma parseMemberFromSignature_name (signature context : string) (m : MemberInfo.t) :
  parseMemberFromSignature signature context = Some m ->
  nameBeforeParen signature = Some (MemberInfo.name m) /\
  MemberInfo.params m = parseParams context signature.
Proof.
  unfold parseMemberFromSignature.
  destruct (nameBeforeParen signature) as [n|]; [|discriminate].
  intros H. injection H as <-. now split.
Qed.

End MemberFacts.

Section ReferenceParserClaims.

Import Typedoc.

(** C4, as stated, fails: the signature gives [a] the type [string], and
    the bullet line [- a (number) - the a] replaces it by [number]. *)
Lemma bullet_line_overwrites_type :
  ~ neverOverwritten "- a (number) - the a" "foo(a: string)".
Proof.
  intros H.
  destruct (H 0 (ParamInfo.mk "a" "string" "" false)
              (ParamInfo.mk "a" "number" "the a" false) eq_refl eq_refl) as [Ht _].
  specialize (Ht eq_refl). discriminate.
Qed.

(** C4 (amended). The bullet-list pass keeps every parameter read from
    the signature at its position, with its name and its optional flag.
    Its type is kept when no bullet-list match of that name carries a
    parenthesized type, and its description is kept when no bullet-list
    match of that name carries a description.  For the first parameter
    of a name, the type after the pass is the one carried by the last
    bullet-list match of that name that carries a type (the type of the
    signature is replaced), and likewise for the description. *)
Theorem bullet_pass_on_signature_params
        (section signature : string) (i : nat) (p : ParamInfo.t) :
  nth_error (signatureParams signature) i = Some p ->
  exists q,
    nth_error (parseParams section signature) i = Some q /\
    ParamInfo.name q = ParamInfo.name p /\
    ParamInfo.optional q = ParamInfo.optional p /\
    ((forall m, In m (paramDescMatches section) ->
                paramName m = ParamInfo.name p -> paramType m = None) ->
     ParamInfo.type q = ParamInfo.type p) /\
    ((forall m, In m (paramDescMatches section) ->
                paramName m = ParamInfo.name p -> paramDesc m = None) ->
     ParamInfo.description q = ParamInfo.description p) /\
    (firstOfName (ParamInfo.name p) i (signatureParams signature) ->
     ParamInfo.type q =
       typeAfter (ParamInfo.name p) (paramDescMatches section) (ParamInfo.type p) /\
     ParamInfo.description q =
       descriptionAfter (ParamInfo.name p) (paramDescMatches section)
                        (ParamInfo.description p)).
Proof.
  intros Hi. unfold parseParams.
  destruct (enrich_nth (paramDescMatches section) _ i p Hi) as (q & Hq & Hn & Ho & Ht & Hd).
  exists q. repeat split; trivial.
  - destruct (enrich_first (paramDescMatches section) _ i p Hi H) as (q' & Hq' & _ & Ht' & _).
    congruence.
  - destruct (enrich_first (paramDescMatches section) _ i p Hi H) as (q' & Hq' & _ & _ & Hd').
    congruence.
Qed.

(** The amended C4 at a bullet line that carries a description only. *)
Lemma bullet_pass_keeps_type_of_a :
  exists q,
    nth_error (parseParams "- a - the a" "foo(a: string)") 0 = Some q /\
    ParamInfo.name q = "a" /\
    ParamInfo.optional q = false /\
    ((forall m, In m (paramDescMatches "- a - the a") ->
                paramName m = "a" -> paramType m = None) ->
     ParamInfo.type q = "string") /\
    ((forall m, In m (paramDescMatches "- a - the a") ->
                paramName m = "a" -> paramDesc m = None) ->
     ParamInfo.description q = "") /\
    (firstOfName "a" 0 (signatureParams "foo(a: string)") ->
     ParamInfo.type q = typeAfter "a" (paramDescMatches "- a - the a") "string" /\
     ParamInfo.description q = descriptionAfter "a" (paramDescMatches "- a - the a") "").
Proof.
  apply (bullet_pass_on_signature_params
           "- a - the a" "foo(a: string)" 0 (ParamInfo.mk "a" "string" "" false)).
  reflexivity.
Defined.

(** At that bullet line the type stays [string] and the description
    becomes [the a]; a bullet line with a type replaces the type. *)
Example bullet_pass_samples :
  parseParams "- a - the a" "foo(a: string)" = [ParamInfo.mk "a" "string" "the a" false] /\
  parseParams "- a (number)" "foo(a: string)" = [ParamInfo.mk "a" "number" "" false].
Proof. split; reflexivity. Qed.

(** C5 at a failing input: two top-level sections of the same name give
    two declarations of that name. *)
Theorem top_level_pass_keeps_duplicate_names :
  map ClassInfo.name (parseTypedocMarkdown Samples.twoFoo Samples.apiPath)
    = ["Foo"; "Foo"] /\
  ~ NoDup (map ClassInfo.name (parseTypedocMarkdown Samples.twoFoo Samples.apiPath)).
Proof.
  assert (E : map ClassInfo.name (parseTypedocMarkdown Samples.twoFoo Samples.apiPath)
              = ["Foo"; "Foo"]) by (vm_compute; reflexivity).
  split; [exact E|]. rewrite E. intros H.
  inversion H as [|x l Hnot _]. apply Hnot. now left.
Qed.

End ReferenceParserClaims.

(* ================================================================== *)
(** * JSON text: what is written is read back *)
(* ================================================================== *)

Section JsonFacts.

Import JSON.

(** Reading the text written for one character appends that character. *)
Lemma run_quoteChar (c : ascii) :
  forall isKey acc stack t,
    run (InStr isKey acc, stack) (quoteChar c ^^ t) =
    run (InStr isKey (acc ^^ String c ""), stack) t.
Proof.
  destruct c as [[] [] [] [] [] [] [] []]; intros; reflexivity.
Qed.

Lemma run_quoteBody (s : string) :
  forall isKey acc stack t,
    run (InStr isKey acc, stack) (quoteBody s ^^ t) =
    run (InStr isKey (acc ^^ s), stack) t.
Proof.
  induction s as [|c s IH]; intros isKey acc stack t.
  - cbn. now rewrite append_empty_r.
  - cbn [quoteBody]. rewrite append_assoc, run_quoteChar, IH.
    now rewrite append_char_l.
Qed.

(** A quoted string is read back as a complete string value. *)
Lemma run_quote (s : string) (allowClose : bool) (stack : list frame) (t : string) :
  run (ExpectValue allowClose, stack) (quote s ^^ t) =
  match complete (Str s) stack with
  | Some st => run st t
  | None => None
  end.
Proof.
  unfold quote. cbn [append run step].
  change (isJsonSpace dquote) with false.
  change (Ascii.eqb dquote dquote) with true. cbv iota.
  rewrite append_assoc, run_quoteBody. cbn [append run step].
  change (Ascii.eqb dquote dquote) with true. cbv iota.
  unfold endString. reflexivity.
Qed.

Lemma join_cons2 (sep x y : string) (l : list string) :
  JS.join sep (x :: y :: l) = x ^^ sep ^^ JS.join sep (y :: l).
Proof. reflexivity. Qed.

(** The elements of an array of strings are read back in order. *)
Lemma run_elements (l : list string) :
  l <> [] ->
  forall allowClose done stack t,
    run (ExpectValue allowClose, InArr done :: stack)
        (JS.join "," (map quote l) ^^ t) =
    run (AfterValue, InArr (done ++ map Str l) :: stack) t.
Proof.
  induction l as [|x l IH]; intros Hne allowClose done stack t; [now elim Hne|].
  destruct l as [|y l].
  - cbn [map JS.join String.concat]. now rewrite run_quote.
  - cbn [map]. rewrite join_cons2, !append_assoc, run_quote.
    cbn [complete append run step].
    change (isJsonSpace ",") with false. change (Ascii.eqb "," ",") with true.
    cbv iota. change (quote y :: map quote l) with (map quote (y :: l)).
    rewrite IH by discriminate.
    now rewrite <- app_assoc.
Qed.

Lemma stringify_strings (l : list string) :
  stringify (ofStrings l) = "[" ^^ JS.join "," (map quote l) ^^ "]".
Proof.
  unfold ofStrings. cbn [stringify]. rewrite map_map. reflexivity.
Qed.

(** [JSON.parse(JSON.stringify(l))] for a list of strings [l]. *)
Lemma parse_stringify_strings (l : list string) :
  parse (stringify (ofStrings l)) = Some (ofStrings l).
Proof.
  rewrite stringify_strings. unfold parse. cbn [append run step].
  destruct l as [|x l].
  - reflexivity.
  - change (isJsonSpace "[") with false. cbn -[quote JS.join map run].
    rewrite run_elements by discriminate. reflexivity.
Qed.

Lemma toStrings_ofStrings (l : list string) : toStrings (ofStrings l) = Some l.
Proof.
  unfold toStrings, ofStrings.
  induction l as [|x l IH]; cbn; [reflexivity | now rewrite IH].
Qed.

Lemma stringify_strings_truthy (l : list string) :
  JS.truthy (stringify (ofStrings l)) = true.
Proof. now rewrite stringify_strings. Qed.

(** What [insertClass] writes for a list of strings, [getClass] reads
    back. *)
Lemma safeJsonParse_strings (l : list string) :
  Queries.safeJsonParse toStrings (Some (stringify (ofStrings l))) [] = l.
Proof.
  unfold Queries.safeJsonParse.
  now rewrite stringify_strings_truthy, parse_stringify_strings, toStrings_ofStrings.
Qed.

End JsonFacts.

(* ================================================================== *)
(** * Properties of the store and of the query layer *)
(* ================================================================== *)

Section SortFacts.

Context {A : Type} (le : A -> A -> bool).

Lemma insertSorted_In (x y : A) (l : list A) :
  In y (Queries.insertSorted le x l) <-> y = x \/ In y l.
Proof.
  induction l as [|z l IH]; cbn.
  - intuition congruence.
  - destruct (le x z); cbn; [intuition congruence|].
    rewrite IH. intuition congruence.
Qed.

Lemma sortBy_In (y : A) (l : list A) : In y (Queries.sortBy le l) <-> In y l.
Proof.
  unfold Queries.sortBy. induction l as [|x l IH]; cbn; [reflexivity|].
  rewrite insertSorted_In, IH. intuition congruence.
Qed.

Hypothesis le_total : forall a b, le a b = true \/ le b a = true.
Hypothesis le_trans : forall a b c, le a b = true -> le b c = true -> le a c = true.

Lemma insertSorted_sorted (x : A) (l : list A) :
  StronglySorted (fun a b => le a b = true) l ->
  StronglySorted (fun a b => le a b = true) (Queries.insertSorted le x l).
Proof.
  induction 1 as [|z l Hl IH Hz]; cbn.
  - repeat constructor.
  - destruct (le x z) eqn:E.
    + constructor; [now constructor|]. constructor; [exact E|].
      eapply Forall_impl; [|exact Hz]. intros b Hb. now apply (le_trans x z b).
    + constructor; [exact IH|]. apply Forall_forall. intros b Hb.
      apply insertSorted_In in Hb as [-> | Hb].
      * destruct (le_total x z) as [H|H]; [congruence | exact H].
      * now apply (proj1 (Forall_forall _ _) Hz).
Qed.

Lemma sortBy_sorted (l : list A) :
  StronglySorted (fun a b => le a b = true) (Queries.sortBy le l).
Proof.
  unfold Queries.sortBy. induction l as [|x l IH]; cbn; [constructor|].
  now apply insertSorted_sorted.
Qed.

Lemma firstn_In (n : nat) (l : list A) (y : A) : In y (firstn n l) -> In y l.
Proof.
  revert n. induction l as [|x l IH]; intros [|n]; cbn; try tauto.
  intros [-> | H]; [now left | right; now apply (IH n)].
Qed.

Lemma firstn_sorted (R : A -> A -> Prop) (n : nat) (l : list A) :
  StronglySorted R l -> StronglySorted R (firstn n l).
Proof.
  intros H. revert n. induction H as [|x l Hl IH Hx]; intros [|n]; cbn; try constructor.
  - apply IH.
  - apply Forall_forall. intros y Hy.
    apply (proj1 (Forall_forall _ _) Hx). eapply firstn_In; exact Hy.
Qed.

End SortFacts.

Section RelevanceFacts.

Import Queries.

Lemma relevanceStep_points (text : string) (score : Z) (term : string) :
  relevanceStep text score term =
  (score - occurrencePoints text term - firstWordPoints text term)%Z.
Proof.
  unfold relevanceStep, occurrencePoints, firstWordPoints. cbv zeta.
  destruct (hasWord text term);
    [|destruct (JS.includes (JS.toLowerCase text) term)];
    destruct (String.eqb _ term || JS.includes _ term); lia.
Qed.

Lemma relevanceLoop_points (text : string) (terms : list string) :
  forall score,
    fold_left (relevanceStep text) terms score =
    (score - sumZ (map (occurrencePoints text) terms)
           - sumZ (map (firstWordPoints text) terms))%Z.
Proof.
  induction terms as [|t terms IH]; intros score; cbn [fold_left map sumZ fold_right].
  - lia.
  - rewrite IH, relevanceStep_points. unfold sumZ. lia.
Qed.

Lemma sliceTo_sorted {A : Type} (R : A -> A -> Prop) (limit : Z) (l : list A) :
  StronglySorted R l -> StronglySorted R (sliceTo limit l).
Proof.
  intros H. unfold sliceTo. destruct (limit <? 0)%Z; now apply firstn_sorted.
Qed.

(** C3, as stated, fails: for the text [token-transfer guide] and the
    terms [token] and [transfer] the formula gives 100 - 20 - 30 - 20 - 30
    - 5 - 5 = -10, and the score is 0. *)
Lemma score_is_clamped_at_zero :
  calculateRelevance "token-transfer guide" ["token"; "transfer"] = 0%Z /\
  specifiedScore "token-transfer guide" ["token"; "transfer"] = (-10)%Z /\
  calculateRelevance "token-transfer guide" ["token"; "transfer"]
    <> specifiedScore "token-transfer guide" ["token"; "transfer"].
Proof. repeat split; vm_compute; congruence. Qed.

(** C3 (amended). The relevance score is the larger of 0 and the value
    of the formula: 100, minus 20 for each term that occurs as a whole
    word (else 10 for each term that occurs as a substring), minus 30 for
    each term that the first word of the text equals or contains, minus 5
    for a text under 100 characters and 5 more under 50.  The results of
    a search are in ascending order of score. *)
Theorem relevance_is_formula_clamped
        (text : string) (terms : list string)
        (db : Store.t) (query pkg type : string) (limit : Z) :
  calculateRelevance text terms = Z.max 0 (specifiedScore text terms) /\
  StronglySorted (fun a b => (SearchResult.rank a <= SearchResult.rank b)%Z)
                 (searchDocs db query pkg type limit).
Proof.
  split.
  - unfold calculateRelevance, specifiedScore, shortTextPoints. cbv zeta.
    rewrite relevanceLoop_points.
    destruct (String.length text <? 100), (String.length text <? 50);
      apply (f_equal (Z.max 0)); unfold sumZ; lia.
  - assert (Hsorted : forall l,
              StronglySorted (fun a b => (SearchResult.rank a <= SearchResult.rank b)%Z)
                             (sliceTo limit (sortBy rankLe l))).
    { intros l. apply sliceTo_sorted.
      eapply StronglySorted_ind with
        (P := StronglySorted (fun a b => (SearchResult.rank a <= SearchResult.rank b)%Z)).
      - constructor.
      - intros a l' _ IH Ha. constructor; [exact IH|].
        eapply Forall_impl; [|exact Ha]. intros b Hb. apply Z.leb_le. exact Hb.
      - apply sortBy_sorted.
        + intros a b. unfold rankLe. rewrite !Z.leb_le. lia.
        + intros a b c. unfold rankLe. rewrite !Z.leb_le. lia. }
    unfold searchDocs. destruct (JS.words (JS.toLowerCase query)); [constructor|].
    apply Hsorted.
Qed.

End RelevanceFacts.

Section SearchFacts.

Import Queries.

Lemma sqlLimit_In {A : Type} (limit : Z) (rows : list A) (x : A) :
  In x (sqlLimit limit rows) -> In x rows.
Proof.
  unfold sqlLimit. destruct (limit <? 0)%Z; [trivial | apply firstn_In].
Qed.

Lemma sliceTo_In {A : Type} (limit : Z) (rows : list A) (x : A) :
  In x (sliceTo limit rows) -> In x rows.
Proof. unfold sliceTo. destruct (limit <? 0)%Z; apply firstn_In. Qed.

Lemma sliceTo_length {A : Type} (limit : Z) (rows : list A) :
  (0 <= limit)%Z -> (Z.of_nat (List.length (sliceTo limit rows)) <= limit)%Z.
Proof.
  intros H. unfold sliceTo.
  destruct (limit <? 0)%Z eqn:E; [apply Z.ltb_lt in E; lia|].
  pose proof (firstn_le_length (Z.to_nat limit) rows). lia.
Qed.

Lemma allOrEq_package (pkg column : string) :
  allOrEq pkg column = true -> pkg = "all" \/ column = pkg.
Proof.
  unfold allOrEq. intros H. apply orb_prop in H as [H|H].
  - left. now apply String.eqb_eq.
  - right. now apply String.eqb_eq.
Qed.

Lemma orElse_empty (s : string) : JS.orElse s "" = s.
Proof. now destruct s. Qed.

(** The package of every row that one of the three SELECT statements
    returns passes the package filter. *)
Lemma search_rows_package (db : Store.t) (terms : list string) (pkg type : string)
      (limit : Z) (r : SearchResult.t) :
  In r (map (docResult terms) (searchDocRows db terms pkg limit)) \/
  In r (map (classResult terms) (searchClassRows db terms pkg type limit)) \/
  In r (map (memberResult terms) (searchMemberRows db terms pkg limit)) ->
  pkg = "all" \/ SearchResult.package r = pkg.
Proof.
  intros [H | [H | H]]; apply in_map_iff in H as (row & <- & Hrow);
    apply sqlLimit_In, filter_In in Hrow as [_ Hrow].
  - apply andb_prop in Hrow as [_ Hp]. now apply allOrEq_package.
  - apply andb_prop in Hrow as [Hrow _]. apply andb_prop in Hrow as [_ Hp].
    now apply allOrEq_package.
  - apply andb_prop in Hrow as [_ Hp]. destruct row as [m c].
    cbn [memberResult SearchResult.package]. rewrite orElse_empty.
    now apply allOrEq_package.
Qed.

Lemma clampLimit_range (limit : Z) :
  (1 <= Tools.clampLimit limit <= 20)%Z.
Proof. unfold Tools.clampLimit. lia. Qed.

(** C6. A search returns at most [clamp(limit, 1, 20)] results, and the
    package of every result is the package filter unless the filter is
    [all]. *)
Theorem search_is_limited_and_filtered
        (db : Store.t) (query pkg type : string) (limit : Z) :
  (Z.of_nat (List.length (searchDocs db query pkg type (Tools.clampLimit limit)))
     <= Tools.clampLimit limit)%Z /\
  Forall (fun r => pkg = "all" \/ SearchResult.package r = pkg)
         (searchDocs db query pkg type (Tools.clampLimit limit)).
Proof.
  pose proof (clampLimit_range limit) as Hrange.
  unfold searchDocs. destruct (JS.words (JS.toLowerCase query)) as [|t ts].
  - split; [cbn; lia | constructor].
  - split; [apply sliceTo_length; lia|].
    apply Forall_forall. intros r Hr.
    apply sliceTo_In, sortBy_In in Hr.
    apply (search_rows_package db (t :: ts) pkg type (Tools.clampLimit limit)).
    cbn [app] in Hr.
    destruct (String.eqb type "all" || String.eqb type "guide");
      destruct (String.eqb type "all" || String.eqb type "class" ||
                String.eqb type "interface");
      destruct (String.eqb type "all" || String.eqb type "method");
      repeat (apply in_app_or in Hr as [Hr | Hr]); cbn in Hr; tauto.
Qed.

End SearchFacts.

Section StoreFacts.

Import Queries.

Lemma nextId_above (ids : list nat) : Forall (fun i => i < Store.nextId ids) ids.
Proof.
  unfold Store.nextId. apply Forall_forall. intros i Hi.
  pose proof (list_max_le ids (list_max ids)) as [H _].
  specialize (H (Nat.le_refl _)).
  pose proof (proj1 (Forall_forall _ _) H i Hi) as Hle. cbn beta in Hle. lia.
Qed.

Lemma increasing_snoc (ids : list nat) :
  Store.increasing ids -> Store.increasing (ids ++ [Store.nextId ids]).
Proof.
  unfold Store.increasing. generalize (nextId_above ids).
  generalize (Store.nextId ids) as n. intros n Hn Hs.
  induction Hs as [|i ids Hs IH Hi]; cbn.
  - repeat constructor.
  - inversion Hn as [|? ? Hin Hn']; subst. constructor; [now apply IH|].
    apply Forall_app. split; [exact Hi | now constructor].
Qed.

(** The class ids of a built store grow along the table. *)
Lemma built_increasing (db : Store.t) :
  Store.built db -> Store.increasing (map ClassRow.id (Store.classes db)).
Proof.
  induction 1 as [|db chunk _ IH|db cls _ IH]; cbn.
  - constructor.
  - exact IH.
  - rewrite map_app. cbn. now apply increasing_snoc.
Qed.

Lemma inserts_built {A : Type} (insert : Store.t -> A -> Store.t) (l : list A) :
  (forall db x, Store.built db -> Store.built (insert db x)) ->
  forall db, Store.built db -> Store.built (fold_left insert l db).
Proof.
  intros Hins. induction l as [|x l IH]; intros db Hdb; cbn; [exact Hdb|].
  now apply IH, Hins.
Qed.

(** Every store that the index builder saves is a built store, so its
    class ids grow along the table. *)
Lemma buildIndex_increasing (remarkParse : string -> Guide.Node)
      (toString : Guide.Node -> string) (files : list (string * string)) :
  Store.increasing
    (map ClassRow.id (Store.classes (Indexer.buildIndex remarkParse toString files))).
Proof.
  apply built_increasing. unfold Indexer.buildIndex.
  apply inserts_built; [|constructor].
  intros db [path content] Hdb. unfold Indexer.indexFile.
  apply inserts_built; [intros; now constructor|].
  destruct (JS.includes path "-docs/"); [|exact Hdb].
  apply inserts_built; [intros; now constructor | exact Hdb].
Qed.

(** In a table whose ids grow, the first row that satisfies a condition
    has the smallest id of all rows that satisfy it. *)
Lemma first_match_smallest (f : ClassRow.t -> bool) (rows : list ClassRow.t)
      (first : ClassRow.t) :
  Store.increasing (map ClassRow.id rows) ->
  hd_error (filter f rows) = Some first ->
  In first rows /\ f first = true /\
  forall c, In c rows -> f c = true -> ClassRow.id first <= ClassRow.id c.
Proof.
  unfold Store.increasing.
  induction rows as [|x rows IH]; cbn; intros Hs Hhd; [discriminate|].
  inversion Hs as [|? ? Hs' Hx]; subst.
  destruct (f x) eqn:Ex.
  - cbn in Hhd. injection Hhd as <-. repeat split; [now left | exact Ex|].
    intros c [<- | Hc] _; [lia|].
    apply Forall_forall with (x := ClassRow.id c) in Hx; [lia|].
    now apply in_map.
  - destruct (IH Hs' Hhd) as (Hin & Hf & Hmin). repeat split; [now right | exact Hf|].
    intros c [<- | Hc] Hfc; [congruence | now apply Hmin].
Qed.

Lemma hd_error_filter_some {A : Type} (f : A -> bool) (l : list A) (x : A) :
  In x l -> f x = true -> exists y, hd_error (filter f l) = Some y.
Proof.
  intros Hin Hf. destruct (filter f l) as [|y ys] eqn:E.
  - assert (H : In x (filter f l)) by (apply filter_In; now split).
    rewrite E in H. destruct H.
  - now exists y.
Qed.

(** The WHERE clause of [getClass] selects the rows that answer the
    request. *)
Lemma classMatches_requested (name : string) (pkg : option string) (c : ClassRow.t) :
  classMatches name pkg c = true <-> requested name pkg c.
Proof.
  unfold classMatches, requested, orNull, nullOrEq.
  rewrite andb_true_iff, String.eqb_eq.
  destruct pkg as [p|]; [|tauto].
  destruct p as [|x p]; cbn [JS.truthy]; [tauto|].
  rewrite String.eqb_eq. split; intros [H1 H2]; split; trivial.
  - now right.
  - destruct H2 as [H2 | H2]; [discriminate | exact H2].
Qed.

(** The first row that satisfies a condition, with the rows before
    it. *)
Lemma hd_error_filter_split {A : Type} (f : A -> bool) (l : list A) (x : A) :
  hd_error (filter f l) = Some x ->
  exists before after,
    l = before ++ x :: after /\ f x = true /\ forall y, In y before -> f y = false.
Proof.
  induction l as [|y l IH]; cbn; [discriminate|].
  destruct (f y) eqn:E; cbn.
  - intros H. injection H as <-. exists [], l. repeat split; trivial. intros ? [].
  - intros H. destruct (IH H) as (before & after & -> & Hx & Hb).
    exists (y :: before), after. repeat split; trivial.
    intros z [<- | Hz]; [exact E | now apply Hb].
Qed.

Lemma Forall2_map_l {A B : Type} (R : B -> A -> Prop) (g : A -> B) (l : list A) :
  (forall x, In x l -> R (g x) x) -> Forall2 R (map g l) l.
Proof.
  induction l as [|x l IH]; intros H; cbn; constructor.
  - apply H. now left.
  - apply IH. intros y Hy. apply H. now right.
Qed.

(** C10. When one or more stored declarations have the requested name
    and pass the optional package filter, [getClass] returns one
    declaration and no error: that of the first such row of the table
    (no row before it has the name and passes the filter), which in a
    table with growing ids has the smallest id of all such rows.  The
    declaration returned has the requested name and passes the filter,
    and its members are, one for one and in table order, the member rows
    whose [class_id] is the id of that row. *)
Theorem getClass_returns_first_match
        (db : Store.t) (name : string) (pkg : option string) (c : ClassRow.t) :
  Store.increasing (map ClassRow.id (Store.classes db)) ->
  In c (Store.classes db) ->
  requested name pkg c ->
  exists before first after r,
    getClass db name pkg = Some r /\
    Store.classes db = before ++ first :: after /\
    requested name pkg first /\
    (forall c', In c' before -> ~ requested name pkg c') /\
    (forall c', In c' (Store.classes db) -> requested name pkg c' ->
                ClassRow.id first <= ClassRow.id c') /\
    ClassWithMembers.id r = ClassRow.id first /\
    ClassWithMembers.name r = name /\
    ClassWithMembers.package r = ClassRow.package first /\
    ClassWithMembers.type r = ClassRow.type first /\
    match pkg with
    | Some p => p = "" \/ ClassWithMembers.package r = p
    | None => True
    end /\
    Forall2 describesMember
            (ClassWithMembers.members r)
            (filter (fun m => ownedBy m first) (Store.members db)).
Proof.
  intros Hinc Hin Hreq. apply classMatches_requested in Hreq.
  destruct (hd_error_filter_some _ _ _ Hin Hreq) as [first Hfirst].
  destruct (first_match_smallest _ _ _ Hinc Hfirst) as (Hf1 & Hf2 & Hf3).
  destruct (hd_error_filter_split _ _ _ Hfirst) as (before & after & Hsplit & _ & Hb).
  pose proof (proj1 (classMatches_requested name pkg first) Hf2) as [Hname Hpkg].
  exists before, first, after. eexists. unfold getClass. rewrite Hfirst.
  split; [reflexivity|]. cbn [ClassWithMembers.id ClassWithMembers.name
    ClassWithMembers.package ClassWithMembers.type ClassWithMembers.members].
  split; [exact Hsplit|]. split; [now split|]. split; [|split].
  - intros c' Hc' Hr. apply classMatches_requested in Hr. rewrite (Hb c' Hc') in Hr.
    discriminate.
  - intros c' Hc' Hr. apply Hf3; [exact Hc' | now apply classMatches_requested].
  - repeat split; trivial. unfold membersOf.
    change (fun m => match MemberRow.class_id m with
                     | Some i => i =? ClassRow.id first
                     | None => false
                     end) with (fun m => ownedBy m first).
    apply Forall2_map_l. intros m _. now repeat split.
Qed.

(** C10 at a store with two declarations named [Foo]: the one with the
    id 1, of the package [chain-api], is returned with its member. *)
Lemma getClass_returns_first_match_two_Foo :
  exists before first after r,
    getClass Samples.sampleStore "Foo" None = Some r /\
    Store.classes Samples.sampleStore = before ++ first :: after /\
    requested "Foo" None first /\
    (forall c', In c' before -> ~ requested "Foo" None c') /\
    (forall c', In c' (Store.classes Samples.sampleStore) -> requested "Foo" None c' ->
                ClassRow.id first <= ClassRow.id c') /\
    ClassWithMembers.id r = ClassRow.id first /\
    ClassWithMembers.name r = "Foo" /\
    ClassWithMembers.package r = ClassRow.package first /\
    ClassWithMembers.type r = ClassRow.type first /\
    True /\
    Forall2 describesMember
            (ClassWithMembers.members r)
            (filter (fun m => ownedBy m first) (Store.members Samples.sampleStore)).
Proof.
  apply (getClass_returns_first_match Samples.sampleStore "Foo" None
           (nth 1 (Store.classes Samples.sampleStore)
                (nth 0 (Store.classes Samples.sampleStore)
                     (ClassRow.mk 0 "" "" "" None None None None None None None)))).
  - unfold Store.increasing. vm_compute. repeat constructor.
  - vm_compute. right. left. reflexivity.
  - split; [reflexivity | exact I].
Defined.

(** At that store the declaration returned for [Foo] is the first one;
    with the package [chaincode] given it is the second one. *)
Example getClass_two_Foo_sample :
  option_map (fun r => (ClassWithMembers.id r, ClassWithMembers.package r,
                        map MemberWithDetails.id (ClassWithMembers.members r)))
             (getClass Samples.sampleStore "Foo" None) = Some (1, "chain-api", [1]) /\
  option_map (fun r => (ClassWithMembers.id r, ClassWithMembers.package r,
                        map MemberWithDetails.id (ClassWithMembers.members r)))
             (getClass Samples.sampleStore "Foo" (Some "chaincode"))
    = Some (2, "chaincode", [2]).
Proof. split; reflexivity. Qed.

Lemma classes_insertClass (db : Store.t) (cls : ClassInfo.t) :
  exists row,
    Store.classes (Store.insertClass db cls) = Store.classes db ++ [row] /\
    ClassRow.name row = ClassInfo.name cls /\
    ClassRow.package row = ClassInfo.package cls /\
    ClassRow.implements_clause row =
      Some (JSON.stringify (JSON.ofStrings (ClassInfo.implementsClause cls))).
Proof. eexists. cbn. repeat split. Qed.

(** C7. A declaration written by [insertClass] and then retrieved by
    [getClass] under its name (no declaration of that name and package
    filter being stored before it) comes back with the same list
    [implementsClause]: the JSON text written for the list is read back
    as the list. *)
Theorem implementsClause_round_trip
        (db : Store.t) (cls : ClassInfo.t) (pkg : option string) :
  filter (classMatches (ClassInfo.name cls) pkg) (Store.classes db) = [] ->
  nullOrEq (orNull pkg) (ClassInfo.package cls) = true ->
  exists r,
    getClass (Store.insertClass db cls) (ClassInfo.name cls) pkg = Some r /\
    ClassWithMembers.name r = ClassInfo.name cls /\
    ClassWithMembers.implementsClause r = ClassInfo.implementsClause cls.
Proof.
  intros Hnone Hpkg.
  destruct (classes_insertClass db cls) as (row & Hrows & Hname & Hp & Himpl).
  unfold getClass. rewrite Hrows, filter_app, Hnone. cbn [app filter].
  assert (Hm : classMatches (ClassInfo.name cls) pkg row = true).
  { unfold classMatches. now rewrite Hname, Hp, String.eqb_refl, Hpkg. }
  rewrite Hm. cbn [hd_error]. eexists. split; [reflexivity|].
  cbn [ClassWithMembers.name ClassWithMembers.implementsClause].
  split; [exact Hname|]. rewrite Himpl. apply safeJsonParse_strings.
Qed.

(** C7 at the declaration of the scenario: [implementsClause] is
    [["A"; "B"]]. *)
Lemma implementsClause_round_trip_A_B :
  exists r,
    getClass (Store.insertClass Store.empty Samples.fooAB) "Foo" None = Some r /\
    ClassWithMembers.name r = "Foo" /\
    ClassWithMembers.implementsClause r = ["A"; "B"].
Proof.
  apply (implementsClause_round_trip Store.empty Samples.fooAB None); reflexivity.
Defined.

End StoreFacts.

Section MethodFacts.

Import Queries.

Lemma includes_dot_cons (c : ascii) (s : string) :
  JS.includes (String c s) "." = if Ascii.eqb c "." then true else JS.includes s ".".
Proof.
  cbn [JS.includes String.prefix]. destruct (ascii_dec "." c) as [<- | Hne].
  - now destruct s.
  - destruct (Ascii.eqb_spec c ".") as [E|_]; [now subst; elim Hne | reflexivity].
Qed.

Lemma splitChar_no_dot (s : string) :
  JS.includes s "." = false -> JS.splitChar "." s = [s].
Proof.
  induction s as [|c s IH]; [reflexivity|].
  rewrite includes_dot_cons. cbn [JS.splitChar].
  destruct (Ascii.eqb c "."); [discriminate|].
  intros H. now rewrite (IH H).
Qed.

Lemma splitChar_dot (owner rest : string) :
  JS.includes owner "." = false ->
  JS.splitChar "." (owner ^^ String "." rest) = owner :: JS.splitChar "." rest.
Proof.
  induction owner as [|c owner IH].
  - reflexivity.
  - rewrite includes_dot_cons. cbn [append JS.splitChar].
    destruct (Ascii.eqb c "."); [discriminate|].
    intros H. rewrite (IH H). reflexivity.
Qed.

Lemma includes_dot_append (owner rest : string) :
  JS.includes (owner ^^ String "." rest) "." = true.
Proof.
  induction owner as [|c owner IH].
  - cbn [append]. now rewrite includes_dot_cons.
  - cbn [append]. rewrite includes_dot_cons, IH. now destruct (Ascii.eqb c ".").
Qed.

(** [Foo.bar] is split into the declaring type [Foo] and the member
    name [bar]; a name without dot is a member name. *)
Lemma splitQualified_dot (owner member : string) :
  JS.includes owner "." = false -> JS.includes member "." = false ->
  splitQualified (owner ^^ "." ^^ member) = (Some owner, member).
Proof.
  intros Ho Hm. unfold splitQualified.
  change ("." ^^ member) with (String "." member).
  now rewrite includes_dot_append, (splitChar_dot _ _ Ho), (splitChar_no_dot _ Hm).
Qed.

Lemma splitQualified_bare (member : string) :
  JS.includes member "." = false -> splitQualified member = (None, member).
Proof. intros Hm. unfold splitQualified. now rewrite Hm. Qed.

(** The rows of the join are the members paired with the declaration
    that owns them. *)
Lemma joinMembers_In (db : Store.t) (m : MemberRow.t) (c : ClassRow.t) :
  In (m, c) (joinMembers db) <->
  In m (Store.members db) /\ In c (Store.classes db) /\
  MemberRow.class_id m = Some (ClassRow.id c).
Proof.
  unfold joinMembers. rewrite in_flat_map. split.
  - intros (m' & Hm' & Hin). apply in_map_iff in Hin as (c' & E & Hc').
    injection E as -> ->. apply filter_In in Hc' as [Hc Hid].
    repeat split; trivial.
    destruct (MemberRow.class_id m) as [i|]; [|discriminate].
    apply Nat.eqb_eq in Hid. now subst.
  - intros (Hm & Hc & Hid). exists m. split; [exact Hm|].
    apply in_map. apply filter_In. split; [exact Hc|].
    rewrite Hid. apply Nat.eqb_refl.
Qed.

Lemma filter_map_pair {A B : Type} (f : A * B -> bool) (x : A) (l : list B) :
  filter f (map (pair x) l) = map (pair x) (filter (fun y => f (x, y)) l).
Proof.
  induction l as [|y l IH]; cbn; [reflexivity|].
  destruct (f (x, y)); cbn; now rewrite IH.
Qed.

Lemma filter_and {A : Type} (f g : A -> bool) (l : list A) :
  filter f (filter g l) = filter (fun x => g x && f x) l.
Proof.
  induction l as [|x l IH]; cbn; [reflexivity|].
  destruct (g x); cbn; [destruct (f x); cbn|]; now rewrite IH.
Qed.

(** The rows of the join are the pairs of a member row and the class
    row that owns it, in the order of the tables. *)
Lemma joinMembers_prod (db : Store.t) :
  joinMembers db =
  filter (fun mc => ownedBy (fst mc) (snd mc))
         (list_prod (Store.members db) (Store.classes db)).
Proof.
  unfold joinMembers. induction (Store.members db) as [|m ms IH]; cbn; [reflexivity|].
  rewrite filter_app, filter_map_pair, IH. reflexivity.
Qed.

(** The rows that [getMethod] selects, for a class name split off the
    argument or none. *)
Lemma getMethod_rows (db : Store.t) (member : string) (owner : option string) :
  filter (methodMatches member owner None) (joinMembers db) = namedMembers db member owner.
Proof.
  rewrite joinMembers_prod, filter_and. unfold namedMembers. apply filter_ext.
  intros [m c]. unfold methodMatches, nullOrEq, orNull. cbn [fst snd].
  rewrite andb_true_r, andb_assoc. now destruct owner.
Qed.

Lemma namedMembers_In (db : Store.t) (member : string) (owner : option string)
      (m : MemberRow.t) (c : ClassRow.t) :
  In (m, c) (namedMembers db member owner) <->
  In m (Store.members db) /\ In c (Store.classes db) /\
  MemberRow.class_id m = Some (ClassRow.id c) /\
  MemberRow.name m = member /\
  match owner with Some o => ClassRow.name c = o | None => True end.
Proof.
  rewrite <- getMethod_rows, filter_In, joinMembers_In.
  unfold methodMatches, nullOrEq, orNull. cbn [fst snd].
  rewrite andb_true_r, andb_true_iff, String.eqb_eq.
  destruct owner as [o|]; [rewrite String.eqb_eq|]; intuition.
Qed.

(** C8. [getMethod("Foo.bar")] returns, one for one and in the order of
    the tables, the member rows named [bar] with the class row named
    [Foo] that owns them: every result has the name [bar] and the class
    name [Foo], and every such member row has a result.
    [getMethod("bar")] returns likewise the member rows named [bar] with
    the class row that owns them, whatever its name. *)
Theorem getMethod_qualified_and_bare (db : Store.t) (owner member : string) :
  JS.includes owner "." = false ->
  JS.includes member "." = false ->
  Forall2 describes (getMethod db (owner ^^ "." ^^ member) None)
          (namedMembers db member (Some owner)) /\
  Forall2 describes (getMethod db member None) (namedMembers db member None) /\
  Forall (fun r => MemberWithDetails.name r = member /\
                   MemberWithDetails.className r = Some owner)
         (getMethod db (owner ^^ "." ^^ member) None) /\
  Forall (fun r => MemberWithDetails.name r = member) (getMethod db member None) /\
  (forall m c,
     In m (Store.members db) -> In c (Store.classes db) ->
     MemberRow.class_id m = Some (ClassRow.id c) ->
     MemberRow.name m = member ->
     (exists r, In r (getMethod db member None) /\ describes r (m, c)) /\
     (ClassRow.name c = owner ->
      exists r, In r (getMethod db (owner ^^ "." ^^ member) None) /\ describes r (m, c))).
Proof.
  intros Ho Hm. unfold getMethod.
  rewrite (splitQualified_dot _ _ Ho Hm), (splitQualified_bare _ Hm), !getMethod_rows.
  assert (Hd : forall rows : list (MemberRow.t * ClassRow.t),
             Forall2 describes
                     (map (fun row => memberDetails (fst row) (Some (snd row))) rows) rows).
  { intros rows. apply Forall2_map_l. intros [m c] _. now repeat split. }
  split; [apply Hd|]. split; [apply Hd|]. split; [|split].
  - apply Forall_forall. intros r Hr. apply in_map_iff in Hr as ([m c] & <- & Hin).
    apply namedMembers_In in Hin as (_ & _ & _ & Hn & Hc).
    cbn [fst snd memberDetails MemberWithDetails.name MemberWithDetails.className option_map].
    now rewrite Hn, Hc.
  - apply Forall_forall. intros r Hr. apply in_map_iff in Hr as ([m c] & <- & Hin).
    apply namedMembers_In in Hin as (_ & _ & _ & Hn & _). exact Hn.
  - intros m c H1 H2 H3 Hn. split.
    + exists (memberDetails m (Some c)). split; [|now repeat split].
      apply in_map_iff. exists (m, c). split; [reflexivity|].
      apply namedMembers_In. now repeat split.
    + intros Hc. exists (memberDetails m (Some c)). split; [|now repeat split].
      apply in_map_iff. exists (m, c). split; [reflexivity|].
      apply namedMembers_In. now repeat split.
Qed.

End MethodFacts.

Section MethodSample.

Import Queries.

(** C8 at the sample store, for [Foo.bar] and [bar]. *)
Lemma getMethod_qualified_and_bare_sample :
  Forall2 describes (getMethod Samples.sampleStore ("Foo" ^^ "." ^^ "bar") None)
          (namedMembers Samples.sampleStore "bar" (Some "Foo")) /\
  Forall2 describes (getMethod Samples.sampleStore "bar" None)
          (namedMembers Samples.sampleStore "bar" None) /\
  Forall (fun r => MemberWithDetails.name r = "bar" /\
                   MemberWithDetails.className r = Some "Foo")
         (getMethod Samples.sampleStore ("Foo" ^^ "." ^^ "bar") None) /\
  Forall (fun r => MemberWithDetails.name r = "bar")
         (getMethod Samples.sampleStore "bar" None) /\
  (forall m c,
     In m (Store.members Samples.sampleStore) ->
     In c (Store.classes Samples.sampleStore) ->
     MemberRow.class_id m = Some (ClassRow.id c) ->
     MemberRow.name m = "bar" ->
     (exists r, In r (getMethod Samples.sampleStore "bar" None) /\ describes r (m, c)) /\
     (ClassRow.name c = "Foo" ->
      exists r, In r (getMethod Samples.sampleStore ("Foo" ^^ "." ^^ "bar") None) /\
                describes r (m, c))).
Proof.
  apply (getMethod_qualified_and_bare Samples.sampleStore "Foo" "bar"); reflexivity.
Defined.

(** In the sample store [Foo.bar] has two owners named [Foo], and [bar]
    is also a member of [Baz]. *)
Example getMethod_sample_counts :
  map (fun r => (MemberWithDetails.id r, MemberWithDetails.className r,
                 MemberWithDetails.package r))
      (getMethod Samples.sampleStore "Foo.bar" None) =
    [(1, Some "Foo", Some "chain-api"); (2, Some "Foo", Some "chaincode")] /\
  map (fun r => (MemberWithDetails.id r, MemberWithDetails.className r,
                 MemberWithDetails.package r))
      (getMethod Samples.sampleStore "bar" None) =
    [(1, Some "Foo", Some "chain-api"); (2, Some "Foo", Some "chaincode");
     (3, Some "Baz", Some "chain-api")] /\
  In Samples.fooBar (getMethod Samples.sampleStore "Foo.bar" None).
Proof. repeat split; vm_compute; auto. Qed.

End MethodSample.

Section ToolFacts.

Import Tools.

Lemma head_join (sep : string) (c : ascii) (x : string) (l : list string) :
  Queries.headOpt (JS.join sep (String c x :: l)) = Some c.
Proof. destruct l; reflexivity. Qed.

Lemma head_differs (text : string) (c : ascii) :
  Queries.headOpt text = Some c -> c <> "I"%char -> text <> buildingMessage.
Proof. intros H Hc E. subst text. cbn in H. congruence. Qed.

Lemma errorMessage_differs (st : IndexStatus.t) : errorMessage st <> buildingMessage.
Proof.
  intros E. apply (f_equal (String.prefix "Index b")) in E.
  unfold errorMessage in E. cbn in E. discriminate.
Qed.

Ltac by_head c :=
  apply head_differs with c;
  [first [reflexivity | apply head_join] | discriminate].

Lemma search_ready_differs (st : IndexStatus.t) (db : Store.t) (args : SearchArgs.t) :
  IndexStatus.status st <> Status.building ->
  searchGalachainDocs st db args <> buildingMessage.
Proof.
  intros Hst. unfold searchGalachainDocs.
  destruct (IndexStatus.status st); [|now elim Hst|apply errorMessage_differs].
  cbv zeta. destruct (blank (SearchArgs.query args)); [by_head "P"%char|].
  destruct (Queries.searchDocs _ _ _ _ _); [by_head "N"%char | by_head "F"%char].
Qed.

Lemma class_ready_differs (st : IndexStatus.t) (db : Store.t) (args : GetClassArgs.t) :
  IndexStatus.status st <> Status.building ->
  getGalachainClass st db args <> buildingMessage.
Proof.
  intros Hst. unfold getGalachainClass.
  destruct (IndexStatus.status st); [|now elim Hst|apply errorMessage_differs].
  cbv zeta. destruct (blank (GetClassArgs.name args)); [by_head "P"%char|].
  destruct (Queries.getClass _ _ _); [|by_head "C"%char].
  cbn [app]. by_head "#"%char.
Qed.

Lemma method_ready_differs (st : IndexStatus.t) (db : Store.t) (args : GetMethodArgs.t) :
  IndexStatus.status st <> Status.building ->
  getGalachainMethod st db args <> buildingMessage.
Proof.
  intros Hst. unfold getGalachainMethod.
  destruct (IndexStatus.status st); [|now elim Hst|apply errorMessage_differs].
  cbv zeta. destruct (blank (GetMethodArgs.method_name args)); [by_head "P"%char|].
  destruct (Queries.getMethod _ _ _) as [|m ms]; [by_head "M"%char|].
  destruct ms as [|m' ms].
  - cbn [List.length Nat.ltb Nat.leb map JS.join String.concat append].
    unfold formatMethod. cbn [app]. by_head "#"%char.
  - cbn [List.length Nat.ltb Nat.leb]. by_head "F"%char.
Qed.

Lemma modules_ready_differs (st : IndexStatus.t) (db : Store.t) (args : ListModulesArgs.t) :
  IndexStatus.status st <> Status.building ->
  listGalachainModules st db args <> buildingMessage.
Proof.
  intros Hst. unfold listGalachainModules.
  destruct (IndexStatus.status st); [|now elim Hst|apply errorMessage_differs].
  cbv zeta. destruct (Queries.listModules _ _ _); [by_head "N"%char|].
  cbn [app]. by_head "#"%char.
Qed.

(** C9. While the index status is [building], each of the four query
    operations answers with the index-building indicator; in any other
    status none of them does, so the indicator is never taken for an
    empty-result, found or not-found response. *)
Theorem building_status_is_reported
        (st : IndexStatus.t) (db : Store.t)
        (search : SearchArgs.t) (class : GetClassArgs.t)
        (method : GetMethodArgs.t) (modules : ListModulesArgs.t) :
  (searchGalachainDocs st db search = buildingMessage <->
   IndexStatus.status st = Status.building) /\
  (getGalachainClass st db class = buildingMessage <->
   IndexStatus.status st = Status.building) /\
  (getGalachainMethod st db method = buildingMessage <->
   IndexStatus.status st = Status.building) /\
  (listGalachainModules st db modules = buildingMessage <->
   IndexStatus.status st = Status.building).
Proof.
  assert (D : IndexStatus.status st = Status.building \/
              IndexStatus.status st <> Status.building)
    by (destruct (IndexStatus.status st); (now left) || (right; discriminate)).
  repeat split; intros H.
  - destruct D as [E|N]; [exact E | now elim (search_ready_differs st db search N)].
  - unfold searchGalachainDocs. now rewrite H.
  - destruct D as [E|N]; [exact E | now elim (class_ready_differs st db class N)].
  - unfold getGalachainClass. now rewrite H.
  - destruct D as [E|N]; [exact E | now elim (method_ready_differs st db method N)].
  - unfold getGalachainMethod. now rewrite H.
  - destruct D as [E|N]; [exact E | now elim (modules_ready_differs st db modules N)].
  - unfold listGalachainModules. now rewrite H.
Qed.

End ToolFacts.

Section NestedPassFacts.

Import Typedoc.

Lemma parseClassSection_name (name section pkg filePath sourceUrl : string)
      (classInfo : ClassInfo.t) :
  parseClassSection name section pkg filePath sourceUrl = Some classInfo ->
  ClassInfo.name classInfo = name.
Proof.
  unfold parseClassSection. destruct (JS.arrayIncludes skipNames name); [discriminate|].
  intros H. injection H as <-. reflexivity.
Qed.

Lemma existsb_class_name (className : string) (classes : list ClassInfo.t) :
  existsb (fun c => String.eqb (ClassInfo.name c) className) classes = false ->
  ~ In className (map ClassInfo.name classes).
Proof.
  induction classes as [|c classes IH]; cbn; [tauto|].
  intros H. apply orb_false_elim in H as [Hc Hrest].
  apply String.eqb_neq in Hc. intros [E | Hin]; [congruence | now apply IH].
Qed.

(** The nested pass adds no declaration whose name is already there:
    it keeps a list of names free of repetition. *)
Lemma nestedStep_NoDup (pkg filePath sourceUrl : string)
      (classes : list ClassInfo.t) (section : string) :
  NoDup (map ClassInfo.name classes) ->
  NoDup (map ClassInfo.name (nestedStep pkg filePath sourceUrl classes section)).
Proof.
  intros Hnd. unfold nestedStep. cbv zeta.
  destruct (negb (JS.truthy (firstLineOf section))); [exact Hnd|].
  destruct (classNameOf (firstLineOf section)) as [className|]; [|exact Hnd].
  destruct (existsb _ classes) eqn:E; [exact Hnd|].
  destruct (parseClassSection _ _ _ _ _) as [classInfo|] eqn:Ep; [|exact Hnd].
  rewrite map_app. cbn [map]. rewrite (parseClassSection_name _ _ _ _ _ _ Ep).
  apply NoDup_app; [exact Hnd | repeat constructor; intros [] |].
  intros x Hx [<- | []]. now apply (existsb_class_name _ _ E).
Qed.

Lemma nested_pass_NoDup (pkg filePath sourceUrl : string) (sections : list string) :
  forall classes,
    NoDup (map ClassInfo.name classes) ->
    NoDup (map ClassInfo.name
             (fold_left (nestedStep pkg filePath sourceUrl) sections classes)).
Proof.
  induction sections as [|sec sections IH]; intros classes Hnd; cbn; [exact Hnd|].
  now apply IH, nestedStep_NoDup.
Qed.

(** The repeated names of a result all come from the top-level pass:
    when that pass found distinct names, so does the whole parser. *)
Lemma parseTypedocMarkdown_NoDup (content filePath : string) :
  NoDup (map ClassInfo.name (topLevelPass content filePath)) ->
  NoDup (map ClassInfo.name (parseTypedocMarkdown content filePath)).
Proof. intros H. unfold parseTypedocMarkdown. now apply nested_pass_NoDup. Qed.

End NestedPassFacts.

(* ================================================================== *)
(** * Further properties of the reference parser *)
(* ================================================================== *)

Section MatcherFacts.

(** A match that a driver reports is a match of the expression at some
    position. *)
Lemma firstFrom_Some {A : Type} (m : option ascii -> string -> option A) (s : string) :
  forall idx prev a j,
    Rx.firstFrom m idx prev s = Some (a, j) -> exists prev' t, m prev' t = Some a.
Proof.
  induction s as [|c s IH]; intros idx prev a j; cbn.
  - destruct (m prev "") as [x|] eqn:E; [|discriminate].
    intros H. injection H as -> _. eauto.
  - destruct (m prev (String c s)) as [x|] eqn:E.
    + intros H. injection H as -> _. eauto.
    + apply IH.
Qed.

Lemma first_Some {A : Type} (m : option ascii -> string -> option A) (s : string) (a : A) :
  Rx.first m s = Some a -> exists prev t, m prev t = Some a.
Proof.
  unfold Rx.first. destruct (Rx.firstFrom m 0 None s) as [[x j]|] eqn:E; [|discriminate].
  cbn. intros H. injection H as ->. eapply firstFrom_Some, E.
Qed.

Lemma allFrom_In {A : Type} (m : option ascii -> string -> option (A * nat)) (s : string) :
  forall skip prev a,
    In a (Rx.allFrom m skip prev s) -> exists prev' t len, m prev' t = Some (a, len).
Proof.
  induction s as [|c s IH]; intros [|skip] prev a; cbn; try tauto.
  - destruct (m prev "") as [[x len]|] eqn:E; cbn; [|tauto].
    intros [<- | []]. eauto.
  - destruct (m prev (String c s)) as [[x len]|] eqn:E; [|apply IH].
    intros [<- | H]; [eauto | eapply IH, H].
  - apply IH.
Qed.

(** Where the expression matches nowhere in a text, the drivers find
    nothing and replace nothing.  [Q] holds of the text and of its
    suffixes. *)
Lemma allFrom_none {A : Type} (m : option ascii -> string -> option (A * nat))
      (Q : string -> Prop) :
  (forall c r, Q (String c r) -> Q r) ->
  (forall prev t, Q t -> m prev t = None) ->
  forall s prev, Q s -> Rx.allFrom m 0 prev s = [].
Proof.
  intros Htail Hnone. induction s as [|c s IH]; intros prev Hs; cbn.
  - now rewrite (Hnone prev "" Hs).
  - rewrite (Hnone prev _ Hs). apply IH. eapply Htail, Hs.
Qed.

Lemma replaceFrom_none (m : option ascii -> string -> option (string * nat))
      (Q : string -> Prop) :
  (forall c r, Q (String c r) -> Q r) ->
  (forall prev t, Q t -> m prev t = None) ->
  forall s prev, Q s -> Rx.replaceFrom m 0 prev s = s.
Proof.
  intros Htail Hnone. induction s as [|c s IH]; intros prev Hs; cbn.
  - now rewrite (Hnone prev "" Hs).
  - rewrite (Hnone prev _ Hs). f_equal. apply IH. eapply Htail, Hs.
Qed.

Lemma span_fst_forallb (p : ascii -> bool) (s : string) :
  forallb p (list_ascii_of_string (fst (Rx.span p s))) = true.
Proof.
  induction s as [|c s IH]; cbn; [reflexivity|].
  destruct (p c) eqn:E; [|reflexivity].
  destruct (Rx.span p s) as [a b]. cbn in *. now rewrite E.
Qed.

Lemma prefix_head (a c : ascii) (d r : string) :
  String.prefix (String a d) (String c r) = true -> a = c.
Proof. cbn. destruct (ascii_dec a c); [trivial | discriminate]. Qed.

Lemma list_ascii_of_append (a b : string) :
  list_ascii_of_string (a ^^ b) = list_ascii_of_string a ++ list_ascii_of_string b.
Proof. induction a as [|c a IH]; cbn; [reflexivity | now rewrite IH]. Qed.

Lemma length_append (a b : string) :
  String.length (a ^^ b) = String.length a + String.length b.
Proof. induction a as [|c a IH]; cbn; [reflexivity | now rewrite IH]. Qed.

Lemma arrayIncludes_In (l : list string) (x : string) :
  JS.arrayIncludes l x = true <-> In x l.
Proof.
  unfold JS.arrayIncludes. rewrite existsb_exists. split.
  - intros (y & Hy & E). apply String.eqb_eq in E. now subst.
  - intros H. exists x. split; [exact H | apply String.eqb_refl].
Qed.

Lemma NoDup_snoc {A : Type} (l : list A) (x : A) :
  NoDup l -> ~ In x l -> NoDup (l ++ [x]).
Proof.
  intros Hl Hx. apply NoDup_app; [exact Hl | repeat constructor; intros [] |].
  intros y Hy [<- | []]. now apply Hx.
Qed.

Lemma fold_left_Forall {A B : Type} (P : A -> Prop) (step : list A -> B -> list A)
      (bs : list B) :
  (forall l b, Forall P l -> Forall P (step l b)) ->
  forall l, Forall P l -> Forall P (fold_left step bs l).
Proof.
  intros Hstep. induction bs as [|b bs IH]; intros l Hl; cbn; [exact Hl|].
  now apply IH, Hstep.
Qed.

End MatcherFacts.

Section TrimFacts.

Lemma trimEnd_idem (s : string) : JS.trimEnd (JS.trimEnd s) = JS.trimEnd s.
Proof.
  induction s as [|c s IH]; [reflexivity|]. cbn.
  destruct (JS.trimEnd s) as [|d r] eqn:E.
  - destruct (JS.isSpace c) eqn:Ec; [reflexivity|]. cbn. now rewrite Ec.
  - cbn [JS.trimEnd] in *. fold JS.trimEnd in *.
    change (JS.trimEnd (String c (String d r))) with
      (match JS.trimEnd (String d r) with
       | "" => if JS.isSpace c then "" else String c ""
       | r' => String c r'
       end).
    now rewrite IH.
Qed.

Lemma trimStart_head (s : string) :
  match JS.trimStart s with
  | EmptyString => True
  | String c _ => JS.isSpace c = false
  end.
Proof.
  induction s as [|c s IH]; cbn; [exact I|].
  destruct (JS.isSpace c) eqn:E; [exact IH | exact E].
Qed.

Lemma trimEnd_head (c : ascii) (s : string) :
  JS.isSpace c = false -> exists r, JS.trimEnd (String c s) = String c r.
Proof.
  intros Hc. cbn. destruct (JS.trimEnd s); [rewrite Hc|]; eauto.
Qed.

(** Trimming twice is trimming once. *)
Lemma trim_idem (s : string) : JS.trim (JS.trim s) = JS.trim s.
Proof.
  unfold JS.trim. pose proof (trimStart_head s) as H.
  destruct (JS.trimStart s) as [|c r]; [reflexivity|].
  destruct (trimEnd_head c r H) as (r' & E).
  rewrite E. cbn [JS.trimStart]. rewrite H, <- E. apply trimEnd_idem.
Qed.

Lemma trim_of_blank (s : string) :
  forallb JS.isSpace (list_ascii_of_string s) = true -> JS.trim s = "".
Proof.
  unfold JS.trim. induction s as [|c s IH]; cbn; [reflexivity|].
  intros H. apply andb_prop in H as [Hc Hs]. rewrite Hc. now apply IH.
Qed.

Lemma trim_truthy (a : string) (c : ascii) (b : string) :
  JS.isSpace c = false -> JS.truthy (JS.trim (a ^^ String c b)) = true.
Proof.
  intros Hc. destruct (JS.trim (a ^^ String c b)) eqn:E; [|reflexivity].
  apply trim_blank in E. rewrite list_ascii_of_append, forallb_app in E.
  apply andb_prop in E as [_ E]. cbn in E. rewrite Hc in E. discriminate.
Qed.

End TrimFacts.

Section DecoratorFacts.

Import Typedoc.

(** The loop that collects without repetition: nothing is lost, nothing
    is invented, and nothing is entered twice. *)
Lemma collect_once (ds : list string) :
  forall acc,
    let out := fold_left (fun decorators d =>
                            if JS.arrayIncludes decorators d then decorators
                            else decorators ++ [d]) ds acc in
    (NoDup acc -> NoDup out) /\ (forall d, In d out <-> In d acc \/ In d ds).
Proof.
  induction ds as [|d ds IH]; intros acc; cbn.
  - split; [trivial | intros d; tauto].
  - destruct (JS.arrayIncludes acc d) eqn:E.
    + destruct (IH acc) as [Hnd Hin]. split; [exact Hnd|].
      intros x. rewrite Hin. apply arrayIncludes_In in E.
      intuition (subst; auto).
    + destruct (IH (acc ++ [d])) as [Hnd Hin]. split.
      * intros Hacc. apply Hnd, NoDup_snoc; [exact Hacc|].
        intros Hd. apply arrayIncludes_In in Hd. congruence.
      * intros x. rewrite Hin, in_app_iff. cbn. tauto.
Qed.

Lemma decoratorAt_word (prev : option ascii) (s w : string) (len : nat) :
  decoratorAt prev s = Some (w, len) -> isIdentifier w.
Proof.
  unfold decoratorAt. destruct s as [|c r]; [discriminate|].
  destruct (Ascii.eqb c "@") eqn:Ec.
  - apply Ascii.eqb_eq in Ec. subst c.
    pose proof (span_fst_forallb JS.isWord r) as Hw.
    destruct (Rx.span JS.isWord r) as [x y]. cbn in Hw.
    destruct (JS.truthy x) eqn:Et; [|discriminate].
    intros H. injection H as <- _. now split.
  - intros H. exfalso. revert H.
    destruct c as [[] [] [] [] [] [] [] []]; discriminate.
Qed.

(** X1. [extractDecorators] returns every name that follows an [@] in
    the section and nothing else, each name once; every name returned is
    a non-empty run of word characters. *)
Theorem extractDecorators_distinct_names (section : string) :
  NoDup (extractDecorators section) /\
  (forall d, In d (extractDecorators section) <-> In d (Rx.all decoratorAt section)) /\
  Forall isIdentifier (extractDecorators section).
Proof.
  unfold extractDecorators.
  destruct (collect_once (Rx.all decoratorAt section) []) as [Hnd Hin].
  cbv zeta in Hnd, Hin. split; [apply Hnd; constructor|]. split.
  - intros d. rewrite Hin. cbn. tauto.
  - apply Forall_forall. intros d Hd. apply Hin in Hd as [[] | Hd].
    apply allFrom_In in Hd as (prev & t & len & Hm).
    eapply decoratorAt_word, Hm.
Qed.

(** A decorator that occurs twice is returned once. *)
Example extractDecorators_sample :
  extractDecorators "@Submit() and @Evaluate(), then @Submit() again" =
  ["Submit"; "Evaluate"].
Proof. reflexivity. Qed.

End DecoratorFacts.

Section CleanDescriptionFacts.

Import Typedoc.

Lemma linkAt_head (prev : option ascii) (s : string) (x : string * nat) :
  linkAt prev s = Some x -> Rx.startsWithChar "[" s = true.
Proof.
  unfold linkAt. destruct s as [|c r]; [discriminate|].
  destruct c as [[] [] [] [] [] [] [] []]; try discriminate. reflexivity.
Qed.

Lemma delimitedAt_head (delim : string) (stop : ascii) (prev : option ascii)
      (s : string) (x : string * nat) (a : ascii) (d : string) :
  delim = String a d ->
  delimitedAt delim stop prev s = Some x -> Rx.startsWithChar a s = true.
Proof.
  intros ->. unfold delimitedAt.
  destruct (String.prefix (String a d) s) eqn:E; [|discriminate].
  intros _. destruct s as [|c r]; [discriminate|].
  apply prefix_head in E. subst. cbn. apply Ascii.eqb_refl.
Qed.

Lemma plainText_tail (c : ascii) (r : string) :
  plainText (String c r) = true -> plainText r = true.
Proof. unfold plainText. cbn. intros H. now apply andb_prop in H. Qed.

Lemma plainText_head (a : ascii) (s : string) :
  isMarkup a = true -> plainText s = true -> Rx.startsWithChar a s = false.
Proof.
  intros Ha. destruct s as [|c r]; [reflexivity|]. unfold plainText. cbn.
  intros H. apply andb_prop in H as [Hc _].
  destruct (Ascii.eqb a c) eqn:E; [|reflexivity].
  apply Ascii.eqb_eq in E. subst c. rewrite Ha in Hc. discriminate.
Qed.

(** A replacement whose pattern starts with a markup character leaves a
    text without markup as it is. *)
Lemma replaceAll_plain (m : option ascii -> string -> option (string * nat)) (a : ascii) :
  isMarkup a = true ->
  (forall prev s x, m prev s = Some x -> Rx.startsWithChar a s = true) ->
  forall s, plainText s = true -> Rx.replaceAll m s = s.
Proof.
  intros Ha Hm s Hs. unfold Rx.replaceAll.
  apply (replaceFrom_none m (fun t => plainText t = true)); [apply plainText_tail| |exact Hs].
  intros prev t Ht. destruct (m prev t) as [x|] eqn:E; [|reflexivity].
  apply Hm in E. rewrite (plainText_head a t Ha Ht) in E. discriminate.
Qed.

(** X2. [cleanDescription] only trims a text that holds no opening
    square bracket, no backquote and no asterisk: none of its four
    replacements changes such a text. *)
Theorem cleanDescription_plain_text (text : string) :
  plainText text = true -> cleanDescription text = JS.trim text.
Proof.
  intros H. unfold cleanDescription.
  rewrite (replaceAll_plain linkAt "["); [|reflexivity|apply linkAt_head|exact H].
  rewrite (replaceAll_plain (delimitedAt "`" "`") "`"); [|reflexivity| |exact H].
  2:{ intros prev s x. now apply delimitedAt_head with (d := ""). }
  rewrite (replaceAll_plain (delimitedAt "**" "*") "*"); [|reflexivity| |exact H].
  2:{ intros prev s x. now apply delimitedAt_head with (d := "*"). }
  rewrite (replaceAll_plain (delimitedAt "*" "*") "*"); [|reflexivity| |exact H].
  2:{ intros prev s x. now apply delimitedAt_head with (d := ""). }
  reflexivity.
Qed.

(** X2 at a sentence with white space around it. *)
Lemma cleanDescription_plain_text_sample :
  cleanDescription "  Creates a token class.  " = "Creates a token class.".
Proof. apply (cleanDescription_plain_text "  Creates a token class.  "). reflexivity. Defined.

(** With markup: the link text, the code and the emphasized words stay,
    their delimiters go. *)
Example cleanDescription_markup_sample :
  cleanDescription "See [the guide](https://x.y/z), `submit` and **all** *others*." =
  "See the guide, submit and all others.".
Proof. reflexivity. Qed.

End CleanDescriptionFacts.

Section SplitParamsMore.

Import Typedoc.

Lemma groupsFrom_length (s : string) :
  forall d, List.length (groupsFrom d s) <= 1 + commas s.
Proof.
  unfold commas. induction s as [|c s IH]; intros d; cbn [groupsFrom]; [cbn; lia|].
  cbn [list_ascii_of_string filter].
  assert (Hcons : forall d',
             List.length (match groupsFrom d' s with
                          | [] => [String c ""]
                          | g :: gs => String c g :: gs
                          end)
             <= 1 + List.length (filter (Ascii.eqb ",") (list_ascii_of_string s))).
  { intros d'. specialize (IH d'). destruct (groupsFrom d' s); cbn in *; lia. }
  assert (Hmono : 1 + List.length (filter (Ascii.eqb ",") (list_ascii_of_string s))
                  <= 1 + List.length (if Ascii.eqb "," c
                                      then c :: filter (Ascii.eqb ",") (list_ascii_of_string s)
                                      else filter (Ascii.eqb ",") (list_ascii_of_string s))).
  { destruct (Ascii.eqb "," c); cbn; lia. }
  destruct (isOpener c); [specialize (Hcons (d + 1)%Z); lia|].
  destruct (isCloser c); [specialize (Hcons (d - 1)%Z); lia|].
  destruct (Ascii.eqb c "," && (d =? 0)%Z) eqn:E; [|specialize (Hcons d); lia].
  apply andb_prop in E as [E _]. apply Ascii.eqb_eq in E. subst c.
  specialize (IH d). cbn in *. lia.
Qed.

Lemma removelast_length_le {A : Type} (l : list A) :
  List.length (removelast l) <= List.length l.
Proof. induction l as [|x [|y l] IH]; cbn in *; lia. Qed.

(** X3. Every part that [splitParams] returns is trimmed, there is at
    most one part more than the string has commas, and a string of white
    space yields no part. *)
Theorem splitParams_parts (paramStr : string) :
  Forall (fun part => JS.trim part = part) (splitParams paramStr) /\
  List.length (splitParams paramStr) <= 1 + commas paramStr /\
  (forallb JS.isSpace (list_ascii_of_string paramStr) = true ->
   splitParams paramStr = []).
Proof.
  rewrite splitParams_groups. unfold loopGroups.
  pose proof (groupsFrom_length paramStr 0%Z) as Hlen.
  repeat split.
  - apply Forall_forall. intros p Hp.
    destruct (JS.truthy _);
      apply in_map_iff in Hp as (g & <- & _); apply trim_idem.
  - destruct (JS.truthy _); rewrite length_map; [exact Hlen|].
    pose proof (removelast_length_le (groupsFrom 0 paramStr)). lia.
  - intros Hb. rewrite (groups_of_blank paramStr 0%Z Hb). cbn [last].
    now rewrite (trim_of_blank paramStr Hb).
Qed.

(** X3 at three spaces. *)
Lemma splitParams_parts_blank : splitParams "   " = [].
Proof. apply (splitParams_parts "   "). reflexivity. Defined.

Lemma prependTo_cons (c : ascii) (a : string) (gs : list string) :
  match prependTo a gs with
  | [] => [String c ""]
  | g :: gs' => String c g :: gs'
  end = prependTo (String c a) gs.
Proof. destruct gs; reflexivity. Qed.

(** Characters that are neither brackets nor commas at depth 0 stay in
    the group that is being read. *)
Lemma groupsFrom_run (a b : string) (d : Z) :
  forallb (fun c => negb (isBracket c || (Ascii.eqb c "," && (d =? 0)%Z)))
          (list_ascii_of_string a) = true ->
  groupsFrom d (a ^^ b) = prependTo a (groupsFrom d b).
Proof.
  induction a as [|c a IH]; cbn [append list_ascii_of_string forallb].
  - intros _. pose proof (groupsFrom_nonempty b d). now destruct (groupsFrom d b).
  - intros H. apply andb_prop in H as [Hc Ha]. apply negb_true_iff in Hc.
    apply orb_false_elim in Hc as [Hb Hcomma]. unfold isBracket in Hb.
    apply orb_false_elim in Hb as [Ho Hcl].
    cbn [groupsFrom]. rewrite Ho, Hcl, Hcomma, (IH Ha). apply prependTo_cons.
Qed.

Lemma groupsFrom_bracket (c : ascii) (s : string) (d : Z) :
  isBracket c = true ->
  groupsFrom d (String c s) =
  match groupsFrom (if isOpener c then d + 1 else d - 1)%Z s with
  | [] => [String c ""]
  | g :: gs => String c g :: gs
  end.
Proof.
  unfold isBracket. intros H. cbn [groupsFrom].
  destruct (isOpener c); [reflexivity|]. cbn in H. now rewrite H.
Qed.

Lemma noSeparator_run (s : string) (d : Z) :
  noSeparator s = true ->
  forallb (fun c => negb (isBracket c || (Ascii.eqb c "," && (d =? 0)%Z)))
          (list_ascii_of_string s) = true.
Proof.
  unfold noSeparator. induction (list_ascii_of_string s) as [|c l IH]; cbn; [trivial|].
  intros H. apply andb_prop in H as [Hc Hl]. rewrite (IH Hl), andb_true_r.
  apply negb_true_iff in Hc. apply orb_false_elim in Hc as [Hb Hcomma].
  now rewrite Hb, Hcomma.
Qed.

Lemma noBracket_run (s : string) (d : Z) :
  noBracket s = true -> d <> 0%Z ->
  forallb (fun c => negb (isBracket c || (Ascii.eqb c "," && (d =? 0)%Z)))
          (list_ascii_of_string s) = true.
Proof.
  unfold noBracket. intros H Hd. apply Z.eqb_neq in Hd. rewrite Hd.
  induction (list_ascii_of_string s) as [|c l IH]; cbn in *; [trivial|].
  apply andb_prop in H as [Hc Hl]. rewrite (IH Hl), andb_true_r.
  apply negb_true_iff in Hc. now rewrite Hc, andb_false_r.
Qed.

Lemma opener_not_closer (c : ascii) : isOpener c = true -> isCloser c = false.
Proof.
  unfold isOpener, isCloser. intros H.
  repeat (apply orb_prop in H as [H|H]); apply Ascii.eqb_eq in H; now subst.
Qed.

Lemma bracket_not_space (c : ascii) : isBracket c = true -> JS.isSpace c = false.
Proof.
  unfold isBracket, isOpener, isCloser. intros H.
  repeat (apply orb_prop in H as [H|H]); apply Ascii.eqb_eq in H; now subst.
Qed.

(** X4. A parameter text that holds one bracketed part, with commas
    only inside the brackets, is not split: [splitParams] returns it
    whole, trimmed.  The opening and the closing bracket may be any of
    the four kinds. *)
Theorem splitParams_keeps_nested_commas (x inner y : string) (o c : ascii) :
  noSeparator x = true -> noBracket inner = true -> noSeparator y = true ->
  isOpener o = true -> isCloser c = true ->
  splitParams (x ^^ String o (inner ^^ String c y)) =
  [JS.trim (x ^^ String o (inner ^^ String c y))].
Proof.
  intros Hx Hi Hy Ho Hc.
  assert (Hg : loopGroups (x ^^ String o (inner ^^ String c y)) =
               [x ^^ String o (inner ^^ String c y)]).
  { unfold loopGroups.
    rewrite (groupsFrom_run x _ 0 (noSeparator_run x 0 Hx)).
    rewrite groupsFrom_bracket by (unfold isBracket; now rewrite Ho).
    rewrite Ho.
    rewrite (groupsFrom_run inner _ (0 + 1) (noBracket_run inner (0 + 1) Hi ltac:(lia))).
    rewrite groupsFrom_bracket by (unfold isBracket; rewrite Hc; apply orb_true_r).
    destruct (isOpener c) eqn:Eoc; [apply opener_not_closer in Eoc; congruence|].
    replace (0 + 1 - 1)%Z with 0%Z by lia.
    rewrite <- (append_empty_r y) at 1.
    rewrite (groupsFrom_run y "" 0 (noSeparator_run y 0 Hy)).
    cbn [groupsFrom prependTo]. now rewrite append_empty_r. }
  rewrite splitParams_groups, Hg. cbn [last map].
  rewrite trim_truthy; [reflexivity|].
  apply bracket_not_space. unfold isBracket. now rewrite Ho.
Qed.

(** X4 at a parameter of a generic type with two arguments. *)
Lemma splitParams_keeps_nested_commas_Map :
  splitParams "m: Map<string, number>" = ["m: Map<string, number>"].
Proof.
  apply (splitParams_keeps_nested_commas "m: Map" "string, number" "" "<" ">");
    reflexivity.
Defined.

End SplitParamsMore.

Section BulletFacts.

Import Typedoc.

Lemma paramDescAt_head (prev : option ascii) (s : string) :
  match s with String b _ => isBullet b = false | EmptyString => True end ->
  paramDescAt prev s = None.
Proof.
  unfold paramDescAt. destruct s as [|b r]; [reflexivity|]. now intros ->.
Qed.

(** The expression of the bullet-list lines matches nowhere in a text
    without bullet, hyphen and asterisk. *)
Lemma paramDescMatches_noBullet (section : string) :
  noBullet section = true -> paramDescMatches section = [].
Proof.
  intros H. unfold paramDescMatches, Rx.all.
  apply (allFrom_none paramDescAt (fun t => noBullet t = true)); [| |exact H].
  - unfold noBullet. cbn. intros c r Hc. now apply andb_prop in Hc.
  - intros prev t Ht. apply paramDescAt_head. destruct t as [|b r]; [exact I|].
    unfold noBullet in Ht. cbn in Ht. apply andb_prop in Ht as [Hb _].
    now apply negb_true_iff in Hb.
Qed.

(** X5. When the section holds no bullet (U+2022), no hyphen and no
    asterisk, the bullet-list pass of [parseParams] finds no line: the
    parameters are those of the signature. *)
Theorem parseParams_without_bullets (section signature : string) :
  noBullet section = true ->
  parseParams section signature = signatureParams signature.
Proof.
  intros H. unfold parseParams.
  rewrite (paramDescMatches_noBullet section H). reflexivity.
Qed.

(** Each of the three characters starts a bullet-list line: the lines
    [- a (number) - the a], [* a (number): the a] and the line with a
    bullet and an en dash all replace the type of [a] and set its
    description. *)
Example bullet_characters_sample :
  let expected := [ParamInfo.mk "a" "number" "the a" false] in
  parseParams "- a (number) - the a" "foo(a: string)" = expected /\
  parseParams "* a (number): the a" "foo(a: string)" = expected /\
  parseParams (String JS.bullet " a (number) " ^^ String JS.enDash " the a")
              "foo(a: string)" = expected.
Proof. cbv zeta. repeat split; reflexivity. Qed.

(** X5 at the signature of the scenario. *)
Lemma parseParams_without_bullets_createToken :
  parseParams "Creates a token." Samples.createTokenSignature =
  signatureParams Samples.createTokenSignature.
Proof.
  apply (parseParams_without_bullets "Creates a token." Samples.createTokenSignature).
  reflexivity.
Defined.

End BulletFacts.

Section WellFormed.

Import Typedoc.

Lemma span_word_identifier (s : string) :
  JS.truthy (fst (Rx.span JS.isWord s)) = true -> isIdentifier (fst (Rx.span JS.isWord s)).
Proof. intros H. split; [exact H | apply span_fst_forallb]. Qed.

Lemma classNameOf_identifier (firstLine className : string) :
  classNameOf firstLine = Some className -> isIdentifier className.
Proof.
  unfold classNameOf. destruct (Rx.optChar _ firstLine) as [k r].
  pose proof (span_word_identifier r) as H.
  destruct (Rx.span JS.isWord r) as [w rest]. cbn in H.
  destruct (JS.truthy w); [|discriminate]. intros E. injection E as <-. now apply H.
Qed.

(** What holds of every declaration that [parseClassSection] builds
    under a name read by [classNameOf] holds of every declaration that
    the parser returns. *)
Lemma parsed_declarations (P : ClassInfo.t -> Prop) (content filePath : string) :
  (forall firstLine name section c,
      classNameOf firstLine = Some name ->
      parseClassSection name section (detectPackageFromPath filePath) filePath
                        (getSourceUrl filePath (detectPackageFromPath filePath)) = Some c ->
      P c) ->
  Forall P (parseTypedocMarkdown content filePath).
Proof.
  intros HP. unfold parseTypedocMarkdown, topLevelPass. cbv zeta.
  apply fold_left_Forall; [|apply fold_left_Forall; [|constructor]].
  - intros l section H. unfold nestedStep. cbv zeta.
    destruct (negb _); [exact H|].
    destruct (classNameOf _) as [n|] eqn:En; [|exact H].
    destruct (existsb _ l); [exact H|].
    destruct (parseClassSection _ _ _ _ _) as [c|] eqn:Ec; [|exact H].
    apply Forall_app. split; [exact H|]. constructor; [|constructor].
    eapply HP; [exact En | exact Ec].
  - intros l section H. unfold topLevelStep. cbv zeta.
    destruct (_ || _); [exact H|].
    destruct (classNameOf _) as [n|] eqn:En; [|exact H].
    destruct (parseClassSection _ _ _ _ _) as [c|] eqn:Ec; [|exact H].
    apply Forall_app. split; [exact H|]. constructor; [|constructor].
    eapply HP; [exact En | exact Ec].
Qed.

Lemma parseClassSection_fields (name section pkg filePath sourceUrl : string)
      (c : ClassInfo.t) :
  parseClassSection name section pkg filePath sourceUrl = Some c ->
  ClassInfo.name c = name /\ ~ In name skipNames /\
  In (ClassInfo.type c) declarationKinds /\
  ClassInfo.package c = pkg /\ ClassInfo.filePath c = filePath /\
  ClassInfo.sourceUrl c = sourceUrl.
Proof.
  unfold parseClassSection.
  destruct (JS.arrayIncludes skipNames name) eqn:E; [discriminate|].
  intros H. injection H as <-. cbn [ClassInfo.name ClassInfo.type ClassInfo.package
                                     ClassInfo.filePath ClassInfo.sourceUrl].
  repeat split.
  - intros Hin. apply arrayIncludes_In in Hin. congruence.
  - unfold declarationKinds.
    destruct (_ || JS.startsWith name "I"); [cbn; tauto|].
    destruct (JS.includes _ "type alias"); [cbn; tauto|].
    destruct (_ || JS.endsWith name "Enum"); [cbn; tauto|].
    destruct (JS.includes _ "function"); cbn; tauto.
Qed.

(** X6. Every declaration that [parseTypedocMarkdown] returns has a
    name that is a non-empty run of word characters and none of the
    section headers that [parseClassSection] skips, a type among class,
    interface, type, enum and function, and the package, the file path
    and the source URL of the file. *)
Theorem declarations_are_well_formed (content filePath : string) :
  Forall (wellFormedDeclaration filePath) (parseTypedocMarkdown content filePath).
Proof.
  apply parsed_declarations. intros firstLine name section c En Ec.
  apply parseClassSection_fields in Ec as (E1 & E2 & E3 & E4 & E5 & E6).
  apply classNameOf_identifier in En.
  unfold wellFormedDeclaration. rewrite E1. tauto.
Qed.

Lemma stripMarkup_clean (s : string) : noQuoteMarkup (stripMarkup s) = true.
Proof.
  unfold noQuoteMarkup. induction s as [|c s IH]; [reflexivity|]. cbn [stripMarkup].
  destruct (Ascii.eqb c "`" || Ascii.eqb c "[" || Ascii.eqb c "]") eqn:E; [exact IH|].
  cbn [list_ascii_of_string forallb]. now rewrite E, IH.
Qed.

Lemma extendsAt_identifier (prev : option ascii) (s parent : string) :
  extendsAt prev s = Some parent -> isIdentifier parent.
Proof.
  unfold extendsAt. destruct (Rx.iprefix "extends" s); [|discriminate].
  destruct (Rx.span Rx.isColonSpace _) as [run r2].
  destruct (JS.truthy run); [|discriminate].
  destruct (Rx.optChar _ r2) as [k r3].
  pose proof (span_word_identifier r3) as H.
  destruct (Rx.span JS.isWord r3) as [w rest]. cbn in H.
  destruct (JS.truthy w); [|discriminate]. intros E. injection E as <-. now apply H.
Qed.

(** X7. Every declaration that [parseTypedocMarkdown] returns has a
    trimmed description; its extends clause, when there is one, is a
    non-empty run of word characters; and every entry of its implements
    clause is non-empty and holds neither a backquote nor a square
    bracket. *)
Theorem declaration_texts_are_clean (content filePath : string) :
  Forall cleanDeclaration (parseTypedocMarkdown content filePath).
Proof.
  apply parsed_declarations. intros firstLine name section c _.
  unfold parseClassSection.
  destruct (JS.arrayIncludes skipNames name); [discriminate|].
  intros H. injection H as <-. unfold cleanDeclaration.
  cbn [ClassInfo.description ClassInfo.extendsClause ClassInfo.implementsClause].
  split; [unfold cleanDescription; apply trim_idem|]. split.
  - intros parent Hp. apply first_Some in Hp as (prev & t & Hp).
    eapply extendsAt_identifier, Hp.
  - destruct (Rx.first implementsAt section) as [list|]; [|constructor].
    apply Forall_forall. intros i Hi. apply filter_In in Hi as [Hi Hlen].
    apply in_map_iff in Hi as (x & <- & _). split; [|apply stripMarkup_clean].
    destruct (stripMarkup (JS.trim x)); [discriminate | reflexivity].
Qed.

(** The clauses of a declaration with markup around the names. *)
Example declaration_texts_sample :
  map (fun c => (ClassInfo.extendsClause c, ClassInfo.implementsClause c))
      (parseTypedocMarkdown
         (JS.join Samples.nl
            ["## Foo"; ""; "Extends: `Base`"; ""; "Implements: `A`, [B], "; ""])
         Samples.apiPath)
  = [(Some "Base", ["A"; "B"])].
Proof. reflexivity. Qed.

End WellFormed.

Section MemberShape.

Import Typedoc.

Lemma parseMemberSection_fields (name section : string) (m : MemberInfo.t) :
  parseMemberSection name section = Some m ->
  MemberInfo.name m = name /\ In (MemberInfo.type m) memberKinds /\
  In (MemberInfo.visibility m) visibilities.
Proof.
  unfold parseMemberSection. cbv zeta. intros H. injection H as <-.
  cbn [MemberInfo.name MemberInfo.type MemberInfo.visibility]. repeat split.
  - unfold memberKinds. destruct (_ || String.eqb name "new"); [cbn; tauto|].
    destruct (negb _ && negb _); [cbn; tauto|].
    destruct (_ || JS.includes section "set "); cbn; tauto.
  - unfold visibilities. destruct (_ || JS.includes section "protected"); [cbn; tauto|].
    destruct (_ || JS.includes section "private"); cbn; tauto.
Qed.

Lemma memberHeadingAt_identifier (prev : option ascii) (s name after : string)
      (len k : nat) :
  memberHeadingAt prev s = Some ((name, len, after), k) -> isIdentifier name.
Proof.
  unfold memberHeadingAt. destruct (Rx.atLineStart prev); [|discriminate].
  destruct (Rx.span (Ascii.eqb "#") s) as [hashes r].
  destruct (_ || _); [|discriminate].
  destruct (Rx.span JS.isSpace r) as [w r2].
  pose proof (span_word_identifier r2) as H.
  destruct (Rx.span JS.isWord r2) as [n rest]. cbn in H.
  destruct (JS.truthy w); [|discriminate]. cbn [andb].
  destruct (JS.truthy n); [|discriminate].
  intros E. injection E as <- _ _ _. now apply H.
Qed.

Lemma nameBeforeParen_identifier (signature name : string) :
  nameBeforeParen signature = Some name -> isIdentifier name.
Proof.
  unfold nameBeforeParen. intros H. apply first_Some in H as (prev & t & H).
  unfold nameBeforeParenAt in H.
  pose proof (span_word_identifier t) as Hw.
  destruct (Rx.span JS.isWord t) as [w r]. cbn in Hw.
  destruct (JS.truthy w); [|discriminate].
  destruct (Rx.span JS.isSpace r) as [x r2].
  destruct (Rx.startsWithChar "(" r2); [|discriminate].
  injection H as <-. now apply Hw.
Qed.

Lemma parseMemberFromSignature_fields (signature context : string) (m : MemberInfo.t) :
  parseMemberFromSignature signature context = Some m -> wellFormedMember m.
Proof.
  unfold parseMemberFromSignature.
  destruct (nameBeforeParen signature) as [n|] eqn:En; [|discriminate].
  intros H. injection H as <-. apply nameBeforeParen_identifier in En.
  unfold wellFormedMember. cbn [MemberInfo.name MemberInfo.type MemberInfo.visibility].
  split; [exact En|]. unfold memberKinds, visibilities.
  destruct (String.eqb n "constructor"); cbn; tauto.
Qed.

(** The members of the first loop of [parseMembers]. *)
Lemma headingMembers_shape (section : string) :
  Forall (fun m => wellFormedMember m /\ ~ In (MemberInfo.name m) structuralLabels)
         (headingMembers section).
Proof.
  unfold headingMembers.
  assert (Hall : Forall (fun x => isIdentifier (fst (fst x)))
                        (Rx.all memberHeadingAt section)).
  { apply Forall_forall. intros [[n len] after] Hx.
    apply allFrom_In in Hx as (prev & t & k & Hm).
    eapply memberHeadingAt_identifier, Hm. }
  revert Hall. generalize (Rx.all memberHeadingAt section) as found.
  intros found Hall.
  assert (Hgen : forall acc,
             Forall (fun m => wellFormedMember m /\
                              ~ In (MemberInfo.name m) structuralLabels) acc ->
             Forall (fun m => wellFormedMember m /\
                              ~ In (MemberInfo.name m) structuralLabels)
               (fold_left
                  (fun members '(memberName, len, afterMatch) =>
                     if JS.arrayIncludes structuralLabels memberName then members
                     else match parseMemberSection memberName
                                  (memberSectionOf len afterMatch) with
                          | Some member => members ++ [member]
                          | None => members
                          end) found acc)).
  { induction Hall as [|[[n len] after] found Hn _ IH]; intros acc Hacc; cbn [fold_left];
      [exact Hacc|].
    apply IH. destruct (JS.arrayIncludes structuralLabels n) eqn:E; [exact Hacc|].
    destruct (parseMemberSection n _) as [m|] eqn:Em; [|exact Hacc].
    apply Forall_app. split; [exact Hacc|]. constructor; [|constructor].
    apply parseMemberSection_fields in Em as (E1 & E2 & E3).
    unfold wellFormedMember. rewrite E1. repeat split; try assumption; try apply Hn.
    intros Hin. apply arrayIncludes_In in Hin. congruence. }
  apply Hgen. constructor.
Qed.

(** X8. Every member that [parseMembers] returns has a name that is a
    non-empty run of word characters, a type among method, property,
    constructor and accessor, and a visibility among public, protected
    and private; no member read from a heading is named after one of the
    structural labels (Constructor, Methods, Properties, Accessors,
    Parameters, Returns). *)
Theorem members_are_well_formed (section : string) :
  Forall wellFormedMember (parseMembers section) /\
  Forall (fun m => ~ In (MemberInfo.name m) structuralLabels) (headingMembers section).
Proof.
  pose proof (headingMembers_shape section) as Hh.
  split; [|eapply Forall_impl; [|exact Hh]; now intros m [_ H]].
  unfold parseMembers, signatureMembers.
  apply fold_left_Forall; [|eapply Forall_impl; [|exact Hh]; now intros m [H _]].
  intros l [raw ctx] Hl. unfold signatureStep. cbv zeta.
  destruct (nameBeforeParen _); [|exact Hl].
  destruct (existsb _ l); [exact Hl|].
  destruct (parseMemberFromSignature _ _) as [m|] eqn:Em; [|exact Hl].
  apply Forall_app. split; [exact Hl|]. constructor; [|constructor].
  eapply parseMemberFromSignature_fields, Em.
Qed.

End MemberShape.

Section FreshNames.

Import Typedoc.

(** A loop whose body either leaves the list alone or appends one
    element whose key is not in the list appends elements with distinct
    keys, none of which was there at the start. *)
Lemma fold_append_fresh {A B : Type} (key : A -> string) (step : list A -> B -> list A) :
  (forall l b, step l b = l \/
               exists a, step l b = l ++ [a] /\ ~ In (key a) (map key l)) ->
  forall bs l, exists added,
    fold_left step bs l = l ++ added /\
    NoDup (map key added) /\
    (forall a, In a added -> ~ In (key a) (map key l)).
Proof.
  intros Hstep. induction bs as [|b bs IH]; intros l; cbn [fold_left].
  - exists []. rewrite app_nil_r. repeat split; [constructor | intros a []].
  - destruct (Hstep l b) as [E | (a & E & Hfresh)]; rewrite E; [apply IH|].
    destruct (IH (l ++ [a])) as (added & Efold & Hnd & Hnew).
    exists (a :: added). rewrite Efold, <- app_assoc. cbn [app map].
    split; [reflexivity|]. split.
    + constructor; [|exact Hnd]. intros Hin. apply in_map_iff in Hin as (a' & Ek & Ha').
      apply (Hnew a' Ha'). rewrite map_app, in_app_iff. right. cbn. now left.
    + intros x [<- | Hx]; [exact Hfresh|].
      intros Hin. apply (Hnew x Hx). rewrite map_app, in_app_iff. now left.
Qed.

Lemma existsb_member_name (n : string) (members : list MemberInfo.t) :
  existsb (fun m => String.eqb (MemberInfo.name m) n) members = false ->
  ~ In n (map MemberInfo.name members).
Proof.
  induction members as [|m members IH]; cbn; [tauto|].
  intros H. apply orb_false_elim in H as [Hm Hrest].
  apply String.eqb_neq in Hm. intros [E | Hin]; [congruence | now apply IH].
Qed.

(** X9. The second loop of [parseMembers] (signatures in code blocks)
    only appends to the members read from the headings, and what it
    appends has names that differ from one another and from the names of
    all members read from the headings. *)
Theorem signature_pass_adds_new_names (section : string) :
  exists added,
    parseMembers section = headingMembers section ++ added /\
    NoDup (map MemberInfo.name added) /\
    (forall m, In m added ->
               ~ In (MemberInfo.name m) (map MemberInfo.name (headingMembers section))).
Proof.
  unfold parseMembers, signatureMembers. apply fold_append_fresh.
  intros l [raw ctx]. unfold signatureStep. cbv zeta. cbn [fst snd].
  destruct (nameBeforeParen (JS.trim raw)) as [n|] eqn:En; [|now left].
  destruct (existsb _ l) eqn:Ex; [now left|].
  destruct (parseMemberFromSignature _ _) as [m|] eqn:Em; [|now left].
  right. exists m. split; [reflexivity|].
  apply parseMemberFromSignature_name in Em as [Em _].
  assert (MemberInfo.name m = n) as -> by congruence.
  now apply existsb_member_name.
Qed.

(** X10. The second loop of [parseTypedocMarkdown] (the nested pass)
    only appends to the declarations of the top-level pass, and what it
    appends has names that differ from one another and from the names of
    all declarations of the top-level pass. *)
Theorem nested_pass_adds_new_names (content filePath : string) :
  exists added,
    parseTypedocMarkdown content filePath = topLevelPass content filePath ++ added /\
    NoDup (map ClassInfo.name added) /\
    (forall c, In c added ->
               ~ In (ClassInfo.name c)
                    (map ClassInfo.name (topLevelPass content filePath))).
Proof.
  unfold parseTypedocMarkdown. cbv zeta. apply fold_append_fresh.
  intros l section. unfold nestedStep. cbv zeta.
  destruct (negb _); [now left|].
  destruct (classNameOf _) as [n|]; [|now left].
  destruct (existsb _ l) eqn:Ex; [now left|].
  destruct (parseClassSection _ _ _ _ _) as [c|] eqn:Ec; [|now left].
  right. exists c. split; [reflexivity|].
  rewrite (parseClassSection_name _ _ _ _ _ _ Ec). now apply existsb_class_name.
Qed.

End FreshNames.

(* ================================================================== *)
(** * Packages, categories and source URLs *)
(* ================================================================== *)

Section PathFacts.

Import Typedoc.

(** X11. For every file path, the two parsers agree on the package
    whenever the reference parser recognizes one; where it answers
    [unknown], the guide parser answers [chain-cli] for a path that
    holds that text and [guides] otherwise. *)
Theorem parsers_agree_on_package (filePath : string) :
  (detectPackageFromPath filePath <> "unknown" ->
   Guide.detectPackage filePath = detectPackageFromPath filePath) /\
  (detectPackageFromPath filePath = "unknown" ->
   Guide.detectPackage filePath =
   if JS.includes filePath "chain-cli" then "chain-cli" else "guides").
Proof.
  unfold detectPackageFromPath, Guide.detectPackage.
  destruct (JS.includes filePath "chain-api-docs"); [split; [reflexivity | discriminate]|].
  destruct (JS.includes filePath "chain-client-docs"); [split; [reflexivity | discriminate]|].
  destruct (JS.includes filePath "chain-test-docs"); [split; [reflexivity | discriminate]|].
  destruct (JS.includes filePath "chaincode-docs"); [split; [reflexivity | discriminate]|].
  split; [intros H; now elim H | reflexivity].
Qed.

(** X11 at a reference file and at the README of the command-line
    tool. *)
Lemma parsers_agree_on_package_sample :
  Guide.detectPackage Samples.apiPath = "chain-api" /\
  Guide.detectPackage "docs/chain-cli/README.md" = "chain-cli".
Proof.
  split.
  - apply (proj1 (parsers_agree_on_package Samples.apiPath)). discriminate.
  - apply (proj2 (parsers_agree_on_package "docs/chain-cli/README.md")). reflexivity.
Defined.

Lemma includes_char (s : string) (c : ascii) :
  JS.includes s (String c "") = existsb (Ascii.eqb c) (list_ascii_of_string s).
Proof.
  induction s as [|d s IH]; [reflexivity|].
  cbn [JS.includes String.prefix list_ascii_of_string existsb].
  destruct (ascii_dec c d) as [->|N].
  - rewrite Ascii.eqb_refl. now destruct s.
  - apply Ascii.eqb_neq in N. now rewrite N, IH.
Qed.

Lemma backslashToSlash_clean (s : string) :
  existsb (Ascii.eqb "\") (list_ascii_of_string (Guide.backslashToSlash s)) = false.
Proof.
  induction s as [|c s IH]; [reflexivity|].
  cbn [Guide.backslashToSlash list_ascii_of_string existsb]. rewrite IH, orb_false_r.
  destruct (Ascii.eqb c "\") eqn:E; [reflexivity|].
  rewrite Ascii.eqb_sym. exact E.
Qed.

Lemma substring_all (s : string) : String.substring 0 (String.length s) s = s.
Proof. induction s as [|c s IH]; cbn; [reflexivity | now rewrite IH]. Qed.

Lemma prefix_split (p s : string) :
  String.prefix p s = true -> s = p ^^ Rx.drop (String.length p) s.
Proof.
  unfold Rx.drop. revert s. induction p as [|a p IH]; intros s.
  - intros _. cbn [String.length append]. now rewrite Nat.sub_0_r, substring_all.
  - destruct s as [|c s]; [discriminate|]. cbn [String.prefix].
    destruct (ascii_dec a c) as [->|]; [|discriminate].
    intros H. cbn. f_equal. now apply IH.
Qed.

(** What the expression of [filePathToUrl] and [getSourceUrl] captures:
    the text after a marker [galachain-sdk] and one separator. *)
Lemma sdkRelative_sound (s rel : string) :
  Guide.sdkRelative s = Some rel ->
  exists pre sep,
    s = pre ^^ "galachain-sdk" ^^ String sep rel /\
    Guide.isSlash sep = true /\ JS.truthy rel = true /\
    Guide.noLineTerminator rel = true.
Proof.
  induction s as [|c s IH].
  - cbn. discriminate.
  - cbn [Guide.sdkRelative].
    destruct (String.prefix "galachain-sdk" (String c s)) eqn:Ep.
    + pose proof (prefix_split _ _ Ep) as Es. unfold Rx.drop in Es.
      change (String.length "galachain-sdk") with 13 in Es.
      destruct (String.substring 13 (String.length (String c s) - 13) (String c s))
        as [|sep rest] eqn:Esub.
      * intros H. apply IH in H as (pre & sep & -> & H). exists (String c pre), sep.
        split; [reflexivity | exact H].
      * destruct (Guide.isSlash sep && JS.truthy rest && Guide.noLineTerminator rest) eqn:Eok.
        -- intros H. injection H as <-. exists "", sep.
           apply andb_prop in Eok as [Eok H3]. apply andb_prop in Eok as [H1 H2].
           split; [exact Es | now repeat split].
        -- intros H. apply IH in H as (pre & sep' & -> & H). exists (String c pre), sep'.
           split; [reflexivity | exact H].
    + intros H. apply IH in H as (pre & sep & -> & H). exists (String c pre), sep.
      split; [reflexivity | exact H].
Qed.

Lemma sdkRelative_needs_marker (s : string) :
  JS.includes s "galachain-sdk" = false -> Guide.sdkRelative s = None.
Proof.
  induction s as [|c s IH]; [reflexivity|].
  cbn [JS.includes Guide.sdkRelative].
  destruct (String.prefix "galachain-sdk" (String c s)); [discriminate|]. exact IH.
Qed.

(** X12. The source URL that [filePathToUrl] gives never holds a
    backslash.  For a path without the text [galachain-sdk] the two
    parsers give their fixed documentation URLs.  Where the expression
    of the two functions matches, they give the same URL: the GitHub
    prefix followed by the text that comes after [galachain-sdk] and one
    separator in the path, with every backslash turned into a slash. *)
Theorem source_url_of_path (filePath pkg : string) :
  JS.includes (Guide.filePathToUrl filePath pkg) "\" = false /\
  (JS.includes filePath "galachain-sdk" = false ->
   Guide.filePathToUrl filePath pkg = "https://docs.galachain.com/" /\
   getSourceUrl filePath pkg = "https://docs.galachain.com/latest/" ^^ pkg ^^ "-docs/") /\
  (Guide.sdkRelative filePath <> None ->
   getSourceUrl filePath pkg = Guide.filePathToUrl filePath pkg /\
   exists pre sep rel,
     filePath = pre ^^ "galachain-sdk" ^^ String sep rel /\
     Guide.isSlash sep = true /\
     Guide.filePathToUrl filePath pkg = githubBlob ^^ Guide.backslashToSlash rel).
Proof.
  split; [|split].
  - unfold Guide.filePathToUrl. destruct (Guide.sdkRelative filePath) as [rel|]; [|reflexivity].
    rewrite includes_char, list_ascii_of_append, existsb_app, backslashToSlash_clean.
    reflexivity.
  - intros H. unfold Guide.filePathToUrl, getSourceUrl.
    now rewrite (sdkRelative_needs_marker _ H).
  - unfold Guide.filePathToUrl, getSourceUrl.
    destruct (Guide.sdkRelative filePath) as [rel|] eqn:E; [|intros H; now elim H].
    intros _. split; [reflexivity|].
    apply sdkRelative_sound in E as (pre & sep & Es & Hsep & _).
    exists pre, sep, rel. now repeat split.
Qed.

(** X12 at a relative path and at a path below a Windows checkout. *)
Lemma source_url_of_path_samples :
  (Guide.filePathToUrl Samples.apiPath "chain-api" = "https://docs.galachain.com/" /\
   getSourceUrl Samples.apiPath "chain-api" =
     "https://docs.galachain.com/latest/chain-api-docs/") /\
  (getSourceUrl Samples.windowsPath "unknown" =
     Guide.filePathToUrl Samples.windowsPath "unknown" /\
   exists pre sep rel,
     Samples.windowsPath = pre ^^ "galachain-sdk" ^^ String sep rel /\
     Guide.isSlash sep = true /\
     Guide.filePathToUrl Samples.windowsPath "unknown" =
       githubBlob ^^ Guide.backslashToSlash rel).
Proof.
  split.
  - apply (proj1 (proj2 (source_url_of_path Samples.apiPath "chain-api"))). reflexivity.
  - apply (proj2 (proj2 (source_url_of_path Samples.windowsPath "unknown"))).
    vm_compute. discriminate.
Defined.

Example source_url_windows :
  Guide.filePathToUrl Samples.windowsPath "guides" =
  "https://github.com/GalaChain/sdk/blob/main/docs/intro.md".
Proof. reflexivity. Qed.

End PathFacts.

Section GuideChunkFacts.

Import Guide.

Variable remarkParse : string -> Node.
Variable toString : Node -> string.

Lemma parseMarkdown_sectionChunks (content filePath : string) :
  parseMarkdown remarkParse toString content filePath =
  sectionChunks toString filePath (preorder (remarkParse content)).
Proof.
  unfold parseMarkdown, parseTree. rewrite visit_preorder, run_sections.
  unfold saveChunk, withContent. cbn. reflexivity.
Qed.

Lemma sections_In (ns : list Node) (sec : Node * list Node) :
  In sec (sections ns) -> In (fst sec) ns /\ isHeading (fst sec) = true.
Proof.
  induction ns as [|n rest IH]; cbn [sections]; [intros []|].
  destruct (isHeading n) eqn:E.
  - intros [<- | H]; [split; [now left | exact E]|].
    destruct (IH H). split; [now right | assumption].
  - intros H. destruct (IH H). split; [now right | assumption].
Qed.

Lemma sections_length (ns : list Node) :
  List.length (sections ns) = List.length (filter isHeading ns).
Proof.
  induction ns as [|n rest IH]; cbn; [reflexivity|].
  destruct (isHeading n); cbn; now rewrite IH.
Qed.

(** The category [api] is the category of the paths that [buildIndex]
    also reads as reference files. *)
Lemma detectCategory_api (filePath : string) :
  detectCategory filePath = "api" <-> JS.includes filePath "-docs/" = true.
Proof.
  unfold detectCategory. destruct (JS.includes filePath "-docs/"); [tauto|].
  destruct (JS.includes filePath "getting-started"); [split; discriminate|].
  destruct (JS.includes filePath "from-zero"); [split; discriminate|].
  destruct (JS.includes filePath "README"); [split; discriminate|].
  destruct (JS.includes filePath "CLAUDE"); [split; discriminate|].
  destruct (JS.includes filePath "BREAKING"); split; discriminate.
Qed.

(** X13. Every chunk that [parseMarkdown] returns has a non-empty
    title, which is the text of a heading node of the tree, and that
    node's depth as its level; it carries the path of the file and the
    package, the category and the source URL computed from the path; its
    category is [api] exactly when the path holds [-docs/], the test by
    which [buildIndex] reads a file as a reference file.  There are at
    most as many chunks as the tree has heading nodes. *)
Theorem chunks_carry_heading_and_file (content filePath : string) :
  Forall (fun c =>
            JS.truthy (title c) = true /\
            (exists h, In h (preorder (remarkParse content)) /\
                       type h = "heading" /\
                       title c = toString h /\ headingLevel c = depth h) /\
            package c = detectPackage filePath /\
            category c = detectCategory filePath /\
            Guide.filePath c = filePath /\
            sourceUrl c = filePathToUrl filePath (detectPackage filePath) /\
            (category c = "api" <-> JS.includes filePath "-docs/" = true))
         (parseMarkdown remarkParse toString content filePath) /\
  List.length (parseMarkdown remarkParse toString content filePath)
    <= List.length (filter isHeading (preorder (remarkParse content))).
Proof.
  rewrite parseMarkdown_sectionChunks. unfold sectionChunks. split.
  - apply Forall_forall. intros c Hc.
    apply in_map_iff in Hc as (sec & <- & Hsec).
    apply filter_In in Hsec as [Hsec Hy]. apply sections_In in Hsec as [Hin Hh].
    unfold yieldsChunk in Hy. apply andb_prop in Hy as [Ht _].
    cbn. split; [exact Ht|]. split.
    + exists (fst sec). repeat split; try assumption.
      unfold isHeading in Hh. now apply String.eqb_eq.
    + repeat (split; [reflexivity|]). apply detectCategory_api.
  - rewrite length_map, <- sections_length. apply filter_length_le.
Qed.

End GuideChunkFacts.

(* ================================================================== *)
(** * Invariants of the store and of the index builder *)
(* ================================================================== *)

Section StoreInvariants.

Import Queries.

Lemma increasing_NoDup (ids : list nat) : Store.increasing ids -> NoDup ids.
Proof.
  unfold Store.increasing. induction 1 as [|i ids Hs IH Hi]; constructor; [|exact IH].
  intros Hin. pose proof (proj1 (Forall_forall _ _) Hi i Hin). lia.
Qed.

Lemma insertMembers_increasing (classId : nat) (members : list MemberInfo.t) :
  forall rows,
    Store.increasing (map MemberRow.id rows) ->
    Store.increasing
      (map MemberRow.id (fold_left (Store.insertMember classId) members rows)).
Proof.
  induction members as [|m members IH]; intros rows H; cbn [fold_left]; [exact H|].
  apply IH. unfold Store.insertMember. rewrite map_app. cbn [map Store.memberRow MemberRow.id].
  now apply increasing_snoc.
Qed.

Lemma built_tables_increasing (db : Store.t) :
  Store.built db ->
  Store.increasing (map DocRow.id (Store.docs db)) /\
  Store.increasing (map ClassRow.id (Store.classes db)) /\
  Store.increasing (map MemberRow.id (Store.members db)).
Proof.
  induction 1 as [|db chunk _ (Hd & Hc & Hm)|db cls _ (Hd & Hc & Hm)].
  - repeat split; constructor.
  - cbn [Store.insertDoc Store.docs Store.classes Store.members].
    repeat split; try assumption. rewrite map_app. cbn [map DocRow.id].
    now apply increasing_snoc.
  - cbn [Store.insertClass Store.docs Store.classes Store.members].
    repeat split; try assumption.
    + rewrite map_app. cbn [map ClassRow.id]. now apply increasing_snoc.
    + now apply insertMembers_increasing.
Qed.

(** X14. In every store that insertions build from the empty store, the
    row ids of each of the three tables grow along the table, so no two
    rows of a table share an id. *)
Theorem built_ids_increasing (db : Store.t) :
  Store.built db ->
  (Store.increasing (map DocRow.id (Store.docs db)) /\
   Store.increasing (map ClassRow.id (Store.classes db)) /\
   Store.increasing (map MemberRow.id (Store.members db))) /\
  (NoDup (map DocRow.id (Store.docs db)) /\
   NoDup (map ClassRow.id (Store.classes db)) /\
   NoDup (map MemberRow.id (Store.members db))).
Proof.
  intros Hb. pose proof (built_tables_increasing db Hb) as H.
  split; [exact H|]. destruct H as (Hd & Hc & Hm).
  repeat split; now apply increasing_NoDup.
Qed.

(** X14 at the sample store. *)
Lemma built_ids_increasing_sampleStore :
  (Store.increasing (map DocRow.id (Store.docs Samples.sampleStore)) /\
   Store.increasing (map ClassRow.id (Store.classes Samples.sampleStore)) /\
   Store.increasing (map MemberRow.id (Store.members Samples.sampleStore))) /\
  (NoDup (map DocRow.id (Store.docs Samples.sampleStore)) /\
   NoDup (map ClassRow.id (Store.classes Samples.sampleStore)) /\
   NoDup (map MemberRow.id (Store.members Samples.sampleStore))).
Proof.
  apply (built_ids_increasing Samples.sampleStore).
  unfold Samples.sampleStore. repeat constructor.
Defined.

(** The rows that the loop of [insertClass] adds belong to the class. *)
Lemma insertMembers_rows (classId : nat) (members : list MemberInfo.t) :
  forall rows row,
    In row (fold_left (Store.insertMember classId) members rows) ->
    In row rows \/ MemberRow.class_id row = Some classId.
Proof.
  induction members as [|m members IH]; intros rows row; cbn [fold_left]; [tauto|].
  intros H. apply IH in H as [H | H]; [|now right].
  unfold Store.insertMember in H. apply in_app_or in H as [H | [<- | []]];
    [now left | now right].
Qed.

Lemma built_member_class (db : Store.t) :
  Store.built db ->
  forall m, In m (Store.members db) ->
    exists c, In c (Store.classes db) /\ MemberRow.class_id m = Some (ClassRow.id c).
Proof.
  induction 1 as [|db chunk _ IH|db cls _ IH]; [intros m [] | exact IH |].
  intros m Hm. cbn [Store.insertClass Store.classes Store.members] in *.
  apply insertMembers_rows in Hm as [Hm | Hm].
  - destruct (IH m Hm) as (c & Hc & E). exists c. split; [|exact E].
    apply in_or_app. now left.
  - eexists. split; [apply in_or_app; right; now left|]. exact Hm.
Qed.

(** X15. In every store that insertions build from the empty store,
    each member row refers through [class_id] to exactly one class row of
    the store. *)
Theorem built_members_have_a_class (db : Store.t) (m : MemberRow.t) :
  Store.built db ->
  In m (Store.members db) ->
  exists c, In c (Store.classes db) /\ MemberRow.class_id m = Some (ClassRow.id c) /\
            forall c', In c' (Store.classes db) ->
                       MemberRow.class_id m = Some (ClassRow.id c') -> c' = c.
Proof.
  intros Hb Hm. pose proof (built_tables_increasing db Hb) as (_ & Hinc & _).
  apply increasing_NoDup in Hinc.
  destruct (built_member_class db Hb m Hm) as (c & Hc & E).
  exists c. repeat split; try assumption.
  intros c' Hc' E'. rewrite E in E'. injection E' as E'.
  clear - Hinc Hc Hc' E'. induction (Store.classes db) as [|x l IH]; [destruct Hc|].
  cbn [map] in Hinc. inversion Hinc as [|? ? Hx Hl]; subst.
  destruct Hc as [-> | Hc], Hc' as [-> | Hc'].
  - reflexivity.
  - elim Hx. rewrite E'. now apply in_map.
  - elim Hx. rewrite <- E'. now apply in_map.
  - now apply IH.
Qed.

(** X15 at the first member row of the sample store. *)
Lemma built_members_have_a_class_sample :
  exists c, In c (Store.classes Samples.sampleStore) /\
            MemberRow.class_id Samples.fooBarRow = Some (ClassRow.id c) /\
            forall c', In c' (Store.classes Samples.sampleStore) ->
                       MemberRow.class_id Samples.fooBarRow = Some (ClassRow.id c') ->
                       c' = c.
Proof.
  apply (built_members_have_a_class Samples.sampleStore Samples.fooBarRow).
  - unfold Samples.sampleStore. repeat constructor.
  - vm_compute. now left.
Defined.

End StoreInvariants.

Section IndexerFacts.

Import Queries.

Variable remarkParse : string -> Guide.Node.
Variable toString : Guide.Node -> string.

Lemma insertDocs_tables (chunks : list Guide.DocChunk) :
  forall db,
    Store.classes (fold_left Store.insertDoc chunks db) = Store.classes db /\
    Store.members (fold_left Store.insertDoc chunks db) = Store.members db.
Proof.
  induction chunks as [|c chunks IH]; intros db; cbn [fold_left]; [now split|].
  destruct (IH (Store.insertDoc db c)) as [-> ->]. now split.
Qed.

(** X16. When no file path holds [-docs/], the store that [buildIndex]
    builds has no class row and no member row: guides are never read as
    reference files. *)
Theorem guides_add_no_declarations (files : list (string * string)) :
  Forall (fun file => JS.includes (fst file) "-docs/" = false) files ->
  Store.classes (Indexer.buildIndex remarkParse toString files) = [] /\
  Store.members (Indexer.buildIndex remarkParse toString files) = [].
Proof.
  unfold Indexer.buildIndex.
  assert (Hgen : forall db,
             Forall (fun file => JS.includes (fst file) "-docs/" = false) files ->
             Store.classes (fold_left (Indexer.indexFile remarkParse toString) files db)
               = Store.classes db /\
             Store.members (fold_left (Indexer.indexFile remarkParse toString) files db)
               = Store.members db).
  { induction files as [|[path content] files IH]; intros db H; cbn [fold_left];
      [now split|].
    inversion H as [|? ? Hp Hrest]; subst. cbn [fst] in Hp.
    destruct (IH (Indexer.indexFile remarkParse toString db (path, content)) Hrest)
      as [-> ->].
    unfold Indexer.indexFile. rewrite Hp. apply insertDocs_tables. }
  intros H. apply (Hgen Store.empty H).
Qed.

(** Rows are never removed: a class row stays in the table. *)
Lemma insertClass_keeps (db : Store.t) (cls : ClassInfo.t) (row : ClassRow.t) :
  In row (Store.classes db) -> In row (Store.classes (Store.insertClass db cls)).
Proof. intros H. cbn. apply in_or_app. now left. Qed.

Lemma insertClasses_keep (classes : list ClassInfo.t) (row : ClassRow.t) :
  forall db, In row (Store.classes db) ->
             In row (Store.classes (fold_left Store.insertClass classes db)).
Proof.
  induction classes as [|c classes IH]; intros db H; cbn [fold_left]; [exact H|].
  now apply IH, insertClass_keeps.
Qed.

Lemma indexFile_keeps (db : Store.t) (file : string * string) (row : ClassRow.t) :
  In row (Store.classes db) ->
  In row (Store.classes (Indexer.indexFile remarkParse toString db file)).
Proof.
  intros H. destruct file as [path content]. unfold Indexer.indexFile.
  rewrite (proj1 (insertDocs_tables _ _)).
  destruct (JS.includes path "-docs/"); [now apply insertClasses_keep | exact H].
Qed.

Lemma indexFiles_keep (files : list (string * string)) (row : ClassRow.t) :
  forall db, In row (Store.classes db) ->
             In row (Store.classes
                       (fold_left (Indexer.indexFile remarkParse toString) files db)).
Proof.
  induction files as [|f files IH]; intros db H; cbn [fold_left]; [exact H|].
  now apply IH, indexFile_keeps.
Qed.

Lemma insertClasses_stores (classes : list ClassInfo.t) (cls : ClassInfo.t) :
  In cls classes ->
  forall db, exists row,
    In row (Store.classes (fold_left Store.insertClass classes db)) /\
    ClassRow.name row = ClassInfo.name cls /\
    ClassRow.package row = ClassInfo.package cls /\
    ClassRow.type row = ClassInfo.type cls.
Proof.
  induction classes as [|c classes IH]; [intros []|].
  intros [-> | Hin] db; cbn [fold_left]; [|now apply IH].
  eexists. split; [apply insertClasses_keep; cbn; apply in_or_app; right; now left|].
  now repeat split.
Qed.

(** X17. Every declaration that [parseTypedocMarkdown] reads from a file
    whose path holds [-docs/] is in the store that [buildIndex] builds
    from a list with that file, as a class row with its name, package
    and type; and [getClass] with that name and no package filter
    returns a declaration of that name. *)
Theorem indexed_declarations_are_found
        (files : list (string * string)) (path content : string) (cls : ClassInfo.t) :
  In (path, content) files ->
  JS.includes path "-docs/" = true ->
  In cls (Typedoc.parseTypedocMarkdown content path) ->
  (exists row,
     In row (Store.classes (Indexer.buildIndex remarkParse toString files)) /\
     ClassRow.name row = ClassInfo.name cls /\
     ClassRow.package row = ClassInfo.package cls /\
     ClassRow.type row = ClassInfo.type cls) /\
  (exists found,
     getClass (Indexer.buildIndex remarkParse toString files) (ClassInfo.name cls) None
       = Some found /\
     ClassWithMembers.name found = ClassInfo.name cls).
Proof.
  intros Hfile Hpath Hcls.
  assert (Hrow : exists row,
             In row (Store.classes (Indexer.buildIndex remarkParse toString files)) /\
             ClassRow.name row = ClassInfo.name cls /\
             ClassRow.package row = ClassInfo.package cls /\
             ClassRow.type row = ClassInfo.type cls).
  { unfold Indexer.buildIndex. apply in_split in Hfile as (before & after & ->).
    rewrite fold_left_app. cbn [fold_left].
    set (db := fold_left (Indexer.indexFile remarkParse toString) before Store.empty).
    destruct (insertClasses_stores _ cls Hcls db) as (row & Hin & Hfields).
    exists row. split; [|exact Hfields]. apply indexFiles_keep.
    unfold Indexer.indexFile. rewrite Hpath, (proj1 (insertDocs_tables _ _)). exact Hin. }
  split; [exact Hrow|]. destruct Hrow as (row & Hin & Hname & _).
  assert (Hmatch : classMatches (ClassInfo.name cls) None row = true).
  { unfold classMatches. rewrite Hname, String.eqb_refl. reflexivity. }
  destruct (hd_error_filter_some _ _ _ Hin Hmatch) as (first & Hfirst).
  unfold getClass. rewrite Hfirst. eexists. split; [reflexivity|].
  cbn [ClassWithMembers.name].
  assert (Hf : In first (filter (classMatches (ClassInfo.name cls) None)
                                (Store.classes
                                   (Indexer.buildIndex remarkParse toString files)))).
  { destruct (filter _ _); [discriminate|]. injection Hfirst as ->. now left. }
  apply filter_In in Hf as [_ Hf]. unfold classMatches in Hf.
  apply andb_prop in Hf as [Hf _]. now apply String.eqb_eq.
Qed.

End IndexerFacts.

(** X16 at one guide. *)
Lemma guides_add_no_declarations_intro :
  Store.classes (Indexer.buildIndex (fun _ => Samples.introDetails) Guide.mdastToString
                                    [("docs/intro.md", "# Intro")]) = [] /\
  Store.members (Indexer.buildIndex (fun _ => Samples.introDetails) Guide.mdastToString
                                    [("docs/intro.md", "# Intro")]) = [].
Proof.
  apply (guides_add_no_declarations (fun _ => Samples.introDetails) Guide.mdastToString
           [("docs/intro.md", "# Intro")]).
  repeat constructor.
Defined.

(** X17 at one reference file with the declaration [Foo]. *)
Lemma indexed_declarations_are_found_Foo :
  (exists row,
     In row (Store.classes
               (Indexer.buildIndex (fun _ => Samples.noHeading) Guide.mdastToString
                                   [(Samples.apiPath, Samples.fooFile)])) /\
     ClassRow.name row = ClassInfo.name Samples.fooPlain /\
     ClassRow.package row = ClassInfo.package Samples.fooPlain /\
     ClassRow.type row = ClassInfo.type Samples.fooPlain) /\
  (exists found,
     Queries.getClass
       (Indexer.buildIndex (fun _ => Samples.noHeading) Guide.mdastToString
                           [(Samples.apiPath, Samples.fooFile)])
       (ClassInfo.name Samples.fooPlain) None = Some found /\
     ClassWithMembers.name found = ClassInfo.name Samples.fooPlain).
Proof.
  apply (indexed_declarations_are_found
           (fun _ => Samples.noHeading) Guide.mdastToString
           [(Samples.apiPath, Samples.fooFile)] Samples.apiPath Samples.fooFile
           Samples.fooPlain).
  - now left.
  - reflexivity.
  - vm_compute. now left.
Defined.

(* ================================================================== *)
(** * What the store holds is what was inserted *)
(* ================================================================== *)

Section JsonRoundTrip.

Import JSON.

(** Induction on values, with the hypothesis for every item of an array
    and every field of an object. *)
Lemma value_forall_ind (P : value -> Prop) :
  P Null -> (forall b, P (Bool b)) -> (forall s, P (Str s)) ->
  (forall items, Forall P items -> P (Arr items)) ->
  (forall fields, Forall (fun kv => P (snd kv)) fields -> P (Obj fields)) ->
  forall v, P v.
Proof.
  intros HN HB HS HA HO.
  fix IH 1. intros [| b | s | items | fields].
  - exact HN.
  - apply HB.
  - apply HS.
  - apply HA. induction items as [|v items IHi]; constructor; [apply IH | exact IHi].
  - apply HO. induction fields as [|[k v] fields IHf]; constructor; [apply IH | exact IHf].
Qed.

Lemma run_key (k : string) (allowClose : bool) (done : list (string * value))
      (stack : list frame) (t : string) :
  run (ExpectKey allowClose, InObj done None :: stack) (quote k ^^ t) =
  run (ExpectColon, InObj done (Some k) :: stack) t.
Proof.
  unfold quote. cbn [append run step].
  change (isJsonSpace dquote) with false.
  change (Ascii.eqb dquote dquote) with true. cbv iota.
  rewrite append_assoc, run_quoteBody. cbn [append run step].
  change (Ascii.eqb dquote dquote) with true. cbv iota.
  unfold endString. reflexivity.
Qed.

(** The items of an array are read back in order. *)
Lemma run_items (items : list value) :
  Forall readsBack items -> items <> [] ->
  forall allowClose done stack t,
    run (ExpectValue allowClose, InArr done :: stack)
        (JS.join "," (map stringify items) ^^ t) =
    run (AfterValue, InArr (done ++ items) :: stack) t.
Proof.
  induction 1 as [|v items Hv Hitems IH]; intros Hne allowClose done stack t;
    [now elim Hne|].
  destruct items as [|w items].
  - cbn [map JS.join String.concat]. now rewrite Hv.
  - cbn [map]. rewrite join_cons2, !append_assoc, Hv.
    cbn [complete append run step].
    change (isJsonSpace ",") with false. change (Ascii.eqb "," ",") with true.
    cbv iota. change (stringify w :: map stringify items) with (map stringify (w :: items)).
    rewrite IH by discriminate.
    now rewrite <- app_assoc.
Qed.

Lemma run_field (k : string) (v : value) (allowClose : bool)
      (done : list (string * value)) (stack : list frame) (t : string) :
  readsBack v ->
  run (ExpectKey allowClose, InObj done None :: stack) (fieldText (k, v) ^^ t) =
  run (AfterValue, InObj (done ++ [(k, v)]) None :: stack) t.
Proof.
  intros Hv. unfold fieldText. cbn [fst snd].
  rewrite !append_assoc, run_key. cbn [append run step].
  change (isJsonSpace ":") with false. change (Ascii.eqb ":" ":") with true. cbv iota.
  now rewrite Hv.
Qed.

(** The properties of an object are read back in order. *)
Lemma run_fields (fields : list (string * value)) :
  Forall (fun kv => readsBack (snd kv)) fields -> fields <> [] ->
  forall allowClose done stack t,
    run (ExpectKey allowClose, InObj done None :: stack)
        (JS.join "," (map fieldText fields) ^^ t) =
    run (AfterValue, InObj (done ++ fields) None :: stack) t.
Proof.
  induction 1 as [|[k v] fields Hv Hfields IH]; intros Hne allowClose done stack t;
    [now elim Hne|].
  destruct fields as [|kv fields].
  - cbn [map JS.join String.concat]. now apply run_field.
  - cbn [map]. rewrite join_cons2, !append_assoc, run_field by exact Hv.
    cbn [append run step].
    change (isJsonSpace ",") with false. change (Ascii.eqb "," ",") with true.
    cbv iota. change (fieldText kv :: map fieldText fields) with (map fieldText (kv :: fields)).
    rewrite IH by discriminate.
    now rewrite <- app_assoc.
Qed.

Lemma stringify_readsBack (v : value) : readsBack v.
Proof.
  induction v as [| b | s | items IH | fields IH] using value_forall_ind;
    intros allowClose stack t.
  - reflexivity.
  - destruct b; reflexivity.
  - apply run_quote.
  - cbn [stringify]. cbn [append run step].
    change (isJsonSpace "[") with false. cbn -[stringify JS.join map run complete].
    destruct items as [|v items].
    + reflexivity.
    + rewrite append_assoc, (run_items _ IH) by discriminate.
      reflexivity.
  - cbn [stringify]. cbn [append run step].
    change (isJsonSpace "{") with false. cbn -[stringify JS.join map run complete quote].
    destruct fields as [|kv fields].
    + reflexivity.
    + change (fun kv0 : string * value => quote (fst kv0) ^^ ":" ^^ stringify (snd kv0))
        with fieldText.
      rewrite append_assoc, (run_fields _ IH) by discriminate.
      reflexivity.
Qed.

(** [JSON.parse(JSON.stringify(v))] is [v], for every value. *)
Lemma parse_stringify (v : value) : parse (stringify v) = Some v.
Proof.
  unfold parse. rewrite <- (append_empty_r (stringify v)), stringify_readsBack.
  reflexivity.
Qed.

Lemma toParam_ofParam (p : ParamInfo.t) : toParam (ofParam p) = Some p.
Proof. now destruct p. Qed.

Lemma allParams_ofParams (ps : list ParamInfo.t) : allParams (map ofParam ps) = Some ps.
Proof.
  induction ps as [|p ps IH]; [reflexivity|].
  cbn [map allParams]. now rewrite toParam_ofParam, IH.
Qed.

Lemma toReturns_ofReturns (r : Returns.t) : toReturns (ofReturns r) = Some r.
Proof. now destruct r. Qed.

Lemma safeJsonParse_params (ps : list ParamInfo.t) :
  Queries.safeJsonParse toParams (Some (stringify (Arr (map ofParam ps)))) [] = ps.
Proof.
  unfold Queries.safeJsonParse. rewrite parse_stringify.
  cbn [stringify append JS.truthy toParams].
  now rewrite allParams_ofParams.
Qed.

Lemma safeJsonParse_returns (r : Returns.t) :
  Queries.safeJsonParse (fun v => option_map Some (toReturns v))
                        (Some (stringify (ofReturns r))) None = Some r.
Proof.
  unfold Queries.safeJsonParse. rewrite parse_stringify, toReturns_ofReturns. reflexivity.
Qed.

End JsonRoundTrip.

Section DeclarationRoundTrip.

Import JSON Queries.

(** The row written for a member is read back as that member. *)
Lemma memberDetails_memberRow (id classId : nat) (m : MemberInfo.t) :
  JS.truthy (MemberInfo.visibility m) = true ->
  memberOf (memberDetails (Store.memberRow id classId m) None) = m.
Proof.
  destruct m as [name type signature visibility isStatic isAsync description
                 params returns decorators exampleCode].
  cbn [MemberInfo.visibility]. intros Hv.
  unfold memberOf, memberDetails, Store.memberRow.
  cbn [MemberRow.id MemberRow.name MemberRow.type MemberRow.signature
       MemberRow.visibility MemberRow.is_static MemberRow.is_async
       MemberRow.description MemberRow.params MemberRow.returns
       MemberRow.decorators MemberRow.example_code
       MemberInfo.name MemberInfo.type MemberInfo.signature MemberInfo.visibility
       MemberInfo.isStatic MemberInfo.isAsync MemberInfo.description
       MemberInfo.params MemberInfo.returns MemberInfo.decorators
       MemberInfo.exampleCode
       MemberWithDetails.name MemberWithDetails.type MemberWithDetails.signature
       MemberWithDetails.visibility MemberWithDetails.isStatic
       MemberWithDetails.isAsync MemberWithDetails.description
       MemberWithDetails.params MemberWithDetails.returns
       MemberWithDetails.decorators MemberWithDetails.exampleCode].
  rewrite safeJsonParse_params, safeJsonParse_strings.
  unfold orEmpty, JS.orElseOpt. rewrite !orElse_empty.
  f_equal.
  - unfold JS.orElse. now rewrite Hv.
  - now destruct isStatic.
  - now destruct isAsync.
  - destruct returns as [r|]; [|reflexivity].
    cbn [option_map]. rewrite orElse_empty.
    replace (JS.truthy (stringify (ofReturns r))) with true by now destruct r.
    apply safeJsonParse_returns.
Qed.

(** The loop of [insertClass] appends one row for each member, each
    referring to the class. *)
Lemma insertMembers_added (classId : nat) (members : list MemberInfo.t) :
  forall rows, exists added,
    fold_left (Store.insertMember classId) members rows = rows ++ added /\
    Forall (fun row => MemberRow.class_id row = Some classId) added /\
    (Forall (fun m => JS.truthy (MemberInfo.visibility m) = true) members ->
     map (fun row => memberOf (memberDetails row None)) added = members).
Proof.
  induction members as [|m members IH]; intros rows; cbn [fold_left].
  - exists []. rewrite app_nil_r. repeat split; constructor.
  - destruct (IH (Store.insertMember classId rows m)) as (added & E & Hc & Hm).
    eexists (_ :: added). rewrite E. unfold Store.insertMember at 1.
    rewrite <- app_assoc. cbn [app]. split; [reflexivity|].
    split; [constructor; [reflexivity | exact Hc]|].
    intros Hv. inversion Hv as [|? ? Hv1 Hv2]; subst. cbn [map].
    now rewrite (memberDetails_memberRow _ _ _ Hv1), (Hm Hv2).
Qed.

Lemma filter_none {A : Type} (f : A -> bool) (l : list A) :
  (forall x, In x l -> f x = false) -> filter f l = [].
Proof.
  induction l as [|x l IH]; intros H; cbn; [reflexivity|].
  rewrite (H x (or_introl eq_refl)). apply IH. intros y Hy. apply H. now right.
Qed.

Lemma filter_all {A : Type} (f : A -> bool) (l : list A) :
  Forall (fun x => f x = true) l -> filter f l = l.
Proof. induction 1 as [|x l Hx _ IH]; cbn; [reflexivity|]. now rewrite Hx, IH. Qed.

(** X18. A declaration written by [insertClass] into a store built by
    insertions and then retrieved by [getClass] under its name (no
    declaration of that name and package filter being stored before it)
    comes back whole: name, package, type, description, extends and
    implements clauses, decorators and source URL are those inserted,
    and the members returned are the members inserted, in order, each
    with its name, type, signature, visibility, flags, description,
    parameters, return value, decorators and example.  The lists and
    objects pass through [JSON.stringify] and [JSON.parse].  The
    visibility of every member is not the empty string, as for every
    member that the parser returns. *)
Theorem declaration_round_trip (db : Store.t) (cls : ClassInfo.t) (pkg : option string) :
  Store.built db ->
  filter (classMatches (ClassInfo.name cls) pkg) (Store.classes db) = [] ->
  nullOrEq (orNull pkg) (ClassInfo.package cls) = true ->
  Forall (fun m => JS.truthy (MemberInfo.visibility m) = true) (ClassInfo.members cls) ->
  exists r,
    getClass (Store.insertClass db cls) (ClassInfo.name cls) pkg = Some r /\
    ClassWithMembers.name r = ClassInfo.name cls /\
    ClassWithMembers.package r = ClassInfo.package cls /\
    ClassWithMembers.type r = ClassInfo.type cls /\
    ClassWithMembers.description r = ClassInfo.description cls /\
    ClassWithMembers.extendsClause r = ClassInfo.extendsClause cls /\
    ClassWithMembers.implementsClause r = ClassInfo.implementsClause cls /\
    ClassWithMembers.decorators r = ClassInfo.decorators cls /\
    ClassWithMembers.sourceUrl r = Some (ClassInfo.sourceUrl cls) /\
    map memberOf (ClassWithMembers.members r) = ClassInfo.members cls.
Proof.
  intros Hb Hnone Hpkg Hvis.
  unfold getClass.
  cbn [Store.insertClass Store.classes].
  rewrite filter_app, Hnone. cbn [app filter].
  match goal with
  | |- context [classMatches ?n ?p ?row] =>
      assert (Hm : classMatches n p row = true)
  end.
  { unfold classMatches. cbn [ClassRow.name ClassRow.package].
    now rewrite String.eqb_refl, Hpkg. }
  rewrite Hm. cbn [hd_error]. eexists. split; [reflexivity|].
  cbn [ClassWithMembers.name ClassWithMembers.package ClassWithMembers.type
       ClassWithMembers.description ClassWithMembers.extendsClause
       ClassWithMembers.implementsClause ClassWithMembers.decorators
       ClassWithMembers.sourceUrl ClassWithMembers.members
       ClassRow.id ClassRow.name ClassRow.package ClassRow.type ClassRow.description
       ClassRow.extends_clause ClassRow.implements_clause ClassRow.decorators
       ClassRow.source_url].
  rewrite !safeJsonParse_strings. unfold orEmpty, JS.orElseOpt. rewrite orElse_empty.
  repeat (split; [reflexivity|]).
  unfold membersOf. cbn [Store.members].
  set (classId := Store.nextId (map ClassRow.id (Store.classes db))).
  change (Store.members (Store.insertClass db cls)) with
    (fold_left (Store.insertMember classId) (ClassInfo.members cls) (Store.members db)).
  destruct (insertMembers_added classId (ClassInfo.members cls) (Store.members db))
    as (added & -> & Hc & Hmap).
  rewrite filter_app, filter_none, filter_all.
  - cbn [app]. rewrite map_map. now apply Hmap.
  - eapply Forall_impl; [|exact Hc]. intros row ->. apply Nat.eqb_refl.
  - intros m Hm'. destruct (built_member_class db Hb m Hm') as (c & Hin & ->).
    apply Nat.eqb_neq.
    pose proof (proj1 (Forall_forall _ _) (nextId_above (map ClassRow.id (Store.classes db)))
                      (ClassRow.id c) (in_map _ _ _ Hin)) as Hlt.
    cbn beta in Hlt. fold classId in Hlt. lia.
Qed.

(** X18 at a declaration with one member, inserted after another
    declaration. *)
Lemma declaration_round_trip_Baz :
  exists r,
    getClass (Store.insertClass
                (Store.insertClass Store.empty (Samples.declaration "Foo" "chain-api"))
                (Samples.declaration "Baz" "chain-api"))
             (ClassInfo.name (Samples.declaration "Baz" "chain-api")) None = Some r /\
    ClassWithMembers.name r = ClassInfo.name (Samples.declaration "Baz" "chain-api") /\
    ClassWithMembers.package r = ClassInfo.package (Samples.declaration "Baz" "chain-api") /\
    ClassWithMembers.type r = ClassInfo.type (Samples.declaration "Baz" "chain-api") /\
    ClassWithMembers.description r =
      ClassInfo.description (Samples.declaration "Baz" "chain-api") /\
    ClassWithMembers.extendsClause r =
      ClassInfo.extendsClause (Samples.declaration "Baz" "chain-api") /\
    ClassWithMembers.implementsClause r =
      ClassInfo.implementsClause (Samples.declaration "Baz" "chain-api") /\
    ClassWithMembers.decorators r =
      ClassInfo.decorators (Samples.declaration "Baz" "chain-api") /\
    ClassWithMembers.sourceUrl r =
      Some (ClassInfo.sourceUrl (Samples.declaration "Baz" "chain-api")) /\
    map memberOf (ClassWithMembers.members r) =
      ClassInfo.members (Samples.declaration "Baz" "chain-api").
Proof.
  apply (declaration_round_trip
           (Store.insertClass Store.empty (Samples.declaration "Foo" "chain-api"))
           (Samples.declaration "Baz" "chain-api") None).
  - repeat constructor.
  - reflexivity.
  - reflexivity.
  - repeat constructor.
Defined.

End DeclarationRoundTrip.

(* ================================================================== *)
(** * Further properties of the search *)
(* ================================================================== *)

Section LikeFacts.

Import Queries.

Lemma allAscii_complete (c : ascii) : In c allAscii.
Proof.
  unfold allAscii. apply in_map_iff. exists (nat_of_ascii c).
  split; [apply ascii_nat_embedding|]. apply in_seq.
  pose proof (nat_ascii_bounded c). lia.
Qed.

(** A property of characters that holds of each of the 256 characters
    holds of every character. *)
Lemma forall_ascii (P : ascii -> bool) :
  forallb P allAscii = true -> forall c, P c = true.
Proof. intros H c. exact (proj1 (forallb_forall _ _) H c (allAscii_complete c)). Qed.

(** A character that [toLowerCase] leaves alone matches a character
    under LIKE exactly when it is that character in lower case. *)
Lemma sameLetter_lower (p c : ascii) :
  JS.lowerChar p = p -> sameLetter p c = Ascii.eqb p (JS.lowerChar c).
Proof.
  intros Hp.
  assert (H : forall p c,
             implb (Ascii.eqb (JS.lowerChar p) p)
                   (Bool.eqb (sameLetter p c) (Ascii.eqb p (JS.lowerChar c))) = true).
  { intros p0. apply forall_ascii. revert p0. apply forall_ascii. vm_compute. reflexivity. }
  specialize (H p c). rewrite Hp, Ascii.eqb_refl in H. cbn in H.
  now apply Bool.eqb_prop.
Qed.

Lemma lowerChar_idem (c : ascii) : JS.lowerChar (JS.lowerChar c) = JS.lowerChar c.
Proof.
  apply Ascii.eqb_eq. revert c. apply forall_ascii. vm_compute. reflexivity.
Qed.

Lemma lowerChar_wildcard (c : ascii) : isWildcard (JS.lowerChar c) = isWildcard c.
Proof.
  apply Bool.eqb_prop. revert c. apply forall_ascii. vm_compute. reflexivity.
Qed.

Lemma lowerChar_space (c : ascii) : JS.isSpace c = true -> JS.lowerChar c = c.
Proof.
  intros H. apply Ascii.eqb_eq. revert H.
  assert (G : forall c, implb (JS.isSpace c) (Ascii.eqb (JS.lowerChar c) c) = true)
    by (apply forall_ascii; vm_compute; reflexivity).
  specialize (G c). intros H. now rewrite H in G.
Qed.

Lemma toLowerCase_idem (s : string) : JS.toLowerCase (JS.toLowerCase s) = JS.toLowerCase s.
Proof. induction s as [|c s IH]; cbn; [reflexivity|]. now rewrite lowerChar_idem, IH. Qed.

Lemma patternCompare_percent (pattern text : string) :
  patternCompare (String "%" pattern) text =
  patternCompare pattern text ||
  match text with
  | EmptyString => false
  | String _ text' => patternCompare (String "%" pattern) text'
  end.
Proof. destruct text; reflexivity. Qed.

Lemma patternCompare_any (text : string) : patternCompare "%" text = true.
Proof.
  induction text as [|c text IH]; [reflexivity|].
  rewrite patternCompare_percent. cbn [patternCompare JS.truthy negb orb]. exact IH.
Qed.

Lemma patternCompare_literal (p : ascii) (pattern text : string) :
  isWildcard p = false ->
  patternCompare (String p pattern) text =
  match text with
  | EmptyString => false
  | String c text' => sameLetter p c && patternCompare pattern text'
  end.
Proof.
  unfold isWildcard. intros H. apply orb_false_elim in H as [H1 H2].
  cbn [patternCompare]. rewrite H1, H2. reflexivity.
Qed.

(** A term followed by [%] matches the texts that start with the term,
    case ignored. *)
Lemma patternCompare_prefix (t text : string) :
  plainTerm t = true ->
  patternCompare (t ^^ "%") text = String.prefix t (JS.toLowerCase text).
Proof.
  revert text. induction t as [|p t IH]; intros text Ht.
  - cbn [append]. rewrite patternCompare_any. now destruct text.
  - unfold plainTerm in Ht. cbn [list_ascii_of_string forallb] in Ht.
    apply andb_prop in Ht as [Hp Ht]. apply andb_prop in Hp as [Hw Hl].
    apply negb_true_iff in Hw. apply Ascii.eqb_eq in Hl.
    cbn [append]. rewrite (patternCompare_literal p _ _ Hw).
    destruct text as [|c text]; [reflexivity|].
    cbn [JS.toLowerCase String.prefix]. rewrite (sameLetter_lower p c Hl), (IH text Ht).
    destruct (ascii_dec p (JS.lowerChar c)) as [E | N].
    + rewrite E at 1. now rewrite Ascii.eqb_refl.
    + apply Ascii.eqb_neq in N. now rewrite N.
Qed.

Lemma patternCompare_contains (t text : string) :
  plainTerm t = true ->
  patternCompare (String "%" (t ^^ "%")) text = JS.includes (JS.toLowerCase text) t.
Proof.
  intros Ht.
  induction text as [|c text IH]; rewrite patternCompare_percent, (patternCompare_prefix t _ Ht).
  - cbn [JS.toLowerCase JS.includes]. now destruct (String.prefix t "").
  - cbn [JS.toLowerCase JS.includes]. rewrite IH.
    now destruct (String.prefix t (String (JS.lowerChar c) (JS.toLowerCase text))).
Qed.

Lemma untilNul_noNul (s : string) : noNul s = true -> untilNul s = s.
Proof.
  unfold noNul. induction s as [|c s IH]; cbn; [reflexivity|].
  intros H. apply andb_prop in H as [Hc Hs]. apply negb_true_iff in Hc.
  now rewrite Hc, (IH Hs).
Qed.

Lemma noNul_append (a b : string) : noNul (a ^^ b) = noNul a && noNul b.
Proof. unfold noNul. now rewrite list_ascii_of_append, forallb_app. Qed.

(** On a text and a term without NUL character, the condition
    [text LIKE '%term%'] holds exactly when the text holds the term, case
    ignored. *)
Lemma like_contains (t text : string) :
  plainTerm t = true -> noNul t = true -> noNul text = true ->
  like (String "%" (t ^^ "%")) text = JS.includes (JS.toLowerCase text) t.
Proof.
  intros Ht Hn Hx. unfold like.
  rewrite (untilNul_noNul text Hx), (untilNul_noNul (String "%" (t ^^ "%"))).
  - now apply patternCompare_contains.
  - change (String "%" (t ^^ "%")) with ("%" ^^ t ^^ "%").
    now rewrite !noNul_append, Hn.
Qed.

(** The wildcards of a query are not escaped: a term [_] matches every
    text that is not empty.  A text is read up to its first NUL
    character. *)
Example like_samples :
  like ("%" ^^ "_" ^^ "%") "x" = true /\ JS.includes "x" "_" = false /\
  like "%hello%" ("a" ^^ String "000" " hello world") = false.
Proof. repeat split; reflexivity. Qed.

End LikeFacts.

Section SearchCompleteness.

Import Queries.

Lemma plainTerm_lower (s : string) :
  noWildcard s = true -> plainTerm (JS.toLowerCase s) = true.
Proof.
  unfold noWildcard, plainTerm. induction s as [|c s IH]; cbn; [reflexivity|].
  intros H. apply andb_prop in H as [Hc Hs].
  rewrite lowerChar_wildcard, Hc, lowerChar_idem, Ascii.eqb_refl. cbn. now apply IH.
Qed.

(** The words of a text are made of characters of the text. *)
Lemma wordsAux_Forall (P : ascii -> bool) (s : string) :
  forall cur,
    forallb P (list_ascii_of_string cur) = true ->
    forallb P (list_ascii_of_string s) = true ->
    Forall (fun w => forallb P (list_ascii_of_string w) = true) (JS.wordsAux cur s).
Proof.
  induction s as [|c s IH]; intros cur Hcur Hs; cbn [JS.wordsAux].
  - destruct (JS.truthy cur); repeat constructor. exact Hcur.
  - cbn in Hs. apply andb_prop in Hs as [Hc Hs].
    destruct (JS.isSpace c).
    + destruct (JS.truthy cur); [constructor; [exact Hcur|]|]; now apply IH.
    + apply IH; [|exact Hs]. rewrite list_ascii_of_append, forallb_app, Hcur. cbn.
      now rewrite Hc.
Qed.

Lemma words_plain (query : string) :
  noWildcard query = true ->
  Forall (fun t => plainTerm t = true) (JS.words (JS.toLowerCase query)).
Proof.
  intros H. apply plainTerm_lower in H. unfold JS.words.
  apply wordsAux_Forall; [reflexivity | exact H].
Qed.

Lemma firstn_length_pos {A : Type} (n : nat) (l : list A) :
  1 <= n -> 1 <= List.length l -> 1 <= List.length (firstn n l).
Proof. destruct n, l; cbn; lia. Qed.

Lemma sqlLimit_length_pos {A : Type} (limit : Z) (rows : list A) :
  (1 <= limit)%Z -> 1 <= List.length rows -> 1 <= List.length (sqlLimit limit rows).
Proof.
  intros Hl Hr. unfold sqlLimit. destruct (limit <? 0)%Z; [exact Hr|].
  apply firstn_length_pos; [lia | exact Hr].
Qed.

Lemma sliceTo_length_pos {A : Type} (limit : Z) (rows : list A) :
  (1 <= limit)%Z -> 1 <= List.length rows -> 1 <= List.length (sliceTo limit rows).
Proof.
  intros Hl Hr. unfold sliceTo. destruct (limit <? 0)%Z eqn:E; [apply Z.ltb_lt in E; lia|].
  apply firstn_length_pos; [lia | exact Hr].
Qed.

Lemma In_length_pos {A : Type} (x : A) (l : list A) : In x l -> 1 <= List.length l.
Proof. destruct l; cbn; [intros [] | lia]. Qed.

Lemma insertSorted_length {A : Type} (le : A -> A -> bool) (x : A) (l : list A) :
  List.length (insertSorted le x l) = S (List.length l).
Proof.
  induction l as [|y l IH]; cbn; [reflexivity|]. destruct (le x y); cbn; now rewrite ?IH.
Qed.

Lemma sortBy_length {A : Type} (le : A -> A -> bool) (l : list A) :
  List.length (sortBy le l) = List.length l.
Proof.
  unfold sortBy. induction l as [|x l IH]; cbn; [reflexivity|].
  now rewrite insertSorted_length, IH.
Qed.

Lemma prefix_noNul (t : string) :
  forall s, noNul s = true -> String.prefix t s = true -> noNul t = true.
Proof.
  unfold noNul. induction t as [|c t IH]; intros [|d s]; cbn; try discriminate; trivial.
  intros H. apply andb_prop in H as [Hd Hs].
  destruct (ascii_dec c d) as [-> | N]; [|discriminate].
  intros Hp. rewrite Hd. cbn. now apply (IH s).
Qed.

(** A text without NUL character holds no term with one. *)
Lemma includes_noNul (t s : string) :
  noNul s = true -> JS.includes s t = true -> noNul t = true.
Proof.
  induction s as [|d s IH]; intros Hs; cbn [JS.includes].
  - destruct (String.prefix t "") eqn:E; [|discriminate].
    intros _. now apply (prefix_noNul t "").
  - destruct (String.prefix t (String d s)) eqn:E.
    + intros _. now apply (prefix_noNul t (String d s)).
    + apply IH. unfold noNul in *. cbn in Hs. now apply andb_prop in Hs.
Qed.

Lemma toLowerCase_noNul (s : string) : noNul (JS.toLowerCase s) = noNul s.
Proof.
  unfold noNul. induction s as [|c s IH]; cbn; [reflexivity|]. rewrite IH. f_equal.
  apply Bool.eqb_prop. revert c. apply forall_ascii. vm_compute. reflexivity.
Qed.

(** A guide row whose search text has no NUL character and holds every
    word of the query is selected by the first SELECT statement. *)
Lemma doc_row_selected (db : Store.t) (query pkg : string) (row : DocRow.t)
      (text : string) :
  noWildcard query = true ->
  In row (Store.docs db) ->
  DocRow.search_text row = Some text ->
  noNul text = true ->
  Forall (fun t => JS.includes (JS.toLowerCase text) t = true)
         (JS.words (JS.toLowerCase query)) ->
  pkg = "all" \/ DocRow.package row = pkg ->
  In row (filter (fun r => likeAll (JS.words (JS.toLowerCase query)) (DocRow.search_text r) &&
                           allOrEq pkg (DocRow.package r))
                 (Store.docs db)).
Proof.
  intros Hq Hin Ht Hnul Hall Hp. apply filter_In. split; [exact Hin|].
  apply andb_true_intro. split.
  - rewrite Ht. unfold likeAll. apply forallb_forall. intros t Hterm.
    pose proof (proj1 (Forall_forall _ _) Hall t Hterm) as Hinc. cbn beta in Hinc.
    change ("%" ^^ t ^^ "%") with (String "%" (t ^^ "%")). rewrite like_contains.
    + exact Hinc.
    + exact (proj1 (Forall_forall _ _) (words_plain query Hq) t Hterm).
    + apply (includes_noNul t (JS.toLowerCase text)); [|exact Hinc].
      now rewrite toLowerCase_noNul.
    + exact Hnul.
  - unfold allOrEq. destruct Hp as [-> | ->]; [reflexivity|].
    rewrite String.eqb_refl. apply orb_true_r.
Qed.

End SearchCompleteness.

Section SearchResults.

Import Queries.

(** X20. After a chunk is inserted, a search of the guides has at least
    one result when every word of the query occurs in the title and the
    content of the chunk (case ignored), the package filter admits the
    chunk and the limit is an integer of at least 1.  The query has no
    wildcard of LIKE and at least one word; the title and the content
    of the chunk have no NUL character, at which LIKE stops reading; the
    three texts are made of the characters that the development
    covers. *)
Theorem inserted_chunk_is_searchable
        (db : Store.t) (chunk : Guide.DocChunk) (query pkg type : string) (limit : Z) :
  JS.covered query = true ->
  JS.covered (Guide.title chunk) = true ->
  JS.covered (Guide.content chunk) = true ->
  noNul (Guide.title chunk) = true ->
  noNul (Guide.content chunk) = true ->
  noWildcard query = true ->
  1 <= List.length (JS.words (JS.toLowerCase query)) ->
  Forall (fun t => JS.includes
                     (JS.toLowerCase (Guide.title chunk ^^ " " ^^ Guide.content chunk)) t
                   = true)
         (JS.words (JS.toLowerCase query)) ->
  pkg = "all" \/ Guide.package chunk = pkg ->
  type = "all" \/ type = "guide" ->
  (1 <= limit)%Z ->
  1 <= List.length (searchDocs (Store.insertDoc db chunk) query pkg type limit).
Proof.
  intros _ _ _ Hnt Hnc Hq Hw Hall Hp Ht Hl.
  set (db' := Store.insertDoc db chunk).
  assert (Hrow : exists row,
             In row (filter (fun r => likeAll (JS.words (JS.toLowerCase query))
                                              (DocRow.search_text r) &&
                                      allOrEq pkg (DocRow.package r))
                            (Store.docs db'))).
  { eexists. eapply doc_row_selected with
      (text := JS.toLowerCase (Guide.title chunk ^^ " " ^^ Guide.content chunk)).
    - exact Hq.
    - unfold db'. cbn [Store.insertDoc Store.docs]. apply in_or_app. right. now left.
    - reflexivity.
    - now rewrite toLowerCase_noNul, !noNul_append, Hnt, Hnc.
    - now rewrite toLowerCase_idem.
    - exact Hp. }
  destruct Hrow as (row & Hrow).
  unfold searchDocs. destruct (JS.words (JS.toLowerCase query)) as [|t ts] eqn:Ew;
    [cbn in Hw; lia|].
  apply sliceTo_length_pos; [exact Hl|]. rewrite sortBy_length.
  assert (Hd : 1 <= List.length (searchDocRows db' (t :: ts) pkg limit)).
  { unfold searchDocRows. apply sqlLimit_length_pos; [exact Hl|].
    eapply In_length_pos, Hrow. }
  assert (Et : String.eqb type "all" || String.eqb type "guide" = true)
    by (destruct Ht as [-> | ->]; reflexivity).
  rewrite Et. cbn [app].
  destruct (_ || _ || _); destruct (String.eqb type "all" || String.eqb type "method");
    rewrite ?length_app, length_map; lia.
Qed.

(** X20 at the chunk [Intro] and the query [hello]. *)
Lemma inserted_chunk_is_searchable_intro :
  1 <= List.length (searchDocs (Store.insertDoc Store.empty Samples.introChunk)
                               "hello" "all" "guide" 5).
Proof.
  apply (inserted_chunk_is_searchable Store.empty Samples.introChunk
                                      "hello" "all" "guide" 5).
  - reflexivity.
  - reflexivity.
  - reflexivity.
  - reflexivity.
  - reflexivity.
  - reflexivity.
  - vm_compute. lia.
  - vm_compute. repeat constructor.
  - now left.
  - now right.
  - lia.
Defined.

Lemma toLowerCase_blank (s : string) :
  forallb JS.isSpace (list_ascii_of_string s) = true -> JS.toLowerCase s = s.
Proof.
  induction s as [|c s IH]; cbn; [reflexivity|].
  intros H. apply andb_prop in H as [Hc Hs]. now rewrite (lowerChar_space c Hc), IH.
Qed.

Lemma words_blank (s : string) :
  forallb JS.isSpace (list_ascii_of_string s) = true -> JS.words s = [].
Proof.
  unfold JS.words. induction s as [|c s IH]; cbn; [reflexivity|].
  intros H. apply andb_prop in H as [Hc Hs]. rewrite Hc. cbn. now apply IH.
Qed.

(** X21. A query made of white space only (the empty query included)
    has no result, whatever the store, the filters and the limit. *)
Theorem searchDocs_blank_query (db : Store.t) (query pkg type : string) (limit : Z) :
  forallb JS.isSpace (list_ascii_of_string query) = true ->
  searchDocs db query pkg type limit = [].
Proof.
  intros H. unfold searchDocs.
  now rewrite (toLowerCase_blank query H), (words_blank query H).
Qed.

(** X21 at three spaces. *)
Lemma searchDocs_blank_query_sample :
  searchDocs Samples.sampleStore "   " "all" "all" 5 = [].
Proof. apply (searchDocs_blank_query Samples.sampleStore "   " "all" "all" 5). reflexivity. Defined.

Lemma eqb_not_in (type x : string) (l : list string) :
  ~ In type l -> In x l -> String.eqb type x = false.
Proof. intros Hn Hx. apply String.eqb_neq. intros ->. now apply Hn. Qed.

(** Where a result of [searchDocs] comes from. *)
Lemma searchDocs_origin (db : Store.t) (query pkg type : string) (limit : Z)
      (r : SearchResult.t) :
  In r (searchDocs db query pkg type limit) ->
  (String.eqb type "all" || String.eqb type "guide" = true /\
   exists row, r = docResult (JS.words (JS.toLowerCase query)) row) \/
  (String.eqb type "all" || String.eqb type "class" ||
   String.eqb type "interface" = true /\
   exists row, r = classResult (JS.words (JS.toLowerCase query)) row /\
               (String.eqb type "all" || String.eqb type "class" ||
                String.eqb (ClassRow.type row) type) = true) \/
  (String.eqb type "all" || String.eqb type "method" = true /\
   exists row, r = memberResult (JS.words (JS.toLowerCase query)) row).
Proof.
  unfold searchDocs.
  destruct (JS.words (JS.toLowerCase query)) as [|t ts]; [intros []|].
  intros Hr. apply sliceTo_In, sortBy_In in Hr. cbn [app] in Hr.
  destruct (String.eqb type "all" || String.eqb type "guide") eqn:E1;
    destruct (String.eqb type "all" || String.eqb type "class" ||
              String.eqb type "interface") eqn:E2;
    destruct (String.eqb type "all" || String.eqb type "method") eqn:E3;
    repeat (apply in_app_or in Hr as [Hr | Hr]);
    try (destruct Hr; fail);
    apply in_map_iff in Hr as (row & <- & Hrow);
    try (left; split; [reflexivity | now exists row]);
    try (right; right; split; [reflexivity | now exists row]);
    right; left; (split; [reflexivity|]); exists row; (split; [reflexivity|]);
    apply sqlLimit_In, filter_In in Hrow as [_ Hrow];
    now apply andb_prop in Hrow as [_ Hrow].
Qed.

(** X22. The [type] argument of [searchDocs] selects the tables: with
    [guide] every result is a guide chunk, with [class] every result is
    a declaration (of any kind), with [interface] every result is a
    declaration of the kind [interface], with [method] every result is a
    member; a value other than these and [all] gives no result. *)
Theorem searchDocs_type_filter (db : Store.t) (query pkg : string) (limit : Z) :
  Forall (fun r => SearchResult.type r = "doc")
         (searchDocs db query pkg "guide" limit) /\
  Forall (fun r => SearchResult.type r = "class")
         (searchDocs db query pkg "class" limit) /\
  Forall (fun r => SearchResult.type r = "class" /\ SearchResult.category r = "interface")
         (searchDocs db query pkg "interface" limit) /\
  Forall (fun r => SearchResult.type r = "method")
         (searchDocs db query pkg "method" limit) /\
  (forall type, ~ In type searchTypes -> searchDocs db query pkg type limit = []).
Proof.
  repeat split.
  - apply Forall_forall. intros r Hr.
    apply searchDocs_origin in Hr as [(_ & row & ->) | [(E & _) | (E & _)]];
      [reflexivity | discriminate | discriminate].
  - apply Forall_forall. intros r Hr.
    apply searchDocs_origin in Hr as [(E & _) | [(_ & row & -> & _) | (E & _)]];
      [discriminate | reflexivity | discriminate].
  - apply Forall_forall. intros r Hr.
    apply searchDocs_origin in Hr as [(E & _) | [(_ & row & -> & Ht) | (E & _)]];
      [discriminate | | discriminate].
    split; [reflexivity|]. cbn in Ht. apply String.eqb_eq in Ht. exact Ht.
  - apply Forall_forall. intros r Hr.
    apply searchDocs_origin in Hr as [(E & _) | [(E & _) | (_ & [m c] & ->)]];
      [discriminate | discriminate | reflexivity].
  - intros type Hn.
    assert (Ea : String.eqb type "all" = false)
      by (apply (eqb_not_in _ _ searchTypes Hn); cbn; tauto).
    assert (Eg : String.eqb type "guide" = false)
      by (apply (eqb_not_in _ _ searchTypes Hn); cbn; tauto).
    assert (Ec : String.eqb type "class" = false)
      by (apply (eqb_not_in _ _ searchTypes Hn); cbn; tauto).
    assert (Ei : String.eqb type "interface" = false)
      by (apply (eqb_not_in _ _ searchTypes Hn); cbn; tauto).
    assert (Em : String.eqb type "method" = false)
      by (apply (eqb_not_in _ _ searchTypes Hn); cbn; tauto).
    destruct (searchDocs db query pkg type limit) as [|r rs] eqn:E; [reflexivity|].
    assert (Hr : In r (searchDocs db query pkg type limit)) by (rewrite E; now left).
    apply searchDocs_origin in Hr. rewrite Ea, Eg, Ec, Ei, Em in Hr. cbn in Hr.
    destruct Hr as [(F & _) | [(F & _) | (F & _)]]; discriminate.
Qed.

(** X22 at the value [enum]. *)
Lemma searchDocs_type_filter_enum :
  searchDocs Samples.sampleStore "token" "all" "enum" 5 = [].
Proof.
  apply (proj2 (proj2 (proj2 (proj2
           (searchDocs_type_filter Samples.sampleStore "token" "all" 5))))).
  cbn. intuition discriminate.
Defined.

(** The sample store: the word [token] is in the description of its
    three declarations, and [class] selects them all. *)
Example searchDocs_sample :
  map SearchResult.title (searchDocs Samples.sampleStore "token" "all" "class" 5) =
  ["Foo"; "Foo"; "Baz"] /\
  searchDocs Samples.sampleStore "token" "all" "guide" 5 = [].
Proof. split; vm_compute; reflexivity. Qed.

Lemma substring_length_le (s : string) :
  forall n m, String.length (String.substring n m s) <= m.
Proof.
  induction s as [|c s IH]; intros [|n] [|m]; cbn; try lia.
  - specialize (IH 0 m). lia.
  - apply (IH n 0).
  - apply (IH n (S m)).
Qed.

Lemma substring_whole (s : string) (m : nat) :
  String.length s <= m -> String.substring 0 m s = s.
Proof.
  revert m. induction s as [|c s IH]; intros [|m]; cbn; try reflexivity; try lia.
  intros H. f_equal. apply IH. lia.
Qed.

(** X23. A snippet has at most 156 characters: at most 150 of the
    content and an ellipsis of three characters at each end.  When no
    term occurs in the content, the snippet has at most 153 characters,
    and it is the content itself when the content has at most 150
    characters. *)
Theorem createSnippet_is_short (content : string) (terms : list string) :
  String.length (createSnippet content terms) <= 156 /\
  (firstMatchIndex (JS.toLowerCase content) terms = None ->
   String.length (createSnippet content terms) <= 153 /\
   (String.length content <= 150 -> createSnippet content terms = content)).
Proof.
  unfold createSnippet. cbv zeta.
  destruct (firstMatchIndex (JS.toLowerCase content) terms) as [idx|].
  - split; [|discriminate].
    set (stop := Nat.min (String.length content) (idx + 150 - 40)).
    assert (Hs : String.length (JS.slice content (idx - 40) stop) <= 150).
    { unfold JS.slice. etransitivity; [apply substring_length_le|]. unfold stop. lia. }
    destruct (0 <? idx - 40), (stop <? String.length content);
      rewrite ?length_append; cbn [String.length]; lia.
  - assert (Hs : String.length (JS.slice content 0 150) <= 150)
      by (unfold JS.slice; apply substring_length_le).
    assert (Hb : String.length
                   (JS.slice content 0 150 ^^
                    (if 150 <? String.length content then "..." else "")) <= 153).
    { rewrite length_append. destruct (150 <? String.length content); cbn; lia. }
    split; [lia|]. intros _. split; [exact Hb|]. intros Hlen.
    destruct (150 <? String.length content) eqn:E; [apply Nat.ltb_lt in E; lia|].
    unfold JS.slice. rewrite Nat.sub_0_r, (substring_whole _ _ Hlen). apply append_empty_r.
Qed.

(** X23 at a short content without the term. *)
Lemma createSnippet_is_short_sample :
  String.length (createSnippet "A short text." ["token"]) <= 153 /\
  (String.length "A short text." <= 150 ->
   createSnippet "A short text." ["token"] = "A short text.").
Proof.
  apply (proj2 (createSnippet_is_short "A short text." ["token"])). reflexivity.
Defined.

Lemma sumZ_nonneg (l : list Z) : Forall (fun z => (0 <= z)%Z) l -> (0 <= sumZ l)%Z.
Proof. unfold sumZ. induction 1; cbn; lia. Qed.

(** X24. The relevance score of every text for every list of terms lies
    between 0 and 100. *)
Theorem calculateRelevance_range (text : string) (terms : list string) :
  (0 <= calculateRelevance text terms <= 100)%Z.
Proof.
  unfold calculateRelevance. cbv zeta. rewrite relevanceLoop_points.
  assert (H1 : (0 <= sumZ (map (occurrencePoints text) terms))%Z).
  { apply sumZ_nonneg, Forall_forall. intros z Hz.
    apply in_map_iff in Hz as (t & <- & _). unfold occurrencePoints.
    destruct (hasWord text t); [lia|]. destruct (JS.includes _ t); lia. }
  assert (H2 : (0 <= sumZ (map (firstWordPoints text) terms))%Z).
  { apply sumZ_nonneg, Forall_forall. intros z Hz.
    apply in_map_iff in Hz as (t & <- & _). unfold firstWordPoints. cbv zeta.
    destruct (_ || _); lia. }
  destruct (String.length text <? 100), (String.length text <? 50); lia.
Qed.

End SearchResults.

(* ================================================================== *)
(** * Further properties of the lookups and of the tools *)
(* ================================================================== *)

Section OrderFacts.

Lemma ascii_compare_refl (a : ascii) : Ascii.compare a a = Eq.
Proof. unfold Ascii.compare. apply N.compare_refl. Qed.

Lemma ascii_compare_lt_trans (a b c : ascii) :
  Ascii.compare a b = Lt -> Ascii.compare b c = Lt -> Ascii.compare a c = Lt.
Proof. unfold Ascii.compare. rewrite !N.compare_lt_iff. lia. Qed.

Lemma string_compare_refl (s : string) : String.compare s s = Eq.
Proof. induction s as [|c s IH]; cbn; [reflexivity|]. now rewrite ascii_compare_refl. Qed.

Lemma string_compare_lt_trans (a : string) :
  forall b c, String.compare a b = Lt -> String.compare b c = Lt -> String.compare a c = Lt.
Proof.
  induction a as [|x a IH]; intros [|y b] [|z c]; cbn; try discriminate; try reflexivity.
  destruct (Ascii.compare x y) eqn:Exy; try discriminate.
  - apply Ascii.compare_eq_iff in Exy. subst y.
    destruct (Ascii.compare x z); try discriminate; [apply IH | reflexivity].
  - intros _. destruct (Ascii.compare y z) eqn:Eyz; try discriminate.
    + apply Ascii.compare_eq_iff in Eyz. subst z. now rewrite Exy.
    + intros _. now rewrite (ascii_compare_lt_trans x y z Exy Eyz).
Qed.

Lemma string_compare_gt_lt (a b : string) :
  String.compare a b = Gt -> String.compare b a = Lt.
Proof. intros H. rewrite String.compare_antisym, H. reflexivity. Qed.

(** One level of a lexicographic order is transitive when the next
    level is. *)
Lemma lex_trans (a1 b1 c1 : string) (ab bc ac : bool) :
  (String.compare a1 b1 = Eq -> String.compare b1 c1 = Eq ->
   ab = true -> bc = true -> ac = true) ->
  match String.compare a1 b1 with Lt => true | Gt => false | Eq => ab end = true ->
  match String.compare b1 c1 with Lt => true | Gt => false | Eq => bc end = true ->
  match String.compare a1 c1 with Lt => true | Gt => false | Eq => ac end = true.
Proof.
  intros Hrec.
  destruct (String.compare a1 b1) eqn:Eab; try discriminate;
    destruct (String.compare b1 c1) eqn:Ebc; try discriminate; intros Hab Hbc.
  - pose proof (String.compare_eq_iff _ _ Eab). pose proof (String.compare_eq_iff _ _ Ebc).
    subst. rewrite string_compare_refl. now apply Hrec.
  - apply String.compare_eq_iff in Eab. subst. now rewrite Ebc.
  - apply String.compare_eq_iff in Ebc. subst. now rewrite Eab.
  - now rewrite (string_compare_lt_trans _ _ _ Eab Ebc).
Qed.

End OrderFacts.

Section ListModulesFacts.

Import Queries.

Lemma moduleKeyLe_total (a b : ClassRow.t) :
  moduleKeyLe a b = true \/ moduleKeyLe b a = true.
Proof.
  unfold moduleKeyLe.
  destruct (String.compare (ClassRow.package a) (ClassRow.package b)) eqn:Ep; [|now left|].
  - apply String.compare_eq_iff in Ep. rewrite Ep, string_compare_refl.
    destruct (String.compare (ClassRow.type a) (ClassRow.type b)) eqn:Et; [|now left|].
    + apply String.compare_eq_iff in Et. rewrite Et, string_compare_refl.
      destruct (String.compare (ClassRow.name a) (ClassRow.name b)) eqn:En;
        [now left | now left |].
      right. now rewrite (string_compare_gt_lt _ _ En).
    + right. now rewrite (string_compare_gt_lt _ _ Et).
  - right. now rewrite (string_compare_gt_lt _ _ Ep).
Qed.

Lemma moduleKeyLe_trans (a b c : ClassRow.t) :
  moduleKeyLe a b = true -> moduleKeyLe b c = true -> moduleKeyLe a c = true.
Proof.
  unfold moduleKeyLe. apply lex_trans. intros _ _. apply lex_trans. intros _ _.
  destruct (String.compare (ClassRow.name a) (ClassRow.name b)) eqn:Eab; try discriminate;
    destruct (String.compare (ClassRow.name b) (ClassRow.name c)) eqn:Ebc; try discriminate;
    intros _ _.
  - pose proof (String.compare_eq_iff _ _ Eab) as E1.
    pose proof (String.compare_eq_iff _ _ Ebc) as E2.
    rewrite E1, E2. now rewrite string_compare_refl.
  - apply String.compare_eq_iff in Eab. rewrite Eab. now rewrite Ebc.
  - apply String.compare_eq_iff in Ebc. rewrite <- Ebc. now rewrite Eab.
  - now rewrite (string_compare_lt_trans _ _ _ Eab Ebc).
Qed.

Lemma StronglySorted_map {A B : Type} (f : A -> B) (R : A -> A -> Prop)
      (R' : B -> B -> Prop) (l : list A) :
  (forall a b, R a b -> R' (f a) (f b)) ->
  StronglySorted R l -> StronglySorted R' (map f l).
Proof.
  intros Hf. induction 1 as [|x l Hs IH Hx]; cbn; constructor; [exact IH|].
  apply Forall_forall. intros y Hy. apply in_map_iff in Hy as (a & <- & Ha).
  apply Hf. now apply (proj1 (Forall_forall _ _) Hx).
Qed.

(** X25. [listModules] returns its rows in the order of package, then
    type, then name; a row is returned exactly when it is the row of a
    stored class that passes the package filter and the type filter
    (each does not filter when it is [all]); and there is one row for
    each such class. *)
Theorem listModules_sorted_and_complete (db : Store.t) (pkg type : string) :
  StronglySorted (fun a b => moduleRowLe a b = true) (listModules db pkg type) /\
  (forall m, In m (listModules db pkg type) <->
             exists c, In c (Store.classes db) /\
                       (pkg = "all" \/ ClassRow.package c = pkg) /\
                       (type = "all" \/ ClassRow.type c = type) /\
                       m = moduleOf c) /\
  List.length (listModules db pkg type) =
  List.length (filter (fun c => allOrEq pkg (ClassRow.package c) &&
                                allOrEq type (ClassRow.type c))
                      (Store.classes db)).
Proof.
  unfold listModules. repeat split.
  - apply StronglySorted_map with (R := fun a b => moduleKeyLe a b = true);
      [intros a b H; exact H|].
    apply sortBy_sorted; [apply moduleKeyLe_total | apply moduleKeyLe_trans].
  - intros Hm. apply in_map_iff in Hm as (c & <- & Hc).
    apply sortBy_In, filter_In in Hc as [Hc Hf]. apply andb_prop in Hf as [Hp Ht].
    exists c. split; [exact Hc|].
    split; [now apply allOrEq_package|]. split; [now apply allOrEq_package | reflexivity].
  - intros (c & Hc & Hp & Ht & ->). apply in_map_iff. exists c. split; [reflexivity|].
    apply sortBy_In, filter_In. split; [exact Hc|]. unfold allOrEq.
    apply andb_true_intro. split; apply orb_true_intro.
    + destruct Hp as [-> | ->]; [now left | right; apply String.eqb_refl].
    + destruct Ht as [-> | ->]; [now left | right; apply String.eqb_refl].
  - now rewrite length_map, sortBy_length.
Qed.

(** The sample store, whose rows were inserted in the order Foo of
    chain-api, Foo of chaincode, Baz of chain-api. *)
Example listModules_sample :
  map (fun m => (ModuleRow.package m, ModuleRow.name m))
      (listModules Samples.sampleStore "all" "all") =
  [("chain-api", "Baz"); ("chain-api", "Foo"); ("chaincode", "Foo")].
Proof. reflexivity. Qed.

End ListModulesFacts.

Section LookupEdgeFacts.

Import Queries Tools.

Lemma hd_error_filter_none {A : Type} (f : A -> bool) (l : list A) :
  hd_error (filter f l) = None <-> forall x, In x l -> f x = false.
Proof.
  induction l as [|y l IH]; cbn; [tauto|].
  destruct (f y) eqn:E; cbn.
  - split; [discriminate|]. intros H. specialize (H y (or_introl eq_refl)). congruence.
  - rewrite IH. split; [intros H x [<- | Hx]; auto | intros H x Hx; apply H; now right].
Qed.

(** X26. [getClass] returns nothing exactly when no stored class has
    the requested name and passes the package filter (a package given
    that is not the empty string must be that of the class); the tool
    then answers, for a name that is not blank and a ready index, that
    the class or interface was not found, naming the package when one
    was given. *)
Theorem getClass_not_found (db : Store.t) (name : string) (pkg : option string)
        (st : IndexStatus.t) :
  (getClass db name pkg = None <->
   forall c, In c (Store.classes db) -> ~ requested name pkg c) /\
  (IndexStatus.status st = Status.ready -> blank name = false ->
   (forall c, In c (Store.classes db) -> ~ requested name pkg c) ->
   getGalachainClass st db (GetClassArgs.mk name pkg) =
   "Class/interface " ^^ dq ^^ name ^^ dq ^^ " not found" ^^
   (if given pkg then " in package " ^^ show pkg else "") ^^ ".").
Proof.
  assert (H : getClass db name pkg = None <->
              forall c, In c (Store.classes db) -> ~ requested name pkg c).
  { transitivity (forall c, In c (Store.classes db) -> classMatches name pkg c = false).
    - rewrite <- hd_error_filter_none. unfold getClass.
      destruct (hd_error _); [split; discriminate | tauto].
    - split; intros Hc c Hin.
      + intros Hr. apply classMatches_requested in Hr. rewrite (Hc c Hin) in Hr.
        discriminate.
      + destruct (classMatches name pkg c) eqn:E; [|reflexivity].
        elim (Hc c Hin). now apply classMatches_requested. }
  split; [exact H|]. intros Hst Hb Hno. unfold getGalachainClass.
  rewrite Hst. cbv zeta. cbn [GetClassArgs.name GetClassArgs.package].
  rewrite Hb. now rewrite (proj2 H Hno).
Qed.

(** X26 at the name [Foo] and the package [chain-client]: the sample
    store holds two declarations named [Foo], of other packages. *)
Lemma getClass_not_found_sample :
  getGalachainClass (IndexStatus.mk Status.ready None) Samples.sampleStore
                    (GetClassArgs.mk "Foo" (Some "chain-client")) =
  "Class/interface " ^^ dq ^^ "Foo" ^^ dq ^^ " not found" ^^
  " in package chain-client" ^^ ".".
Proof.
  apply (proj2 (getClass_not_found Samples.sampleStore "Foo" (Some "chain-client")
                                   (IndexStatus.mk Status.ready None)));
    [reflexivity | reflexivity |].
  intros c Hc [_ [Hp | Hp]]; [discriminate|].
  cbn in Hc. destruct Hc as [<- | [<- | [<- | []]]]; discriminate.
Defined.

Lemma splitChar_two (owner member rest : string) :
  JS.includes owner "." = false -> JS.includes member "." = false ->
  exists tail,
    JS.splitChar "." (owner ^^ String "." (member ^^ String "." rest)) =
    owner :: member :: tail.
Proof.
  intros Ho Hm. rewrite (splitChar_dot owner _ Ho), (splitChar_dot member _ Hm). eauto.
Qed.

(** X27. [getMethod] reads only the first two segments of a dotted
    name: what follows a second dot is ignored. *)
Theorem getMethod_ignores_further_segments
        (db : Store.t) (owner member rest : string) (pkg : option string) :
  JS.includes owner "." = false -> JS.includes member "." = false ->
  getMethod db (owner ^^ "." ^^ member ^^ "." ^^ rest) pkg =
  getMethod db (owner ^^ "." ^^ member) pkg.
Proof.
  intros Ho Hm. unfold getMethod.
  rewrite (splitQualified_dot owner member Ho Hm).
  unfold splitQualified.
  change ("." ^^ member ^^ "." ^^ rest) with (String "." (member ^^ String "." rest)).
  rewrite includes_dot_append.
  destruct (splitChar_two owner member rest Ho Hm) as (tail & ->). reflexivity.
Qed.

(** X27 at a name of three segments. *)
Lemma getMethod_ignores_further_segments_sample :
  getMethod Samples.sampleStore "Foo.bar.baz" None =
  getMethod Samples.sampleStore "Foo.bar" None.
Proof.
  apply (getMethod_ignores_further_segments Samples.sampleStore "Foo" "bar" "baz" None);
    reflexivity.
Defined.

Lemma substring_prefix_length (s : string) :
  forall n, n <= String.length s -> String.length (String.substring 0 n s) = n.
Proof.
  induction s as [|c s IH]; intros [|n]; cbn; try lia.
  intros Hn. rewrite IH; lia.
Qed.

(** X28. [truncate] with a maximum of 3 or more returns a text of at
    most that many characters: the text itself when it fits, else its
    first characters followed by an ellipsis, the maximum in all. *)
Theorem truncate_fits (s : string) (maxLen : nat) :
  3 <= maxLen ->
  String.length (truncate s maxLen) <= maxLen /\
  (String.length s <= maxLen -> truncate s maxLen = s) /\
  (maxLen < String.length s ->
   truncate s maxLen = String.substring 0 (maxLen - 3) s ^^ "..." /\
   String.length (truncate s maxLen) = maxLen).
Proof.
  intros H3. unfold truncate.
  destruct (String.length s <=? maxLen) eqn:E.
  - apply Nat.leb_le in E. split; [exact E|]. split; [reflexivity | lia].
  - apply Nat.leb_gt in E. rewrite (proj2 (Nat.leb_le 3 maxLen) H3).
    unfold JS.slice. rewrite Nat.sub_0_r.
    assert (Hl : String.length (String.substring 0 (maxLen - 3) s ^^ "...") = maxLen).
    { rewrite length_append, substring_prefix_length by lia. cbn. lia. }
    split; [lia|]. split; [lia|]. intros _. now split.
Qed.

(** X28 at a text of 30 characters and a maximum of 10. *)
Lemma truncate_fits_sample :
  String.length (truncate "A description that is too long" 10) <= 10 /\
  (String.length "A description that is too long" <= 10 ->
   truncate "A description that is too long" 10 = "A description that is too long") /\
  (10 < String.length "A description that is too long" ->
   truncate "A description that is too long" 10 =
     String.substring 0 (10 - 3) "A description that is too long" ^^ "..." /\
   String.length (truncate "A description that is too long" 10) = 10).
Proof. apply (truncate_fits "A description that is too long" 10). lia. Defined.

Example truncate_sample :
  truncate "A description that is too long" 10 = "A descr..." /\
  truncate "abcdef" 2 = "abcde...".
Proof. split; reflexivity. Qed.

(** X29. With a ready index, the three tools that take a text answer a
    text made of white space only (the empty text included) with their
    request for an argument, whatever the store and the other
    arguments. *)
Theorem blank_arguments_are_refused
        (st : IndexStatus.t) (db : Store.t) (text : string)
        (pkg type : option string) (limit : option Z) :
  IndexStatus.status st = Status.ready ->
  forallb JS.isSpace (list_ascii_of_string text) = true ->
  searchGalachainDocs st db (SearchArgs.mk text pkg type limit) =
    "Please provide a search query." /\
  getGalachainClass st db (GetClassArgs.mk text pkg) =
    "Please provide a class/interface name." /\
  getGalachainMethod st db (GetMethodArgs.mk text pkg) =
    "Please provide a method name (e.g., " ^^ dq ^^ "submit" ^^ dq ^^ " or " ^^
    dq ^^ "GalaContract.submit" ^^ dq ^^ ").".
Proof.
  intros Hst Hb.
  assert (E : blank text = true).
  { unfold blank. rewrite (trim_of_blank text Hb). apply orb_true_r. }
  unfold searchGalachainDocs, getGalachainClass, getGalachainMethod.
  rewrite Hst. cbv zeta.
  cbn [SearchArgs.query GetClassArgs.name GetMethodArgs.method_name].
  now rewrite E.
Qed.

(** X29 at two spaces. *)
Lemma blank_arguments_are_refused_sample :
  searchGalachainDocs (IndexStatus.mk Status.ready None) Store.empty
                      (SearchArgs.mk "  " None None None) =
    "Please provide a search query." /\
  getGalachainClass (IndexStatus.mk Status.ready None) Store.empty
                    (GetClassArgs.mk "  " None) =
    "Please provide a class/interface name." /\
  getGalachainMethod (IndexStatus.mk Status.ready None) Store.empty
                     (GetMethodArgs.mk "  " None) =
    "Please provide a method name (e.g., " ^^ dq ^^ "submit" ^^ dq ^^ " or " ^^
    dq ^^ "GalaContract.submit" ^^ dq ^^ ").".
Proof.
  apply (blank_arguments_are_refused (IndexStatus.mk Status.ready None) Store.empty
                                     "  " None None None); reflexivity.
Defined.

End LookupEdgeFacts.

Section GroupFacts.

Import Tools.

Context {A : Type} (keyOf : A -> string).

Lemma addToGroup_keys (key : string) (x : A) (groups : list (string * list A)) :
  map fst (addToGroup key x groups) =
  if existsb (String.eqb key) (map fst groups) then map fst groups
  else map fst groups ++ [key].
Proof.
  induction groups as [|[k items] groups IH]; cbn [addToGroup map fst existsb]; [reflexivity|].
  rewrite (String.eqb_sym key k). destruct (String.eqb k key) eqn:E; cbn [orb map fst].
  - reflexivity.
  - rewrite IH. now destruct (existsb _ _).
Qed.

(** The groups after an item is added, when no two groups have the same
    key: the group of the key has the item at its end, or is a new group
    of that item alone; the other groups stay. *)
Lemma addToGroup_In (key : string) (x : A) (groups : list (string * list A))
      (k : string) (items : list A) :
  NoDup (map fst groups) ->
  (In (k, items) (addToGroup key x groups) <->
   (k <> key /\ In (k, items) groups) \/
   (k = key /\ ((exists old, In (key, old) groups /\ items = old ++ [x]) \/
                (~ In key (map fst groups) /\ items = [x])))).
Proof.
  induction groups as [|[k' items'] groups IH]; intros Hnd.
  - cbn. split.
    + intros [E | []]. injection E as <- <-. right. split; [reflexivity|]. right. tauto.
    + intros [[_ []] | [-> [(old & [] & _) | [_ ->]]]]. now left.
  - cbn [map fst] in Hnd. inversion Hnd as [|? ? Hk' Hnd']; subst.
    cbn [addToGroup]. destruct (String.eqb k' key) eqn:E.
    + apply String.eqb_eq in E. subst k'. cbn [In map fst]. split.
      * intros [H | H].
        -- injection H as <- <-. right. split; [reflexivity|]. left. exists items'. tauto.
        -- destruct (String.eqb_spec k key) as [-> | N].
           ++ elim Hk'. apply in_map_iff. now exists (key, items).
           ++ left. tauto.
      * intros [[N [H | H]] | [-> [(old & [H | H] & ->) | [N _]]]].
        -- injection H as -> _. now elim N.
        -- now right.
        -- injection H as <-. now left.
        -- elim Hk'. apply in_map_iff. now exists (key, old).
        -- elim N. now left.
    + apply String.eqb_neq in E. cbn [In map fst]. rewrite (IH Hnd'). split.
      * intros [H | [[N H] | [-> [(old & H & ->) | [N ->]]]]].
        -- injection H as <- <-. left. split; [exact E | now left].
        -- left. split; [exact N | now right].
        -- right. split; [reflexivity|]. left. exists old. split; [now right | reflexivity].
        -- right. split; [reflexivity|]. right. split; [|reflexivity].
           intros [F | F]; [now apply E | now apply N].
      * intros [[N [H | H]] | [-> [(old & [H | H] & ->) | [N ->]]]].
        -- now left.
        -- right. left. tauto.
        -- injection H as F _. now elim E.
        -- right. right. split; [reflexivity|]. left. now exists old.
        -- right. right. split; [reflexivity|]. right. split; [|reflexivity].
           intros F. apply N. now right.
Qed.

Lemma addToGroup_NoDup (key : string) (x : A) (groups : list (string * list A)) :
  NoDup (map fst groups) -> NoDup (map fst (addToGroup key x groups)).
Proof.
  intros Hnd. rewrite addToGroup_keys.
  destruct (existsb (String.eqb key) (map fst groups)) eqn:E; [exact Hnd|].
  apply NoDup_snoc; [exact Hnd|]. intros Hin.
  assert (existsb (String.eqb key) (map fst groups) = true); [|congruence].
  apply existsb_exists. exists key. split; [exact Hin | apply String.eqb_refl].
Qed.

Lemma filter_snoc (f : A -> bool) (l : list A) (x : A) :
  filter f (l ++ [x]) = filter f l ++ (if f x then [x] else []).
Proof. rewrite filter_app. cbn. now destruct (f x). Qed.

Lemma grouped_step (groups : list (string * list A)) (done : list A) (x : A) :
  grouped keyOf groups done ->
  grouped keyOf (addToGroup (keyOf x) x groups) (done ++ [x]).
Proof.
  intros [Hnd Hg]. split; [now apply addToGroup_NoDup|].
  intros k items. rewrite (addToGroup_In _ _ _ _ _ Hnd), filter_snoc. unfold hasKey at 2.
  split.
  - intros [[N H] | [-> [(old & H & ->) | [N ->]]]].
    + apply Hg in H as [H1 H2].
      assert (E : String.eqb (keyOf x) k = false) by (apply String.eqb_neq; congruence).
      rewrite E, app_nil_r. now split.
    + apply Hg in H as [H1 H2]. rewrite String.eqb_refl, <- H2.
      split; [now destruct old | reflexivity].
    + rewrite String.eqb_refl.
      assert (E : filter (hasKey keyOf (keyOf x)) done = []).
      { destruct (filter (hasKey keyOf (keyOf x)) done) as [|y ys] eqn:Ef; [reflexivity|].
        elim N. apply in_map_iff. exists (keyOf x, y :: ys). split; [reflexivity|].
        apply Hg. split; [discriminate | now rewrite Ef]. }
      rewrite E. split; [discriminate | reflexivity].
  - intros [Hne ->]. destruct (String.eqb (keyOf x) k) eqn:E.
    + apply String.eqb_eq in E. subst k. right. split; [reflexivity|].
      destruct (filter (hasKey keyOf (keyOf x)) done) as [|y ys] eqn:Ef.
      * right. split; [|reflexivity]. intros Hin. apply in_map_iff in Hin as ([k its] & Ek & Hin).
        cbn in Ek. subst k. apply Hg in Hin as [H1 H2]. rewrite Ef in H2. contradiction.
      * left. exists (y :: ys). split; [|reflexivity]. apply Hg.
        split; [discriminate | now rewrite Ef].
    + left. apply String.eqb_neq in E. split; [congruence|].
      rewrite app_nil_r in *. apply Hg. now split.
Qed.

Lemma grouped_loop (l : list A) :
  forall groups done,
    grouped keyOf groups done ->
    grouped keyOf (fold_left (fun groups x => addToGroup (keyOf x) x groups) l groups)
            (done ++ l).
Proof.
  induction l as [|x l IH]; intros groups done H; cbn [fold_left].
  - now rewrite app_nil_r.
  - replace (done ++ x :: l) with ((done ++ [x]) ++ l) by now rewrite <- app_assoc.
    now apply IH, grouped_step.
Qed.

(** X30. The grouping of [listGalachainModules] (by package, then by
    type within a package) forms one group for each key that occurs: no
    two groups have the same key, no group is empty, and the group of a
    key holds exactly the items of that key, in their order. *)
Theorem groupBy_partitions (l : list A) :
  NoDup (map fst (groupBy keyOf l)) /\
  (forall k items, In (k, items) (groupBy keyOf l) <->
                   items <> [] /\ items = filter (hasKey keyOf k) l).
Proof.
  unfold groupBy. apply (grouped_loop l [] []). split; [constructor|].
  intros k items. cbn. split; [intros [] | intros [H ->]; now elim H].
Qed.

End GroupFacts.

(* ================================================================== *)
(** * Member extraction on sections with a signature block *)
(* ================================================================== *)

Section DriverFacts.


Lemma forallb_append (P : ascii -> bool) (a b : string) :
  forallb P (list_ascii_of_string (a ^^ b)) =
  forallb P (list_ascii_of_string a) && forallb P (list_ascii_of_string b).
Proof. now rewrite list_ascii_of_append, forallb_app. Qed.

Lemma forallb_weaken (P Q : ascii -> bool) (l : list ascii) :
  (forall c, P c = true -> Q c = true) -> forallb P l = true -> forallb Q l = true.
Proof.
  intros H. induction l as [|c l IH]; cbn; [reflexivity|].
  intros Hl. apply andb_prop in Hl as [Hc Hl]. now rewrite (H c Hc), (IH Hl).
Qed.

Lemma substring_skip (a : string) (n : nat) (r : string) :
  String.substring (String.length a) n (a ^^ r) = String.substring 0 n r.
Proof. induction a as [|c a IH]; cbn; [reflexivity | exact IH]. Qed.

Lemma drop_append (a r : string) : Rx.drop (String.length a) (a ^^ r) = r.
Proof.
  unfold Rx.drop. rewrite substring_skip, length_append.
  replace (String.length a + String.length r - String.length a) with (String.length r) by lia.
  apply substring_all.
Qed.

Lemma take_append (a r : string) : Rx.take (String.length a) (a ^^ r) = a.
Proof. unfold Rx.take. induction a as [|c a IH]; cbn; [now destruct r | now rewrite IH]. Qed.

Lemma prefix_append (p r : string) : String.prefix p (p ^^ r) = true.
Proof.
  induction p as [|c p IH]; cbn; [now destruct r|].
  destruct (ascii_dec c c) as [_ | N]; [exact IH | now elim N].
Qed.

Lemma endsWith_append (y p : string) : JS.endsWith (y ^^ p) p = true.
Proof.
  unfold JS.endsWith. rewrite length_append.
  replace (String.length y + String.length p - String.length p) with (String.length y) by lia.
  rewrite substring_skip, substring_all, String.eqb_refl.
  rewrite andb_true_r. apply Nat.leb_le. lia.
Qed.

(** A driver passes over a run of characters at which the expression
    cannot start. *)
Lemma allFrom_skip_run {A : Type} (m : option ascii -> string -> option (A * nat))
      (P : ascii -> bool) :
  (forall prev c r, P c = true -> m prev (String c r) = None) ->
  forall w prev tail,
    forallb P (list_ascii_of_string w) = true ->
    exists prev', Rx.allFrom m 0 prev (w ^^ tail) = Rx.allFrom m 0 prev' tail.
Proof.
  intros Hnone. induction w as [|c w IH]; intros prev tail Hw.
  - now exists prev.
  - cbn in Hw. apply andb_prop in Hw as [Hc Hw].
    cbn [append Rx.allFrom]. rewrite (Hnone prev c _ Hc). apply (IH _ _ Hw).
Qed.

(** A driver resumes after the characters of a match. *)
Lemma allFrom_skip_count {A : Type} (m : option ascii -> string -> option (A * nat)) :
  forall a prev tail,
    exists prev', Rx.allFrom m (String.length a) prev (a ^^ tail) = Rx.allFrom m 0 prev' tail.
Proof.
  induction a as [|c a IH]; intros prev tail.
  - now exists prev.
  - cbn [String.length append Rx.allFrom]. apply IH.
Qed.

Lemma firstFrom_skip_run {A : Type} (m : option ascii -> string -> option A)
      (P : ascii -> bool) (w tail : string) (a : A) :
  (forall prev c r, P c = true -> m prev (String c r) = None) ->
  forallb P (list_ascii_of_string w) = true ->
  (forall prev, m prev tail = Some a) ->
  forall idx prev, exists j, Rx.firstFrom m idx prev (w ^^ tail) = Some (a, j).
Proof.
  intros Hnone Hw Hok. induction w as [|c w IH]; intros idx prev.
  - exists idx. cbn [append]. destruct tail; cbn; now rewrite Hok.
  - cbn in Hw. apply andb_prop in Hw as [Hc Hw].
    cbn [append Rx.firstFrom]. rewrite (Hnone prev c _ Hc). apply (IH Hw).
Qed.

Lemma first_skip_run {A : Type} (m : option ascii -> string -> option A)
      (P : ascii -> bool) (w tail : string) (a : A) :
  (forall prev c r, P c = true -> m prev (String c r) = None) ->
  forallb P (list_ascii_of_string w) = true ->
  (forall prev, m prev tail = Some a) ->
  Rx.first m (w ^^ tail) = Some a.
Proof.
  intros Hnone Hw Hok. unfold Rx.first.
  destruct (firstFrom_skip_run m P w tail a Hnone Hw Hok 0 None) as [j ->]. reflexivity.
Qed.

Lemma firstFrom_none {A : Type} (m : option ascii -> string -> option A)
      (Q : string -> Prop) :
  (forall c r, Q (String c r) -> Q r) ->
  (forall prev t, Q t -> m prev t = None) ->
  forall s idx prev, Q s -> Rx.firstFrom m idx prev s = None.
Proof.
  intros Htail Hnone. induction s as [|c s IH]; intros idx prev Hs; cbn.
  - now rewrite (Hnone prev "" Hs).
  - rewrite (Hnone prev _ Hs). apply IH. eapply Htail, Hs.
Qed.

Lemma allFrom_skip_to {A : Type} (m : option ascii -> string -> option (A * nat))
      (P : ascii -> bool) :
  (forall prev c r, P c = true -> m prev (String c r) = None) ->
  forall w prev c tail,
    forallb P (list_ascii_of_string w) = true -> P c = true ->
    Rx.allFrom m 0 prev (w ^^ String c tail) = Rx.allFrom m 0 (Some c) tail.
Proof.
  intros Hnone. induction w as [|x w IH]; intros prev c tail Hw Hc.
  - cbn [append Rx.allFrom]. now rewrite (Hnone prev c tail Hc).
  - cbn in Hw. apply andb_prop in Hw as [Hx Hw].
    cbn [append Rx.allFrom]. rewrite (Hnone prev x _ Hx). now apply IH.
Qed.

End DriverFacts.

Section ArgumentGroups.

Import Typedoc.

Lemma bracket_not_comma (c : ascii) :
  isOpener c || isCloser c = true -> Ascii.eqb c "," = false.
Proof.
  destruct (Ascii.eqb_spec c ",") as [-> | _]; [discriminate | reflexivity].
Qed.

(** Where every closing bracket closes an open one, the counter of the
    loop is the number of open brackets, and the loop cuts the
    top-level groups. *)
Lemma groupsFrom_nested (s : string) :
  forall d, closersMatched d s = true -> groupsFrom (Z.of_nat d) s = nestedGroups d s.
Proof.
  induction s as [|c s IH]; intros d H; [reflexivity|].
  cbn [groupsFrom nestedGroups closersMatched] in *.
  replace (Z.of_nat d =? 0)%Z with (d =? 0)
    by (destruct d; [reflexivity | symmetry; apply Z.eqb_neq; lia]).
  destruct (isOpener c) eqn:Eo.
  - rewrite (bracket_not_comma c) by now rewrite Eo. cbn [andb].
    replace (Z.of_nat d + 1)%Z with (Z.of_nat (S d)) by lia. now rewrite (IH _ H).
  - destruct (isCloser c) eqn:Ec.
    + rewrite (bracket_not_comma c) by (rewrite Ec; apply orb_true_r). cbn [andb].
      destruct d as [|k]; [discriminate|].
      replace (Z.of_nat (S k) - 1)%Z with (Z.of_nat k) by lia. cbn [Nat.pred].
      now rewrite (IH _ H).
    + destruct (Ascii.eqb c "," && (d =? 0)); now rewrite (IH _ H).
Qed.

Lemma nestedGroups_chars (P : ascii -> bool) (s : string) :
  forall d, forallb P (list_ascii_of_string s) = true ->
            Forall (fun g => forallb P (list_ascii_of_string g) = true) (nestedGroups d s).
Proof.
  induction s as [|c s IH]; intros d H; cbn [nestedGroups].
  - repeat constructor.
  - cbn in H. apply andb_prop in H as [Hc Hs].
    destruct (Ascii.eqb c "," && (d =? 0)).
    + constructor; [reflexivity | now apply IH].
    + match goal with |- context [nestedGroups ?k s] => specialize (IH k Hs);
        destruct (nestedGroups k s) as [|g gs] end.
      * repeat constructor. cbn. now rewrite Hc.
      * inversion IH; subst. constructor; [cbn; now rewrite Hc | assumption].
Qed.

Lemma trimStart_chars (P : ascii -> bool) (s : string) :
  forallb P (list_ascii_of_string s) = true ->
  forallb P (list_ascii_of_string (JS.trimStart s)) = true.
Proof.
  induction s as [|c s IH]; cbn; [reflexivity|]. intros H.
  destruct (JS.isSpace c); [apply IH; now apply andb_prop in H | exact H].
Qed.

Lemma trimEnd_chars (P : ascii -> bool) (s : string) :
  forallb P (list_ascii_of_string s) = true ->
  forallb P (list_ascii_of_string (JS.trimEnd s)) = true.
Proof.
  induction s as [|c s IH]; cbn; [reflexivity|]. intros H.
  apply andb_prop in H as [Hc Hs]. specialize (IH Hs).
  destruct (JS.trimEnd s) as [|d r].
  - destruct (JS.isSpace c); cbn; [reflexivity | now rewrite Hc].
  - cbn in *. now rewrite Hc.
Qed.

Lemma trim_chars (P : ascii -> bool) (s : string) :
  forallb P (list_ascii_of_string s) = true ->
  forallb P (list_ascii_of_string (JS.trim s)) = true.
Proof. intros H. unfold JS.trim. now apply trimEnd_chars, trimStart_chars. Qed.

Lemma span_snd_chars (P p : ascii -> bool) (s : string) :
  forallb P (list_ascii_of_string s) = true ->
  forallb P (list_ascii_of_string (snd (Rx.span p s))) = true.
Proof.
  induction s as [|c s IH]; cbn; [reflexivity|]. intros H.
  destruct (p c); [|exact H]. apply andb_prop in H as [_ Hs].
  specialize (IH Hs). now destruct (Rx.span p s).
Qed.

Lemma span_all (p : ascii -> bool) (s : string) :
  forallb p (list_ascii_of_string s) = true -> Rx.span p s = (s, "").
Proof.
  induction s as [|c s IH]; cbn; [reflexivity|]. intros H.
  apply andb_prop in H as [Hc Hs]. now rewrite Hc, (IH Hs).
Qed.

Lemma span_isSpace_trimStart (s : string) : snd (Rx.span JS.isSpace s) = JS.trimStart s.
Proof.
  induction s as [|c s IH]; cbn; [reflexivity|].
  destruct (JS.isSpace c); [|reflexivity]. now destruct (Rx.span JS.isSpace s).
Qed.

Lemma trimStart_idem (s : string) : JS.trimStart (JS.trimStart s) = JS.trimStart s.
Proof.
  pose proof (trimStart_head s) as H. destruct (JS.trimStart s) as [|c r]; [reflexivity|].
  cbn. now rewrite H.
Qed.

(** The rest of a line that holds a type: the expression of the
    signature parameters captures it from its first character that is
    not white space. *)
Lemma spacesThenLine_type (t : string) :
  JS.truthy (JS.trim t) = true -> Guide.noLineTerminator t = true ->
  exists ty len, Rx.spacesThenLine t = Some (ty, len) /\ JS.trim ty = JS.trim t.
Proof.
  intros Ht Hl. unfold Rx.spacesThenLine, Rx.runThenLine.
  pose proof (span_isSpace_trimStart t) as Hs.
  destruct (Rx.span JS.isSpace t) as [w rest]. cbn [snd] in Hs. subst rest.
  destruct (JS.trimStart t) as [|c r] eqn:E; [unfold JS.trim in Ht; now rewrite E in Ht|].
  cbn [Nat.leb].
  assert (Hn : forallb Rx.notTerminator (list_ascii_of_string (String c r)) = true).
  { rewrite <- E. now apply trimStart_chars. }
  rewrite (span_all _ _ Hn). eexists. eexists. split; [reflexivity|].
  unfold JS.trim. now rewrite <- E, trimStart_idem.
Qed.

(** A group of the form [name?: Type] declares its parameter. *)
Lemma typed_paramOfPart (g : string) (p : ParamInfo.t) :
  typedGroup g = Some p -> paramOfPart (JS.trim g) = [p].
Proof.
  unfold typedGroup, paramOfPart, paramMatch. intros H.
  assert (E : exists n opt ty, paramMatchAt None (JS.trim g) = Some (n, opt, ty) /\
                               p = ParamInfo.mk n (JS.trim ty) "" opt).
  { unfold paramMatchAt. destruct (Rx.span JS.isWord (JS.trim g)) as [name r1].
    destruct (match r1 with
              | String "?"%char r => (true, r)
              | _ => (false, r1)
              end) as [opt r2].
    destruct r2 as [|c ty]; [discriminate|].
    destruct c as [[] [] [] [] [] [] [] []]; try discriminate.
    destruct (JS.truthy name); [|discriminate]. cbn [andb] in H.
    destruct (JS.truthy (JS.trim ty)) eqn:Et; [|discriminate].
    destruct (Guide.noLineTerminator ty) eqn:El; [|discriminate].
    cbn [andb] in H. injection H as <-.
    destruct (spacesThenLine_type ty Et El) as (ty' & len & -> & Ety).
    exists name, opt, ty'. now rewrite Ety. }
  destruct E as (n & opt & ty & E & ->).
  now rewrite (first_here paramMatchAt _ _ E).
Qed.

Lemma noColon_tail (c : ascii) (s : string) : noColon (String c s) = true -> noColon s = true.
Proof. unfold noColon. cbn. intros H. now apply andb_prop in H. Qed.

Lemma paramMatchAt_noColon (prev : option ascii) (t : string) :
  noColon t = true -> paramMatchAt prev t = None.
Proof.
  intros H. unfold paramMatchAt.
  pose proof (span_snd_chars (fun c => negb (Ascii.eqb c ":")) JS.isWord t H) as Hr.
  destruct (Rx.span JS.isWord t) as [name r1]. cbn [snd] in Hr.
  destruct (JS.truthy name); [|reflexivity].
  destruct r1 as [|c r]; [reflexivity|].
  cbn in Hr. apply andb_prop in Hr as [Hc Hr].
  assert (Hcase : forall (o : bool) (r2 : string),
             forallb (fun c => negb (Ascii.eqb c ":")) (list_ascii_of_string r2) = true ->
             match r2 with
             | String ":"%char r3 =>
                 match Rx.spacesThenLine r3 with
                 | Some (ty, _) => Some (name, o, ty)
                 | None => None
                 end
             | _ => None
             end = None).
  { intros o [|d r3] Hd; [reflexivity|]. cbn in Hd. apply andb_prop in Hd as [Hd _].
    destruct d as [[] [] [] [] [] [] [] []]; try reflexivity; discriminate. }
  assert (H2 : forallb (fun c => negb (Ascii.eqb c ":"))
                       (list_ascii_of_string (String c r)) = true)
    by (cbn; now rewrite Hc, Hr).
  clear Hc.
  destruct c as [[] [] [] [] [] [] [] []]; cbv beta iota;
    first [ apply (Hcase true r Hr) | apply (Hcase false _ H2) ].
Qed.

(** A group without colon declares no parameter. *)
Lemma untyped_paramOfPart (g : string) :
  noColon g = true -> paramOfPart (JS.trim g) = [].
Proof.
  intros H. unfold paramOfPart, paramMatch, Rx.first.
  rewrite (firstFrom_none paramMatchAt (fun t => noColon t = true)); [reflexivity | | |].
  - apply noColon_tail.
  - intros prev t. apply paramMatchAt_noColon.
  - now apply trim_chars.
Qed.

Lemma declared_paramOfPart (groups : list string) :
  Forall (fun g => typedGroup g <> None \/ noColon g = true) groups ->
  flat_map paramOfPart (map JS.trim groups) =
  flat_map (fun g => match typedGroup g with Some p => [p] | None => [] end) groups.
Proof.
  induction 1 as [|g groups Hg _ IH]; cbn [map flat_map]; [reflexivity|].
  rewrite IH. f_equal. destruct (typedGroup g) as [p|] eqn:E.
  - now apply typed_paramOfPart.
  - destruct Hg as [Hg | Hg]; [now elim Hg | now apply untyped_paramOfPart].
Qed.

Lemma declared_length (groups : list string) :
  List.length (flat_map (fun g => match typedGroup g with Some p => [p] | None => [] end)
                        groups)
  = List.length (filter isTyped groups).
Proof.
  induction groups as [|g groups IH]; cbn; [reflexivity|]. unfold isTyped at 1.
  destruct (typedGroup g); cbn; now rewrite IH.
Qed.

Lemma filter_all_length {A : Type} (f : A -> bool) (l : list A) :
  Forall (fun x => f x = true) l -> List.length (filter f l) = List.length l.
Proof.
  induction 1 as [|x l Hx _ IH]; cbn; [reflexivity|]. now rewrite Hx; cbn; rewrite IH.
Qed.

End ArgumentGroups.

Section SignatureBlocks.

Import Typedoc.

(** What holds of every word character holds of the characters of a
    word. *)
Lemma word_chars (Q : ascii -> bool) (w : string) :
  forallb (fun c => implb (JS.isWord c) (Q c)) Queries.allAscii = true ->
  isWordString w = true -> forallb Q (list_ascii_of_string w) = true.
Proof.
  intros HQ. unfold isWordString. apply forallb_weaken. intros c Hc.
  pose proof (forall_ascii _ HQ c) as H. cbn beta in H. now rewrite Hc in H.
Qed.

Lemma word_char (Q : ascii -> bool) (c : ascii) :
  forallb (fun c => implb (JS.isWord c) (Q c)) Queries.allAscii = true ->
  JS.isWord c = true -> Q c = true.
Proof.
  intros HQ Hc. pose proof (forall_ascii _ HQ c) as H. cbn beta in H. now rewrite Hc in H.
Qed.

Variables pre lang ident args post rest : string.

Hypothesis Hid : isIdentifier ident.
Hypothesis Hlang : In lang [""; "ts"; "typescript"].
Hypothesis Hargs : quiet args = true.
Hypothesis Hpost : quiet post = true.
Hypothesis Hrest : quiet rest = true.
Hypothesis Hargs1 : Guide.noLineTerminator args = true.
Hypothesis Hpost1 : Guide.noLineTerminator post = true.
Hypothesis Hparen : noClosingParen args = true.
Hypothesis Hclose : closersMatched 0 args = true.
Hypothesis Hgroups :
  Forall (fun g => typedGroup g <> None \/ noColon g = true) (topLevelGroups args).
Hypothesis Hpre : unmarked pre = true.

Abbreviation sigline := (signatureLine ident args post).
Abbreviation block := (signatureBlock lang (signatureLine ident args post)).

Lemma quiet_class (Q : ascii -> bool) (s : string) :
  (forall c, negb (isMark c) && negb (isBullet c) = true -> Q c = true) ->
  quiet s = true -> forallb Q (list_ascii_of_string s) = true.
Proof. intros H. unfold quiet. now apply forallb_weaken. Qed.

Lemma quiet_notBacktick (s : string) :
  quiet s = true -> forallb Rx.notBacktick (list_ascii_of_string s) = true.
Proof.
  apply quiet_class. intros c Hc. apply andb_prop in Hc as [Hc _].
  unfold isMark in Hc. apply negb_true_iff, orb_false_elim in Hc as [_ Hc].
  unfold Rx.notBacktick. now rewrite Hc.
Qed.

Lemma sigline_notBacktick : forallb Rx.notBacktick (list_ascii_of_string sigline) = true.
Proof.
  unfold signatureLine. destruct Hid as [_ Hw].
  rewrite !forallb_append, (quiet_notBacktick args Hargs), (quiet_notBacktick post Hpost).
  rewrite (word_chars Rx.notBacktick ident); [reflexivity | vm_compute; reflexivity | exact Hw].
Qed.

Lemma sigline_head : exists c r, sigline = String c r /\ JS.isWord c = true.
Proof.
  unfold signatureLine. destruct Hid as [Ht Hw]. destruct ident as [|c r]; [discriminate|].
  exists c. eexists. split; [reflexivity|]. unfold isWordString in Hw. cbn in Hw.
  now apply andb_prop in Hw.
Qed.

(** The body of the block is its line. *)
Lemma codeBody_line :
  Rx.codeBody (newline ^^ sigline ^^ newline ^^ "```" ^^ rest) =
  Some (sigline, String.length sigline + 5).
Proof.
  destruct sigline_head as (c & r & E & Hc).
  unfold Rx.codeBody.
  assert (Hw : Rx.span JS.isSpace (newline ^^ sigline ^^ newline ^^ "```" ^^ rest) =
               (newline, sigline ^^ newline ^^ "```" ^^ rest)).
  { rewrite E. cbn [newline append Rx.span]. replace (JS.isSpace "010") with true by reflexivity.
    cbn [Rx.span].
    rewrite (proj1 (negb_true_iff _)
               (word_char (fun c => negb (JS.isSpace c)) c ltac:(vm_compute; reflexivity) Hc)).
    reflexivity. }
  rewrite Hw.
  assert (Hz : Rx.span Rx.notBacktick (newline ^^ sigline ^^ newline ^^ "```" ^^ rest) =
               (newline ^^ sigline ^^ newline, "```" ^^ rest)).
  { replace (newline ^^ sigline ^^ newline ^^ "```" ^^ rest)
      with ((newline ^^ sigline ^^ newline) ^^ String "`" ("``" ^^ rest))
      by (now rewrite !append_assoc).
    apply span_run; [|reflexivity].
    now rewrite !forallb_append, sigline_notBacktick. }
  rewrite Hz.
  replace (String.prefix "```" ("```" ^^ rest)) with true by (symmetry; apply prefix_append).
  replace (newline ^^ sigline ^^ newline) with ((newline ^^ sigline) ^^ String "010" "")
    by (now rewrite append_assoc).
  rewrite endsWith_append. cbn [andb].
  rewrite !length_append. cbn [newline String.length Rx.lastNewline].
  replace (Rx.isNewline "010") with true by reflexivity.
  replace (0 + 3 <=? 1 + String.length sigline + 1) with true.
  2:{ symmetry. apply Nat.leb_le. rewrite E. cbn. lia. }
  cbn [andb]. f_equal. f_equal.
  - rewrite append_assoc. cbn [append String.substring].
    replace (1 + String.length sigline + 1 - 1 - 1) with (String.length sigline) by lia.
    apply take_append.
  - lia.
Qed.

Lemma afterLang_tag (x : string) :
  Rx.afterLang ["typescript"; "ts"] (lang ^^ newline ^^ x) = newline ^^ x.
Proof.
  destruct Hlang as [<- | [<- | [<- | []]]].
  - reflexivity.
  - cbn [Rx.afterLang].
    replace (String.prefix "typescript" ("ts" ^^ newline ^^ x)) with false by reflexivity.
    rewrite prefix_append. apply (drop_append "ts").
  - cbn [Rx.afterLang]. rewrite prefix_append. apply (drop_append "typescript").
Qed.

Lemma block_split :
  block ^^ rest = "```" ^^ lang ^^ newline ^^ sigline ^^ newline ^^ "```" ^^ rest.
Proof. unfold signatureBlock. now rewrite !append_assoc. Qed.

Lemma sigBlockAt_block (prev : option ascii) :
  sigBlockAt prev (block ^^ rest) = Some sigline.
Proof.
  rewrite block_split. unfold sigBlockAt. rewrite prefix_append.
  rewrite (drop_append "```"), afterLang_tag, codeBody_line. reflexivity.
Qed.

Lemma signatureHead_ident (fuel : nat) (x : string) :
  signatureHead (S fuel) (ident ^^ "(" ^^ x) = Some x.
Proof.
  destruct Hid as [Ht Hw]. cbn [signatureHead].
  change (ident ^^ "(" ^^ x) with (ident ^^ String "(" x).
  rewrite (span_run JS.isWord ident "(" x Hw eq_refl), Ht. reflexivity.
Qed.

Lemma quiet_append (a b : string) : quiet (a ^^ b) = quiet a && quiet b.
Proof. unfold quiet. apply forallb_append. Qed.

Lemma sigPatternAt_block (prev : option ascii) :
  sigPatternAt prev (block ^^ rest) =
  Some ((sigline, block ^^ rest), String.length block).
Proof.
  destruct sigline_head as (c & r & E & Hc).
  unfold sigPatternAt.
  replace (String.prefix "```" (block ^^ rest)) with true
    by (rewrite block_split; symmetry; apply prefix_append).
  replace (Rx.afterLang ["typescript"; "ts"] (Rx.drop 3 (block ^^ rest)))
    with (newline ^^ sigline ^^ newline ^^ "```" ^^ rest)
    by (rewrite block_split, (drop_append "```"), afterLang_tag; reflexivity).
  assert (Hw : Rx.span JS.isSpace (newline ^^ sigline ^^ newline ^^ "```" ^^ rest) =
               (newline, sigline ^^ newline ^^ "```" ^^ rest)).
  { rewrite E. cbn [newline append Rx.span]. replace (JS.isSpace "010") with true by reflexivity.
    cbn [Rx.span].
    rewrite (proj1 (negb_true_iff _)
               (word_char (fun c => negb (JS.isSpace c)) c ltac:(vm_compute; reflexivity) Hc)).
    reflexivity. }
  rewrite Hw. replace (JS.endsWith newline (String "010" "")) with true by reflexivity.
  assert (Hh : forall fuel,
             signatureHead (S fuel) (sigline ^^ newline ^^ "```" ^^ rest) =
             Some (args ^^ ")" ^^ post ^^ newline ^^ "```" ^^ rest)).
  { intros fuel. unfold signatureLine. rewrite !append_assoc. apply signatureHead_ident. }
  rewrite Hh.
  change (args ^^ ")" ^^ post ^^ newline ^^ "```" ^^ rest)
    with (args ^^ String ")" (post ^^ newline ^^ "```" ^^ rest)).
  rewrite (span_run (fun c => negb (Ascii.eqb c ")")) args ")" _ Hparen eq_refl).
  replace (post ^^ newline ^^ "```" ^^ rest)
    with ((post ^^ newline) ^^ String "`" ("``" ^^ rest)) by (now rewrite !append_assoc).
  rewrite (span_run Rx.notBacktick (post ^^ newline) "`" _);
    [|now rewrite forallb_append, (quiet_notBacktick post Hpost) | reflexivity].
  change (post ^^ newline) with (post ^^ String "010" "").
  rewrite endsWith_append.
  change (String "`" ("``" ^^ rest)) with ("```" ^^ rest).
  rewrite prefix_append. cbn [andb]. f_equal. f_equal.
  - f_equal.
    replace (String.length (sigline ^^ newline ^^ "```" ^^ rest) -
             String.length ("```" ^^ rest) - 1) with (String.length sigline)
      by (rewrite !length_append; cbn; lia).
    apply take_append.
  - unfold signatureBlock. rewrite !length_append. cbn. lia.
Qed.

Lemma sigPatternAt_none (prev : option ascii) (c : ascii) (r : string) :
  Rx.notBacktick c = true -> sigPatternAt prev (String c r) = None.
Proof.
  unfold Rx.notBacktick, sigPatternAt. intros H. apply negb_true_iff in H.
  cbn [String.prefix]. destruct (ascii_dec "`" c) as [<- | _]; [discriminate | reflexivity].
Qed.

(** The signatures found in a section that holds the block after a text
    without backquote: that of the block. *)
Lemma sigPattern_matches (w : string) (prev : option ascii) :
  forallb Rx.notBacktick (list_ascii_of_string w) = true ->
  Rx.allFrom sigPatternAt 0 prev (w ^^ block ^^ rest) = [(sigline, block ^^ rest)].
Proof.
  intros Hw.
  destruct (allFrom_skip_run sigPatternAt Rx.notBacktick sigPatternAt_none
              w prev (block ^^ rest) Hw) as [prev' ->].
  assert (E : exists b, block = String "`" b).
  { unfold signatureBlock. cbn [append]. eauto. }
  destruct E as [b E].
  pose proof (sigPatternAt_block prev') as Hm. rewrite E in *. cbn [append] in *.
  cbn [Rx.allFrom]. rewrite Hm. f_equal.
  cbn [String.length]. replace (S (String.length b) - 1) with (String.length b) by lia.
  destruct (allFrom_skip_count sigPatternAt b (Some "`"%char) rest) as [p ->].
  apply (allFrom_none sigPatternAt
           (fun t => forallb Rx.notBacktick (list_ascii_of_string t) = true)).
  - intros c r H. cbn in H. now apply andb_prop in H.
  - intros q [|c r] H; [reflexivity|]. apply sigPatternAt_none. cbn in H.
    now apply andb_prop in H.
  - now apply quiet_notBacktick.
Qed.

(** ** The signature *)

Lemma trimEnd_after (a : string) (c : ascii) (b : string) :
  JS.isSpace c = false -> JS.trimEnd (a ^^ String c b) = a ^^ String c (JS.trimEnd b).
Proof.
  intros Hc.
  assert (H0 : JS.trimEnd (String c b) = String c (JS.trimEnd b)).
  { cbn. destruct (JS.trimEnd b); [now rewrite Hc | reflexivity]. }
  induction a as [|x a IH]; [exact H0|].
  cbn [append]. change (JS.trimEnd (String x (a ^^ String c b)))
    with (match JS.trimEnd (a ^^ String c b) with
          | "" => if JS.isSpace x then "" else String x ""
          | r => String x r
          end).
  rewrite IH. now destruct a.
Qed.

Abbreviation signature := (signatureLine ident args (JS.trimEnd post)).

Lemma trim_sigline : JS.trim sigline = signature.
Proof.
  destruct sigline_head as (c & r & E & Hc).
  unfold JS.trim. rewrite E. cbn [JS.trimStart].
  rewrite (proj1 (negb_true_iff _)
             (word_char (fun c => negb (JS.isSpace c)) c ltac:(vm_compute; reflexivity) Hc)).
  rewrite <- E. unfold signatureLine.
  replace (ident ^^ "(" ^^ args ^^ ")" ^^ post)
    with ((ident ^^ "(" ^^ args) ^^ String ")" post) by (now rewrite !append_assoc).
  rewrite trimEnd_after by reflexivity. now rewrite !append_assoc.
Qed.

Lemma splitChar_none (sep : ascii) (s : string) :
  forallb (fun c => negb (Ascii.eqb c sep)) (list_ascii_of_string s) = true ->
  JS.splitChar sep s = [s].
Proof.
  induction s as [|c s IH]; cbn; [reflexivity|]. intros H.
  apply andb_prop in H as [Hc Hs]. apply negb_true_iff in Hc. now rewrite Hc, (IH Hs).
Qed.

Lemma line_class (Q : ascii -> bool) (s : string) :
  (forall c, JS.isLineTerminator c = false -> Q c = true) ->
  Guide.noLineTerminator s = true -> forallb Q (list_ascii_of_string s) = true.
Proof.
  intros H. unfold Guide.noLineTerminator. apply forallb_weaken. intros c Hc.
  apply H. now apply negb_true_iff.
Qed.

Lemma signature_one_line : hd "" (JS.splitChar "010" signature) = signature.
Proof.
  rewrite splitChar_none; [reflexivity|]. unfold signatureLine. destruct Hid as [_ Hw].
  assert (Hq : forall c, JS.isLineTerminator c = false -> negb (Ascii.eqb c "010") = true).
  { intros c. unfold JS.isLineTerminator, JS.code.
    destruct (Ascii.eqb_spec c "010") as [-> | _]; [discriminate | reflexivity]. }
  rewrite !forallb_append.
  rewrite (word_chars (fun c => negb (Ascii.eqb c "010")) ident);
    [| vm_compute; reflexivity | exact Hw].
  rewrite (line_class _ args Hq Hargs1).
  rewrite (line_class _ (JS.trimEnd post) Hq); [reflexivity|].
  now apply trimEnd_chars.
Qed.

(** The parameters that the signature declares. *)
Lemma signatureParams_declared : signatureParams signature = declaredParams args.
Proof.
  destruct Hid as [_ Hw]. unfold signatureLine.
  rewrite (signatureParams_shape ident args (JS.trimEnd post) Hw Hparen).
  unfold loopGroups. change 0%Z with (Z.of_nat 0).
  rewrite (groupsFrom_nested args 0 Hclose).
  now apply declared_paramOfPart.
Qed.

Lemma quiet_noBullet (s : string) : quiet s = true -> noBullet s = true.
Proof.
  unfold noBullet. apply quiet_class. intros c Hc. now apply andb_prop in Hc.
Qed.

Lemma noBullet_append (a b : string) : noBullet (a ^^ b) = noBullet a && noBullet b.
Proof. unfold noBullet. apply forallb_append. Qed.

Lemma noBullet_lang : noBullet lang = true.
Proof. destruct Hlang as [<- | [<- | [<- | []]]]; reflexivity. Qed.

Lemma noBullet_ident : noBullet ident = true.
Proof.
  destruct Hid as [_ Hw]. unfold noBullet.
  apply word_chars; [vm_compute; reflexivity | exact Hw].
Qed.

Lemma noBullet_block : noBullet (block ^^ rest) = true.
Proof.
  rewrite block_split. unfold signatureLine.
  rewrite !noBullet_append, noBullet_lang, noBullet_ident,
    (quiet_noBullet args Hargs), (quiet_noBullet post Hpost), (quiet_noBullet rest Hrest).
  reflexivity.
Qed.

(** Without bullet-list line in the context, the parameters are those
    that the signature declares. *)
Lemma parseParams_declared (context : string) :
  noBullet context = true -> parseParams context signature = declaredParams args.
Proof.
  intros H. unfold parseParams. rewrite (paramDescMatches_noBullet context H).
  apply signatureParams_declared.
Qed.

Lemma nameBeforeParen_signature : nameBeforeParen signature = Some ident.
Proof. destruct Hid as [Ht Hw]. unfold signatureLine. now apply nameBeforeParen_shape. Qed.

(** ** The member headings *)

Lemma memberHeadingAt_none (prev : option ascii) (t : string) :
  match t with String c _ => notHash c = true | EmptyString => True end ->
  memberHeadingAt prev t = None.
Proof.
  unfold memberHeadingAt. destruct (Rx.atLineStart prev); [|reflexivity].
  destruct t as [|c r]; [reflexivity|]. unfold notHash. intros H.
  apply negb_true_iff in H. cbn [Rx.span]. rewrite Ascii.eqb_sym, H. reflexivity.
Qed.

Lemma nextHeadingAt_none (prev : option ascii) (t : string) :
  match t with String c _ => notHash c = true | EmptyString => True end ->
  nextHeadingAt prev t = None.
Proof.
  unfold nextHeadingAt. destruct (Rx.atLineStart prev); [|reflexivity].
  destruct t as [|c r]; [reflexivity|]. unfold notHash. intros H.
  apply negb_true_iff in H. cbn [Rx.span]. rewrite Ascii.eqb_sym, H. reflexivity.
Qed.

Lemma notHash_head (t : string) :
  forallb notHash (list_ascii_of_string t) = true ->
  match t with String c _ => notHash c = true | EmptyString => True end.
Proof. destruct t as [|c r]; [trivial|]. cbn. intros H. now apply andb_prop in H. Qed.

Lemma quiet_notHash (s : string) :
  quiet s = true -> forallb notHash (list_ascii_of_string s) = true.
Proof.
  apply quiet_class. intros c Hc. apply andb_prop in Hc as [Hc _].
  unfold isMark in Hc. apply negb_true_iff, orb_false_elim in Hc as [Hc _].
  unfold notHash. now rewrite Hc.
Qed.

Lemma unmarked_notHash (s : string) :
  unmarked s = true -> forallb notHash (list_ascii_of_string s) = true.
Proof.
  unfold unmarked. apply forallb_weaken. intros c Hc.
  unfold isMark in Hc. apply negb_true_iff, orb_false_elim in Hc as [Hc _].
  unfold notHash. now rewrite Hc.
Qed.

Lemma unmarked_notBacktick (s : string) :
  unmarked s = true -> forallb Rx.notBacktick (list_ascii_of_string s) = true.
Proof.
  unfold unmarked. apply forallb_weaken. intros c Hc.
  unfold isMark in Hc. apply negb_true_iff, orb_false_elim in Hc as [_ Hc].
  unfold Rx.notBacktick. now rewrite Hc.
Qed.

Lemma notHash_block : forallb notHash (list_ascii_of_string (block ^^ rest)) = true.
Proof.
  rewrite block_split. unfold signatureLine. destruct Hid as [_ Hw].
  rewrite !forallb_append, (quiet_notHash args Hargs), (quiet_notHash post Hpost),
    (quiet_notHash rest Hrest).
  rewrite (word_chars notHash ident); [| vm_compute; reflexivity | exact Hw].
  destruct Hlang as [<- | [<- | [<- | []]]]; reflexivity.
Qed.

(** A section without [#] has no member heading. *)
Lemma no_heading (s : string) (prev : option ascii) :
  forallb notHash (list_ascii_of_string s) = true ->
  Rx.allFrom memberHeadingAt 0 prev s = [].
Proof.
  apply (allFrom_none memberHeadingAt
           (fun t => forallb notHash (list_ascii_of_string t) = true)).
  - intros c r H. cbn in H. now apply andb_prop in H.
  - intros q t H. now apply memberHeadingAt_none, notHash_head.
Qed.

Lemma headingMembers_plain :
  headingMembers (pre ^^ block ^^ rest) = [].
Proof.
  unfold headingMembers, Rx.all. rewrite no_heading; [reflexivity|].
  now rewrite forallb_append, (unmarked_notHash pre Hpre), notHash_block.
Qed.

(** ** A section with a member heading *)

Variable hashes : string.
Hypothesis Hhashes : In hashes ["####"; "#####"].

Abbreviation titled :=
  (hashes ^^ " " ^^ ident ^^ newline ^^ newline ^^ block ^^ rest).

Lemma ident_head : exists c r, ident = String c r /\ JS.isWord c = true.
Proof.
  destruct Hid as [Ht Hw]. destruct ident as [|c r]; [discriminate|].
  exists c, r. split; [reflexivity|]. unfold isWordString in Hw. cbn in Hw.
  now apply andb_prop in Hw.
Qed.

Lemma memberHeadingAt_titled :
  memberHeadingAt (Some "010"%char) titled =
  Some ((ident, String.length hashes + 1 + String.length ident, titled),
        String.length hashes + 1 + String.length ident).
Proof.
  destruct ident_head as (c & r & E & Hc). destruct Hid as [Ht Hw].
  assert (Hs : Rx.span JS.isSpace (ident ^^ newline ^^ newline ^^ block ^^ rest) =
               ("", ident ^^ newline ^^ newline ^^ block ^^ rest)).
  { rewrite E. cbn [append Rx.span].
    rewrite (proj1 (negb_true_iff _)
               (word_char (fun c => negb (JS.isSpace c)) c ltac:(vm_compute; reflexivity) Hc)).
    reflexivity. }
  assert (Hn : Rx.span JS.isWord (ident ^^ newline ^^ newline ^^ block ^^ rest) =
               (ident, newline ^^ newline ^^ block ^^ rest)).
  { apply (span_run JS.isWord ident "010"); [exact Hw | reflexivity]. }
  unfold memberHeadingAt. cbn [Rx.atLineStart].
  replace (JS.isLineTerminator "010") with true by reflexivity.
  destruct Hhashes as [<- | [<- | []]].
  - cbn [append Rx.span Ascii.eqb Bool.eqb].
    replace (JS.isSpace " ") with true by reflexivity. rewrite Hs.
    cbn [String.length Nat.eqb orb]. rewrite Hn, Ht. reflexivity.
  - cbn [append Rx.span Ascii.eqb Bool.eqb].
    replace (JS.isSpace " ") with true by reflexivity. rewrite Hs.
    cbn [String.length Nat.eqb orb]. rewrite Hn, Ht. reflexivity.
Qed.

Lemma memberHeadingAt_char (prev : option ascii) (c : ascii) (r : string) :
  notHash c = true -> memberHeadingAt prev (String c r) = None.
Proof. intros H. now apply memberHeadingAt_none. Qed.

(** The member headings of the section: the one before the block. *)
Lemma headings_titled (prev : option ascii) :
  Rx.allFrom memberHeadingAt 0 prev (pre ^^ newline ^^ titled) =
  [(ident, String.length hashes + 1 + String.length ident, titled)].
Proof.
  change (pre ^^ newline ^^ titled) with (pre ^^ String "010" titled).
  rewrite (allFrom_skip_to memberHeadingAt notHash memberHeadingAt_char pre prev "010" titled
             (unmarked_notHash pre Hpre) eq_refl).
  pose proof memberHeadingAt_titled as Hm.
  assert (E : exists a, titled = String "#" (a ^^ newline ^^ newline ^^ block ^^ rest) /\
                        String.length a = String.length hashes + 1 + String.length ident - 1).
  { destruct Hhashes as [<- | [<- | []]].
    - exists ("###" ^^ " " ^^ ident). split; [now rewrite !append_assoc|].
      rewrite !length_append. cbn. lia.
    - exists ("####" ^^ " " ^^ ident). split; [now rewrite !append_assoc|].
      rewrite !length_append. cbn. lia. }
  destruct E as (a & E & Ha). rewrite E in Hm |- *.
  cbn [Rx.allFrom]. rewrite Hm. f_equal. rewrite <- Ha.
  destruct (allFrom_skip_count memberHeadingAt a (Some "#"%char)
              (newline ^^ newline ^^ block ^^ rest)) as [p ->].
  apply no_heading. do 2 rewrite forallb_append. now rewrite notHash_block.
Qed.

Lemma memberSectionOf_titled :
  memberSectionOf (String.length hashes + 1 + String.length ident) titled = titled.
Proof.
  unfold memberSectionOf.
  replace (Rx.drop (String.length hashes + 1 + String.length ident) titled)
    with (newline ^^ newline ^^ block ^^ rest).
  2:{ replace (String.length hashes + 1 + String.length ident)
        with (String.length (hashes ^^ " " ^^ ident)) by (rewrite !length_append; cbn; lia).
      replace titled with ((hashes ^^ " " ^^ ident) ^^ newline ^^ newline ^^ block ^^ rest)
        by (now rewrite !append_assoc).
      symmetry. apply drop_append. }
  rewrite (firstFrom_none nextHeadingAt
             (fun t => forallb notHash (list_ascii_of_string t) = true)); [reflexivity | | |].
  - intros c r H. cbn in H. now apply andb_prop in H.
  - intros q t H. now apply nextHeadingAt_none, notHash_head.
  - do 2 rewrite forallb_append. now rewrite notHash_block.
Qed.

Lemma sigBlockAt_none (prev : option ascii) (c : ascii) (r : string) :
  Rx.notBacktick c = true -> sigBlockAt prev (String c r) = None.
Proof.
  unfold Rx.notBacktick, sigBlockAt. intros H. apply negb_true_iff in H.
  cbn [String.prefix]. destruct (ascii_dec "`" c) as [<- | _]; [discriminate | reflexivity].
Qed.

Lemma first_sigBlock_titled : Rx.first sigBlockAt titled = Some sigline.
Proof.
  replace titled with ((hashes ^^ " " ^^ ident ^^ newline ^^ newline) ^^ block ^^ rest)
    by (now rewrite !append_assoc).
  apply (first_skip_run sigBlockAt Rx.notBacktick).
  - apply sigBlockAt_none.
  - destruct Hid as [_ Hw]. rewrite !forallb_append.
    rewrite (word_chars Rx.notBacktick ident); [| vm_compute; reflexivity | exact Hw].
    destruct Hhashes as [<- | [<- | []]]; reflexivity.
  - apply sigBlockAt_block.
Qed.

Lemma noBullet_titled : noBullet titled = true.
Proof.
  do 5 rewrite noBullet_append. rewrite noBullet_ident, noBullet_block.
  destruct Hhashes as [<- | [<- | []]]; reflexivity.
Qed.

(** The member read from the heading and its block. *)
Lemma parseMemberSection_titled :
  exists m, parseMemberSection ident titled = Some m /\
            MemberInfo.name m = ident /\
            MemberInfo.params m = declaredParams args.
Proof.
  unfold parseMemberSection. rewrite first_sigBlock_titled, trim_sigline, signature_one_line.
  eexists. split; [reflexivity|]. cbn [MemberInfo.name MemberInfo.params].
  split; [reflexivity|]. apply parseParams_declared, noBullet_titled.
Qed.

Lemma signatureStep_block (members : list MemberInfo.t) :
  signatureStep members (sigline, block ^^ rest) =
  if existsb (fun m => String.eqb (MemberInfo.name m) ident) members then members
  else members ++
       [MemberInfo.mk ident
          (if String.eqb ident "constructor" then "constructor" else "method")
          signature "public"
          (JS.includes signature "static ")
          (JS.includes signature "async " || JS.includes signature "Promise<")
          ""
          (parseParams (block ^^ rest) signature)
          (option_map (fun ty => Returns.mk (JS.trim ty) "")
                      (Rx.first returnTypeAt signature))
          (extractDecorators (block ^^ rest))
          None].
Proof.
  unfold signatureStep, parseMemberFromSignature. cbn [fst snd].
  rewrite trim_sigline, nameBeforeParen_signature. reflexivity.
Qed.

(** The members of a section that holds the block after a text without
    heading and fence. *)
Lemma members_plain :
  exists m, parseMembers (pre ^^ block ^^ rest) = [m] /\
            MemberInfo.name m = ident /\
            MemberInfo.params m = declaredParams args.
Proof.
  unfold parseMembers, signatureMembers. rewrite headingMembers_plain. unfold Rx.all.
  rewrite (sigPattern_matches pre None (unmarked_notBacktick pre Hpre)).
  cbn [fold_left]. rewrite signatureStep_block. cbn [existsb app].
  eexists. split; [reflexivity|]. cbn [MemberInfo.name MemberInfo.params].
  split; [reflexivity|]. apply parseParams_declared, noBullet_block.
Qed.

(** The members of a section that holds the block under a member
    heading. *)
Lemma members_titled :
  exists m, parseMembers (pre ^^ newline ^^ titled) = [m] /\
            MemberInfo.name m = ident /\
            MemberInfo.params m = declaredParams args.
Proof.
  assert (Hsig : Rx.all sigPatternAt (pre ^^ newline ^^ titled) = [(sigline, block ^^ rest)]).
  { unfold Rx.all.
    replace (pre ^^ newline ^^ titled)
      with ((pre ^^ newline ^^ hashes ^^ " " ^^ ident ^^ newline ^^ newline) ^^ block ^^ rest)
      by (now rewrite !append_assoc).
    apply sigPattern_matches. destruct Hid as [_ Hw].
    do 6 rewrite forallb_append.
    rewrite (unmarked_notBacktick pre Hpre).
    rewrite (word_chars Rx.notBacktick ident); [| vm_compute; reflexivity | exact Hw].
    destruct Hhashes as [<- | [<- | []]]; reflexivity. }
  unfold parseMembers, signatureMembers. rewrite Hsig. cbn [fold_left].
  rewrite signatureStep_block.
  unfold headingMembers, Rx.all. rewrite headings_titled. cbn [fold_left].
  destruct (JS.arrayIncludes structuralLabels ident).
  - cbn [existsb app]. eexists. split; [reflexivity|].
    cbn [MemberInfo.name MemberInfo.params].
    split; [reflexivity|]. apply parseParams_declared, noBullet_block.
  - rewrite memberSectionOf_titled.
    destruct parseMemberSection_titled as (m & -> & Hn & Hp).
    cbn [app existsb]. rewrite Hn, String.eqb_refl. cbn [orb].
    exists m. now repeat split.
Qed.

End SignatureBlocks.

Section SignatureClaim.

Import Typedoc.




(** The scenario of the specification: the signature
    [createToken(name: string, amount?: number): Promise<Token>] yields a
    member that is asynchronous, with the parameters [name] and
    [amount], the second one optional; so does the block without member
    heading. *)
Example createToken_scenario :
  map (fun m => (MemberInfo.name m, MemberInfo.isAsync m, MemberInfo.params m))
      (parseMembers (memberHeading "####" "createToken" ^^
                     signatureBlock "ts" Samples.createTokenSignature)) =
    [("createToken", true,
      [ParamInfo.mk "name" "string" "" false; ParamInfo.mk "amount" "number" "" true])] /\
  map (fun m => (MemberInfo.name m, MemberInfo.isAsync m, MemberInfo.params m))
      (parseMembers Samples.createTokenSection) =
    [("createToken", true,
      [ParamInfo.mk "name" "string" "" false; ParamInfo.mk "amount" "number" "" true])].
Proof. split; vm_compute; reflexivity. Qed.

(** Outside the conditions of the amended C2 the parameters can differ
    from the top-level groups of the form [name?: Type]: the arguments
    are read up to the first closing parenthesis, and a closing bracket
    that closes nothing (the [>] of an arrow) hides the commas that
    follow it from the loop.  A block with another tag yields no
    member. *)
Example signatures_outside_the_conditions :
  map ParamInfo.name (signatureParams "foo(cb: (x: number) => void, y: string)") = ["cb"] /\
  map ParamInfo.type (signatureParams "foo(cb: (x: number) => void, y: string)")
    = ["(x: number"] /\
  List.length (topLevelGroups "cb: (x: number) => void, y: string") = 2 /\
  map ParamInfo.type (signatureParams "foo(a: X => Y, b: Z)") = ["X => Y, b: Z"] /\
  List.length (topLevelGroups "a: X => Y, b: Z") = 2 /\
  parseMembers (signatureBlock "js" "foo(a: string)") = [].
Proof. repeat split; vm_compute; reflexivity. Qed.

End SignatureClaim.
